(** * compact-portfolio: build-and-serve pipeline

    A shallow embedding of the two server scripts of the repository
    ([server.js] and the class-based [AssetProcessor] variant) and the
    properties their specification states about them.

    - [JS]: the parts of the JavaScript runtime the scripts rely on
      (UTF-16 strings, [RegExp] backtracking matcher, [String.prototype]
      helpers, 32-bit integer coercions).
    - [Server]: the functions of [server.js].
    - [AssetProcessor]: the methods of the [AssetProcessor] class. *)

From Stdlib Require Import ZArith NArith Lia List Bool String Ascii.
From Stdlib.Strings Require Import Byte.
From stdpp Require Import base option list gmap.

Set Default Proof Using "Type".
Local Open Scope N_scope.

(* ===================================================================== *)
(** * The JavaScript runtime *)
(* ===================================================================== *)

Module JS.

(** A JavaScript string is a sequence of UTF-16 code units. *)
Abbreviation jstring := (list N).

Fixpoint js (s : string) : jstring :=
  match s with
  | EmptyString => []
  | String a s' => N_of_ascii a :: js s'
  end.

Definition ch (a : ascii) : N := N_of_ascii a.
Arguments ch a%_char : simpl never.
Arguments js s : simpl never.

(** Back to a printable string (code units below 256). *)
Fixpoint unjs (s : jstring) : string :=
  match s with
  | [] => EmptyString
  | c :: s' => String (ascii_of_N c) (unjs s')
  end.

(** Characters that cannot be written inside a string literal here. *)
Definition dquote : N := 34.
Definition squote : N := 39.
Definition backslash : N := 92.
Definition backtick : N := 96.
Definition LF : N := 10.
Definition CR : N := 13.

(** A double-quoted literal. *)
Definition quoted (s : jstring) : jstring := dquote :: s ++ [dquote].

(** ** Character classes *)

(** [\s]: WhiteSpace and LineTerminator code points. *)
Definition isSpace (c : N) : bool :=
  ((9 <=? c) && (c <=? 13)) || (c =? 32) || (c =? 160) || (c =? 5760)
  || ((8192 <=? c) && (c <=? 8202)) || (c =? 8232) || (c =? 8233)
  || (c =? 8239) || (c =? 8287) || (c =? 12288) || (c =? 65279).

Definition isDigit (c : N) : bool := (48 <=? c) && (c <=? 57).
Definition isUpper (c : N) : bool := (65 <=? c) && (c <=? 90).
Definition isLower (c : N) : bool := (97 <=? c) && (c <=? 122).
Definition isAlpha (c : N) : bool := isUpper c || isLower c.

(** [\w] *)
Definition isWord (c : N) : bool := isAlpha c || isDigit c || (c =? 95).

(** LineTerminator: excluded by [.], recognised by [^] and [$] under [m]. *)
Definition isLineTerminator (c : N) : bool :=
  (c =? 10) || (c =? 13) || (c =? 8232) || (c =? 8233).

(** Canonicalize under the [i] flag.  Every pattern character of the
    scripts is ASCII, and a code unit above 127 never canonicalizes to
    one below 128, so folding the ASCII letters is exact here. *)
Definition canon (c : N) : N := if isLower c then c - 32 else c.
Definition swapcase (c : N) : N :=
  if isLower c then c - 32 else if isUpper c then c + 32 else c.

Inductive citem :=
| IChar (c : N)
| IRange (lo hi : N)
| ISpace        (* \s *)
| INotSpace     (* \S *)
| IWord         (* \w *)
| IDigit.       (* \d *)

Definition citem_match (c : N) (it : citem) : bool :=
  match it with
  | IChar a => a =? c
  | IRange lo hi => (lo <=? c) && (c <=? hi)
  | ISpace => isSpace c
  | INotSpace => negb (isSpace c)
  | IWord => isWord c
  | IDigit => isDigit c
  end.

(** ** Regular expressions *)

Inductive regex :=
| Empty
| Chr (c : N)
| Dot
| Class (neg : bool) (items : list citem)
| Seq (r1 r2 : regex)
| Alt (r1 r2 : regex)
| Rep (min : nat) (max : option nat) (greedy : bool) (r : regex)
| Group (n : nat) (r : regex)
| Backref (n : nat)
| NegLookahead (r : regex)
| WordBoundary
| Bol
| Eol.

Record flags := mkFlags { ignoreCase : bool; multiline : bool }.
Definition noflags := mkFlags false false.
Definition flag_i := mkFlags true false.
Definition flag_m := mkFlags false true.

(** Pattern notation helpers. *)
Fixpoint seqs (l : list regex) : regex :=
  match l with
  | [] => Empty
  | [r] => r
  | r :: l' => Seq r (seqs l')
  end.

Fixpoint alts (l : list regex) : regex :=
  match l with
  | [] => Empty
  | [r] => r
  | r :: l' => Alt r (alts l')
  end.

Definition lit (s : string) : regex := seqs (map Chr (js s)).
Definition chr (a : ascii) : regex := Chr (ch a).
Arguments chr a%_char.
Definition rng (lo hi : ascii) : citem := IRange (ch lo) (ch hi).
Arguments rng (lo hi)%_char.
Definition star r := Rep 0 None true r.
Definition plus r := Rep 1 None true r.
Definition opt r := Rep 0 (Some 1%nat) true r.
Definition star_lazy r := Rep 0 None false r.
Definition plus_lazy r := Rep 1 None false r.
Definition ws := Class false [ISpace].
Definition any := Class false [ISpace; INotSpace].
Definition chars (s : string) : list citem := map IChar (js s).

(** Capture groups of a pattern. *)
Fixpoint groups (r : regex) : list nat :=
  match r with
  | Seq a b | Alt a b => groups a ++ groups b
  | Rep _ _ _ a | NegLookahead a => groups a
  | Group n a => n :: groups a
  | _ => []
  end.

Definition ngroups (r : regex) : nat := foldr Nat.max 0%nat (groups r).

(** ** The backtracking matcher (ECMA-262, 22.2.2) *)

Record pos := mkPos { p_prev : option N; p_rest : jstring }.

(** Captures: the most recent binding of a group comes first. *)
Abbreviation caps := (list (nat * option jstring)).

Fixpoint cap_get (cs : caps) (n : nat) : option jstring :=
  match cs with
  | [] => None
  | (m, v) :: cs' => if Nat.eqb m n then v else cap_get cs' n
  end.

Definition cap_clear (gs : list nat) (cs : caps) : caps :=
  map (fun g => (g, None)) gs ++ cs.

Definition kont := pos -> caps -> option (pos * caps).

Definition char_eq (fl : flags) (a c : N) : bool :=
  if ignoreCase fl then canon a =? canon c else a =? c.

Definition class_match (fl : flags) (neg : bool) (items : list citem) (c : N) : bool :=
  let found := existsb (citem_match c) items
               || (ignoreCase fl && existsb (citem_match (swapcase c)) items) in
  xorb neg found.

Definition isWordOpt (o : option N) : bool :=
  match o with Some c => isWord c | None => false end.

Definition step1 (x : pos) (ok : N -> bool) (k : kont) (cs : caps) : option (pos * caps) :=
  match p_rest x with
  | c :: t => if ok c then k (mkPos (Some c) t) cs else None
  | [] => None
  end.

(** Matching the text of a back-reference at the current position. *)
Fixpoint match_text (fl : flags) (w : jstring) (x : pos) : option pos :=
  match w with
  | [] => Some x
  | a :: w' =>
      match p_rest x with
      | c :: t => if char_eq fl a c then match_text fl w' (mkPos (Some c) t) else None
      | [] => None
      end
  end.

(** [RepeatMatcher]: [m] matches one iteration.  An iteration that
    consumes nothing once the minimum is reached is rejected, so
    [mn + length rest + 1] steps always suffice. *)
Fixpoint rep_loop (m : pos -> caps -> kont -> option (pos * caps)) (gs : list nat)
    (greedy : bool) (k : kont) (fuel : nat) (mn : nat) (mx : option nat)
    (x : pos) (cs : caps) {struct fuel} : option (pos * caps) :=
  match fuel with
  | O => None
  | S fuel' =>
      match mx with
      | Some O => k x cs
      | _ =>
          let d : kont := fun y cs' =>
            if Nat.eqb mn 0 && Nat.eqb (length (p_rest y)) (length (p_rest x))
            then None
            else rep_loop m gs greedy k fuel' (Nat.pred mn) (Nat.pred <$> mx) y cs' in
          let cs0 := cap_clear gs cs in
          if negb (Nat.eqb mn 0) then m x cs0 d
          else if greedy then
            match m x cs0 d with
            | Some z => Some z
            | None => k x cs
            end
          else
            match k x cs with
            | Some z => Some z
            | None => m x cs0 d
            end
      end
  end.

Fixpoint rmatch (fl : flags) (r : regex) (x : pos) (cs : caps) (k : kont) {struct r}
  : option (pos * caps) :=
  match r with
  | Empty => k x cs
  | Chr a => step1 x (char_eq fl a) k cs
  | Dot => step1 x (fun c => negb (isLineTerminator c)) k cs
  | Class neg items => step1 x (class_match fl neg items) k cs
  | Seq r1 r2 => rmatch fl r1 x cs (fun y cs' => rmatch fl r2 y cs' k)
  | Alt r1 r2 =>
      match rmatch fl r1 x cs k with
      | Some z => Some z
      | None => rmatch fl r2 x cs k
      end
  | Rep mn mx greedy r' =>
      rep_loop (rmatch fl r') (groups r') greedy k
               (mn + length (p_rest x) + 1)%nat mn mx x cs
  | Group n r' =>
      rmatch fl r' x cs (fun y cs' =>
        let w := take (length (p_rest x) - length (p_rest y)) (p_rest x) in
        k y ((n, Some w) :: cs'))
  | Backref n =>
      match cap_get cs n with
      | None => k x cs
      | Some w =>
          match match_text fl w x with
          | Some y => k y cs
          | None => None
          end
      end
  | NegLookahead r' =>
      match rmatch fl r' x cs (fun y cs' => Some (y, cs')) with
      | Some _ => None
      | None => k x cs
      end
  | WordBoundary =>
      let a := isWordOpt (p_prev x) in
      let b := isWordOpt (head (p_rest x)) in
      if xorb a b then k x cs else None
  | Bol =>
      match p_prev x with
      | None => k x cs
      | Some c => if multiline fl && isLineTerminator c then k x cs else None
      end
  | Eol =>
      match p_rest x with
      | [] => k x cs
      | c :: _ => if multiline fl && isLineTerminator c then k x cs else None
      end
  end.

(** One match attempt at a position: the number of code units consumed
    and the captures. *)
Definition match_at (fl : flags) (r : regex) (prev : option N) (rest : jstring)
  : option (nat * caps) :=
  match rmatch fl r (mkPos prev rest) [] (fun y cs => Some (y, cs)) with
  | Some (y, cs) => Some ((length rest - length (p_rest y))%nat, cs)
  | None => None
  end.

(** A successful match: its index, length and captures. *)
Record minfo := mkMinfo { m_index : nat; m_len : nat; m_caps : caps }.

(** Successive matches of a global pattern, as [RegExpBuiltinExec] finds
    them from [lastIndex]: leftmost first, an empty match advancing
    [lastIndex] by one. *)
Fixpoint find_all (fuel : nat) (fl : flags) (r : regex)
    (idx : nat) (prev : option N) (rest : jstring) : list minfo :=
  match fuel with
  | O => []
  | S fuel' =>
      match match_at fl r prev rest with
      | Some (O, cs) =>
          mkMinfo idx 0 cs ::
          match rest with
          | c :: t => find_all fuel' fl r (S idx) (Some c) t
          | [] => []
          end
      | Some (len, cs) =>
          mkMinfo idx len cs ::
          find_all fuel' fl r (idx + len) (last (take len rest)) (drop len rest)
      | None =>
          match rest with
          | c :: t => find_all fuel' fl r (S idx) (Some c) t
          | [] => []
          end
      end
  end.

Definition exec_all (fl : flags) (r : regex) (s : jstring) : list minfo :=
  find_all (S (length s)) fl r 0 None s.

(** The first match at or after index 0 ([exec] without [g], [test]). *)
Fixpoint find_first (fl : flags) (r : regex) (idx : nat) (prev : option N)
    (rest : jstring) : option minfo :=
  match match_at fl r prev rest with
  | Some (len, cs) => Some (mkMinfo idx len cs)
  | None =>
      match rest with
      | c :: t => find_first fl r (S idx) (Some c) t
      | [] => None
      end
  end.

Definition test (fl : flags) (r : regex) (s : jstring) : bool :=
  bool_decide (is_Some (find_first fl r 0 None s)).

(** ** [String.prototype] helpers *)

Definition substring (s : jstring) (from len : nat) : jstring :=
  take len (drop from s).

Definition matched (s : jstring) (m : minfo) : jstring :=
  substring s (m_index m) (m_len m).

(** [str.match(/re/g) || []] *)
Definition match_g (fl : flags) (r : regex) (s : jstring) : list jstring :=
  map (matched s) (exec_all fl r s).

Fixpoint trimStart (s : jstring) : jstring :=
  match s with
  | c :: t => if isSpace c then trimStart t else s
  | [] => []
  end.

Definition trim (s : jstring) : jstring := rev (trimStart (rev (trimStart s))).

Fixpoint join (sep : jstring) (l : list jstring) : jstring :=
  match l with
  | [] => []
  | [a] => a
  | a :: l' => a ++ sep ++ join sep l'
  end.

Fixpoint startsWith (p s : jstring) : bool :=
  match p, s with
  | [], _ => true
  | a :: p', c :: s' => (a =? c) && startsWith p' s'
  | _ :: _, [] => false
  end.

Definition endsWith (p s : jstring) : bool := startsWith (rev p) (rev s).

(** [s.indexOf(p)] *)
Fixpoint indexOf (p s : jstring) (idx : nat) : option nat :=
  if startsWith p s then Some idx
  else match s with
       | _ :: s' => indexOf p s' (S idx)
       | [] => None
       end.

Definition padStart (n : nat) (fill : N) (s : jstring) : jstring :=
  replicate (n - length s) fill ++ s.

(** ** Numbers *)

Fixpoint digits_rev (fuel : nat) (base n : N) : list N :=
  match fuel with
  | O => []
  | S fuel' => if n <? base then [n] else (n mod base) :: digits_rev fuel' base (n / base)
  end.

Definition digit_char (d : N) : N := if d <? 10 then 48 + d else 87 + d.

(** [n.toString(radix)] for a non-negative integer. *)
Definition toStringRadix (base n : N) : jstring :=
  map digit_char (rev (digits_rev (S (N.to_nat (N.size n))) base n)).

Definition toString10 (n : N) : jstring := toStringRadix 10 n.
Definition toString16 (n : N) : jstring := toStringRadix 16 n.

(** A natural number as the double closest to it (ties to even);
    [None] is [Infinity]. *)
Definition toDouble (n : N) : option N :=
  let e := N.size n - 53 in
  let q := N.shiftr n e in
  let r := n - N.shiftl q e in
  let half := N.shiftl 1 (e - 1) in
  let q' := if (0 <? e) && ((half <? r) || ((r =? half) && N.odd q)) then q + 1 else q in
  let v := N.shiftl q' e in
  if 1024 <? N.size v then None else Some v.

(** [parseInt(s)] on a non-empty run of decimal digits. *)
Definition parseInt (s : jstring) : option N :=
  toDouble (fold_left (fun acc c => 10 * acc + (c - 48)) s 0).

(** [x.toString(16)] for the result of [parseInt]. *)
Definition numToString16 (x : option N) : jstring :=
  match x with
  | Some n => toString16 n
  | None => js "Infinity"
  end.

(** 32-bit coercions: [ToInt32], [ToUint32] ([x >>> 0]) and [Math.imul]. *)
Definition toInt32 (z : Z) : Z := ((z + 2 ^ 31) mod 2 ^ 32 - 2 ^ 31)%Z.
Definition toUint32 (z : Z) : Z := (z mod 2 ^ 32)%Z.
Definition imul (a b : Z) : Z := toInt32 (toInt32 a * toInt32 b).
Definition xor32 (a b : Z) : Z := toInt32 (Z.lxor (toInt32 a) (toInt32 b)).

(** ** Replacement *)

(** [GetSubstitution]: expands the [$] patterns of a replacement
    template; [cs] are the captures 1..m of the match. *)
Fixpoint getSubstitution (mt str : jstring) (position : nat)
    (cs : list (option jstring)) (tpl : jstring) : jstring :=
  let m := length cs in
  let cap (n : nat) : jstring := default [] (mjoin (cs !! Nat.pred n)) in
  match tpl with
  | [] => []
  | c :: t =>
      if negb (c =? 36) then c :: getSubstitution mt str position cs t
      else
        match t with
        | [] => [c]
        | d :: t' =>
            if d =? 36 then 36 :: getSubstitution mt str position cs t'
            else if d =? 38 then mt ++ getSubstitution mt str position cs t'
            else if d =? 96 then take position str ++ getSubstitution mt str position cs t'
            else if d =? 39 then
              drop (position + length mt) str ++ getSubstitution mt str position cs t'
            else if isDigit d then
              let n1 := N.to_nat (d - 48) in
              let one :=
                if (1 <=? n1)%nat && (n1 <=? m)%nat
                then cap n1 ++ getSubstitution mt str position cs t'
                else c :: d :: getSubstitution mt str position cs t' in
              match t' with
              | e :: t'' =>
                  if isDigit e then
                    let n2 := (10 * n1 + N.to_nat (e - 48))%nat in
                    if (n2 <=? m)%nat then
                      if (1 <=? n2)%nat
                      then cap n2 ++ getSubstitution mt str position cs t''
                      else c :: d :: e :: getSubstitution mt str position cs t''
                    else one
                  else one
              | [] => one
              end
            else c :: getSubstitution mt str position cs t
        end
  end.

(** The second argument of [replace]: a template, a function of the
    match and its groups, or a function that also counts its calls. *)
Inductive replacer :=
| Tpl (t : jstring)
| Fn (f : jstring -> (nat -> jstring) -> jstring)
| FnCount (f : nat -> jstring -> jstring).

Definition cap_list (m : nat) (cs : caps) : list (option jstring) :=
  map (fun n => cap_get cs n) (seq 1 m).

(** A group as the replacer function sees it.  In every pattern of the
    scripts that has a function replacer each group takes part in each
    match, so the [undefined] case does not arise. *)
Definition cap_arg (cs : caps) (n : nat) : jstring := default [] (cap_get cs n).

Definition replacement (rp : replacer) (ngr : nat) (s : jstring) (count : nat)
    (mi : minfo) : jstring :=
  match rp with
  | Tpl t => getSubstitution (matched s mi) s (m_index mi) (cap_list ngr (m_caps mi)) t
  | Fn f => f (matched s mi) (cap_arg (m_caps mi))
  | FnCount f => f count (matched s mi)
  end.

Fixpoint assemble (rp : replacer) (ngr : nat) (s : jstring) (ms : list minfo)
    (count next : nat) : jstring :=
  match ms with
  | [] => drop next s
  | mi :: ms' =>
      if (next <=? m_index mi)%nat then
        substring s next (m_index mi - next) ++ replacement rp ngr s count mi
        ++ assemble rp ngr s ms' (S count) (m_index mi + m_len mi)
      else assemble rp ngr s ms' (S count) next
  end.

(** [s.replace(/re/g, rp)] *)
Definition replace_g (fl : flags) (r : regex) (rp : replacer) (s : jstring) : jstring :=
  assemble rp (ngroups r) s (exec_all fl r s) 0 0.

(** [s.replace(pattern, tpl)] with a string pattern: the first
    occurrence only, the template expanded by [GetSubstitution]. *)
Definition replace_str (pattern tpl s : jstring) : jstring :=
  match indexOf pattern s 0 with
  | Some p =>
      take p s ++ getSubstitution pattern s p [] tpl ++ drop (p + length pattern) s
  | None => s
  end.

(** [s.split(/re/)] for a separator pattern without capture groups. *)
Fixpoint split_loop (fuel : nat) (fl : flags) (r : regex) (s : jstring)
    (p q : nat) : list jstring :=
  match fuel with
  | O => [drop p s]
  | S fuel' =>
      if (length s <=? q)%nat then [drop p s]
      else
        match match_at fl r (last (take q s)) (drop q s) with
        | Some (len, _) =>
            let e := Nat.min (q + len) (length s) in
            if Nat.eqb e p then split_loop fuel' fl r s p (S q)
            else substring s p (q - p) :: split_loop fuel' fl r s e e
        | None => split_loop fuel' fl r s p (S q)
        end
  end.

Definition split (fl : flags) (r : regex) (s : jstring) : list jstring :=
  match s with
  | [] => if bool_decide (is_Some (match_at fl r None [])) then [] else [[]]
  | _ => split_loop (S (length s)) fl r s 0 0
  end.

End JS.

Import JS.

Notation "x |> f" := (f x) (at level 68, left associativity, only parsing).

(* ===================================================================== *)
(** * The Node.js libraries and the data both scripts share *)
(* ===================================================================== *)

Module Node.

Abbreviation buffer := (list byte).

Inductive br_result :=
| BrThrows                            (* the call itself throws *)
| BrCallback (r : option buffer).     (* the callback gets an error or the bytes *)

Record gzip_options := mkGzipOptions {
  gz_level : N;
  gz_windowBits : option N;
  gz_memLevel : option N
}.

(** What the scripts take from [Buffer], [crypto], [zlib] and [path]. *)
Class Libs := {
  utf8_decode : buffer -> jstring;                  (* buf.toString("utf8") *)
  utf8_encode : jstring -> buffer;                  (* Buffer.from(s, "utf8") *)
  sha256_base64 : jstring -> jstring;               (* createHash .update(s, "utf8") .digest("base64") *)
  brotliCompress : N -> buffer -> br_result;        (* by BROTLI_PARAM_QUALITY *)
  gzip : gzip_options -> buffer -> option buffer;
  path_join : jstring -> jstring -> jstring
}.

(** The file system under [ROOT], by absolute path. *)
Inductive fsnode :=
| File (content : buffer) (mtimeMs : N)
| Unreadable (mtimeMs : N)     (* a regular file whose read fails *)
| Directory.

Abbreviation filesystem := (gmap jstring fsnode).

Definition existsSync (fs : filesystem) (p : jstring) : bool :=
  bool_decide (is_Some (fs !! p)).

(** [fs.promises.readFile], [fs.readFileSync]: [None] when it fails. *)
Definition readFile (fs : filesystem) (p : jstring) : option buffer :=
  match fs !! p with
  | Some (File c _) => Some c
  | _ => None
  end.

(** [stat(p).mtimeMs] *)
Definition stat_mtimeMs (fs : filesystem) (p : jstring) : option N :=
  match fs !! p with
  | Some (File _ t) | Some (Unreadable t) => Some t
  | Some Directory => Some 0
  | None => None
  end.

Definition isFile (fs : filesystem) (p : jstring) : bool :=
  match fs !! p with
  | Some (File _ _) | Some (Unreadable _) => true
  | _ => false
  end.

(** [path.extname(fp).toLowerCase()] (POSIX separators). *)
Fixpoint basename_rev (r : jstring) : jstring :=
  match r with
  | [] => []
  | c :: t => if c =? ch "/" then [] else c :: basename_rev t
  end.

Fixpoint drop_slashes (r : jstring) : jstring :=
  match r with
  | c :: t => if c =? ch "/" then drop_slashes t else r
  | [] => []
  end.

(** The extension, reversed, of a reversed base name: up to the last dot. *)
Fixpoint ext_rev (r : jstring) : option jstring :=
  match r with
  | [] => None
  | c :: t =>
      if c =? ch "." then (if bool_decide (t = []) then None else Some [c])
      else (fun e => c :: e) <$> ext_rev t
  end.

Definition extname (fp : jstring) : jstring :=
  let base := basename_rev (drop_slashes (rev fp)) in
  if bool_decide (base = js "..") then []
  else match ext_rev base with
       | Some e => rev e
       | None => []
       end.

Definition toLowerCase (s : jstring) : jstring :=
  map (fun c => if isUpper c then c + 32 else c) s.

(** An asset as it is stored in the serving table. *)
Record entry := mkEntry {
  e_path : option jstring;
  e_mtimeMs : option N;
  e_type : jstring;
  e_cache : jstring;
  e_body : buffer;
  e_etag : jstring;
  e_br : option buffer;
  e_brEtag : option jstring;
  e_gz : option buffer;
  e_gzEtag : option jstring
}.

(** The values of the [files] map: assets, and the policy stored under
    the key [__csp__]. *)
Inductive tvalue :=
| Asset (e : entry)
| Policy (csp : jstring).

Abbreviation table := (gmap jstring tvalue).

(** The request fields the handlers read. *)
Record request := mkRequest {
  r_pathname : jstring;                 (* new URL(req.url, ...).pathname *)
  r_accept_encoding : option jstring;   (* req.headers["accept-encoding"] *)
  r_if_none_match : option jstring      (* req.headers["if-none-match"] *)
}.

Record response := mkResponse {
  statusCode : N;
  headers : gmap jstring jstring;
  sent : buffer                         (* the argument of res.end *)
}.

Definition setHeader (name : string) (value : jstring) (h : gmap jstring jstring)
  : gmap jstring jstring := <[js name := value]> h.

(** The [CSP] hash sets: JavaScript [Set]s keep insertion order and
    ignore a value already present. *)
Record cspHashes := mkCspHashes { scripts : list jstring; styles : list jstring }.

Definition set_add (x : jstring) (s : list jstring) : list jstring :=
  if bool_decide (x ∈ s) then s else s ++ [x].

Definition security_headers (h : gmap jstring jstring) : gmap jstring jstring :=
  h
  |> setHeader "X-Content-Type-Options" (js "nosniff")
  |> setHeader "X-Frame-Options" (js "DENY")
  |> setHeader "X-XSS-Protection" (js "1; mode=block")
  |> setHeader "Referrer-Policy" (js "strict-origin-when-cross-origin")
  |> setHeader "Strict-Transport-Security" (js "max-age=31536000; includeSubDomains; preload")
  |> setHeader "Permissions-Policy"
       (js "geolocation=(), microphone=(), camera=(), payment=(), usb=(), magnetometer=(), gyroscope=(), speaker=()").

(** The request as Node hands it to the listener, before its URL is
    parsed. *)
Record incoming := mkIncoming {
  i_url : jstring;                      (* req.url *)
  i_host : option jstring;              (* req.headers.host *)
  i_accept_encoding : option jstring;   (* req.headers["accept-encoding"] *)
  i_if_none_match : option jstring      (* req.headers["if-none-match"] *)
}.

(** [new URL(input, base).pathname]; [None] when the constructor throws
    ([TypeError: Invalid URL]). *)
Class Url := {
  url_pathname : jstring -> jstring -> option jstring
}.

(** The base the handlers build: the template literal writes
    [undefined] for a request without [Host]. *)
Definition url_base (q : incoming) : jstring :=
  js "http://" ++ default (js "undefined") (i_host q).

End Node.

Import Node.

(* ===================================================================== *)
(** * server.js: the text minifiers *)
(* ===================================================================== *)

Module Server.

(** [parts.every((p) => p === parts[0])] *)
Definition every_eq_first (parts : list jstring) : bool :=
  forallb (fun p => bool_decide (Some p = head parts)) parts.

Definition toHex (n : jstring) : jstring :=
  padStart 2 (ch "0") (numToString16 (parseInt n)).

Definition unit_alts : regex :=
  alts [lit "px"; lit "em"; lit "rem"; lit "vh"; lit "vw"; lit "%"; lit "s"; lit "ms"].

Definition hexdigit : regex := Class false [rng "0" "9"; rng "a" "f"; rng "A" "F"].
Definition digit : regex := Class false [IDigit].

Definition css_punct : list citem :=
  chars "{}:;,>+~()[]" ++ [IChar squote; IChar dquote] ++ chars "*/".

Definition quote_class : regex := Class false [IChar dquote; IChar squote].

Definition shorthand (m : jstring) (g : nat -> jstring) : jstring :=
  let prop := g 1%nat in
  let vals := g 2%nat in
  let parts := split noflags (plus ws) (trim vals) in
  match parts with
  | [t; r; b; l] =>
      if bool_decide (t = r) && bool_decide (r = b) && bool_decide (b = l)
      then prop ++ js ":" ++ t
      else if bool_decide (t = b) && bool_decide (r = l)
      then prop ++ js ":" ++ t ++ js " " ++ r
      else m
  | [tb; lr] => if bool_decide (tb = lr) then prop ++ js ":" ++ tb else m
  | _ => m
  end.

Definition border_radius (m : jstring) (g : nat -> jstring) : jstring :=
  let parts := split noflags (plus ws) (trim (g 1%nat)) in
  if Nat.eqb (length parts) 4 && every_eq_first parts
  then js "border-radius:" ++ default [] (head parts)
  else m.

Definition gradient (name : string) : jstring -> jstring :=
  replace_g noflags
    (seqs [lit name; chr "("; star ws; Group 1 (plus (Class true (chars ")"))); star ws; chr ")"])
    (Fn (fun m g =>
       js name ++ js "("
       ++ replace_g noflags (seqs [star ws; chr ","; star ws]) (Tpl (js ",")) (g 1%nat)
       ++ js ")")).

Definition minifyCSS (src : jstring) : jstring :=
  src
  |> replace_g noflags (seqs [lit "/*"; star_lazy any; lit "*/"]) (Tpl [])
  |> replace_g noflags (plus ws) (Tpl (js " "))
  |> replace_g noflags (seqs [star ws; Group 1 (Class false css_punct); star ws]) (Tpl (js "$1"))
  |> replace_g noflags (lit ";}") (Tpl (js "}"))
  |> replace_g noflags
       (seqs [WordBoundary; plus (chr "0"); Group 1 unit_alts; WordBoundary]) (Tpl (js "0"))
  |> replace_g noflags
       (seqs [WordBoundary; plus (chr "0"); chr "."; Group 1 (plus digit)]) (Tpl (js ".$1"))
  |> replace_g noflags
       (seqs [chr "#"; Group 1 hexdigit; Backref 1; Group 2 hexdigit; Backref 2;
              Group 3 hexdigit; Backref 3; WordBoundary])
       (Tpl (js "#$1$2$3"))
  |> replace_g noflags
       (seqs [lit "rgb("; star ws; Group 1 (plus digit); star ws; chr ","; star ws;
              Group 2 (plus digit); star ws; chr ","; star ws; Group 3 (plus digit);
              star ws; chr ")"])
       (Fn (fun m g => js "#" ++ toHex (g 1%nat) ++ toHex (g 2%nat) ++ toHex (g 3%nat)))
  |> replace_g noflags
       (seqs [lit "calc("; star ws; Group 1 (plus (Class true (chars ")"))); star ws; chr ")"])
       (Fn (fun m g =>
          js "calc(" ++ replace_g noflags (plus ws) (Tpl []) (g 1%nat) ++ js ")"))
  |> replace_g noflags
       (seqs [Group 1 quote_class;
              Group 2 (plus (Class false [rng "a" "z"; rng "A" "Z"; rng "0" "9";
                                          IChar (ch "-"); IChar (ch "_")]));
              Backref 1])
       (Fn (fun m g =>
          let val := g 2%nat in
          if test noflags
               (seqs [Bol; Class false [rng "a" "z"; rng "A" "Z"; IChar (ch "-"); IChar (ch "_")];
                      star (Class false [rng "a" "z"; rng "A" "Z"; rng "0" "9";
                                         IChar (ch "-"); IChar (ch "_")]);
                      Eol])
               val
          then val else m))
  |> replace_g noflags
       (seqs [Group 1 (plus (Class true (chars "{}"))); chr "{";
              Group 2 (star (Class true (chars "}"))); chr "}";
              Group 3 (plus (Class true (chars "{}"))); chr "{";
              Group 4 (star (Class true (chars "}"))); chr "}"])
       (Fn (fun m g =>
          if bool_decide (g 2%nat = g 4%nat)
          then g 1%nat ++ js "," ++ g 3%nat ++ js "{" ++ g 2%nat ++ js "}"
          else m))
  |> replace_g noflags
       (seqs [plus (Class true (chars "{}")); chr "{"; star ws; chr "}"]) (Tpl [])
  |> replace_g noflags
       (seqs [Group 1 (Alt (lit "margin") (lit "padding")); chr ":";
              Group 2 (plus (Class true (chars ";")))])
       (Fn shorthand)
  |> replace_g noflags
       (seqs [lit "border-radius:"; Group 1 (plus (Class true (chars ";")))])
       (Fn border_radius)
  |> replace_g noflags
       (seqs [lit "-webkit-";
              Group 1 (alts [lit "transform"; lit "transition"; lit "animation";
                             lit "box-shadow"; lit "border-radius"]);
              chr ":"])
       (Tpl (js "$1:"))
  |> replace_g noflags
       (seqs [lit "-moz-";
              Group 1 (alts [lit "transform"; lit "transition"; lit "animation";
                             lit "box-shadow"; lit "border-radius"]);
              chr ":"])
       (Tpl (js "$1:"))
  |> replace_g noflags
       (seqs [lit "-ms-";
              Group 1 (alts [lit "transform"; lit "transition"; lit "animation"]);
              chr ":"])
       (Tpl (js "$1:"))
  |> replace_g noflags
       (seqs [lit "translate("; star ws; Group 1 (plus (Class true (chars ","))); star ws;
              chr ","; star ws; Group 2 (plus (Class true (chars ")"))); star ws; chr ")"])
       (Tpl (js "translate($1,$2)"))
  |> replace_g noflags
       (seqs [lit "scale("; star ws; Group 1 (plus (Class true (chars ","))); star ws;
              chr ","; star ws; Group 2 (plus (Class true (chars ")"))); star ws; chr ")"])
       (Fn (fun m g =>
          let x := g 1%nat in
          let y := g 2%nat in
          if bool_decide (x = y) then js "scale(" ++ x ++ js ")"
          else js "scale(" ++ x ++ js "," ++ y ++ js ")"))
  |> replace_g noflags
       (seqs [lit "@media"; plus ws; Group 1 (plus (Class true (chars "{"))); star ws; chr "{"])
       (Tpl (js "@media $1{"))
  |> gradient "linear-gradient"
  |> gradient "radial-gradient"
  |> replace_g noflags (seqs [chr ","; plus ws]) (Tpl (js ","))
  |> replace_g noflags (seqs [chr ":"; plus ws]) (Tpl (js ":"))
  |> replace_g noflags (seqs [chr ";"; plus ws]) (Tpl (js ";"))
  |> replace_g noflags (seqs [chr "{"; plus ws]) (Tpl (js "{"))
  |> replace_g noflags (seqs [plus ws; chr "}"]) (Tpl (js "}"))
  |> replace_g noflags (seqs [chr ">"; plus ws]) (Tpl (js ">"))
  |> replace_g noflags (seqs [chr "+"; plus ws]) (Tpl (js "+"))
  |> replace_g noflags (seqs [chr "~"; plus ws]) (Tpl (js "~"))
  |> replace_g noflags (seqs [opt (Chr CR); Chr LF]) (Tpl [])
  |> trim.

Definition attr_name : regex := plus (Class false [IWord; IChar (ch "-")]).

Definition minifyHTML (src : jstring) : jstring :=
  src
  |> replace_g noflags
       (seqs [lit "<!--"; NegLookahead (lit "[if"); star_lazy any; lit "-->"]) (Tpl [])
  |> replace_g noflags (seqs [chr ">"; plus ws; chr "<"]) (Tpl (js "><"))
  |> replace_g noflags
       (seqs [chr ">"; plus ws; Group 1 (plus_lazy (Class true (chars "<"))); plus ws; chr "<"])
       (Tpl (js ">$1<"))
  |> replace_g flag_i
       (seqs [lit "<style"; star (Class true (chars ">")); chr ">";
              Group 1 (star_lazy any); lit "</style>"])
       (Fn (fun m g => let css := g 1%nat in replace_str css (minifyCSS css) m))
  |> replace_g noflags
       (seqs [plus ws; Group 1 attr_name; chr "="; quote_class;
              Group 2 (plus (Class true ([IChar dquote; IChar squote; ISpace] ++ chars "<>")));
              quote_class])
       (Fn (fun m g =>
          let attr := g 1%nat in
          let val := g 2%nat in
          if test noflags
               (seqs [Bol;
                      plus (Class false ([rng "a" "z"; rng "A" "Z"; rng "0" "9"] ++ chars "._:/-"));
                      Eol])
               val
          then js " " ++ attr ++ js "=" ++ val else m))
  |> replace_g noflags (seqs [star ws; chr "="; star ws]) (Tpl (js "="))
  |> replace_g noflags (seqs [plus ws; chr ">"]) (Tpl (js ">"))
  |> replace_g noflags (Rep 2 None true ws) (Tpl (js " "))
  |> replace_g noflags
       (seqs [chr "<"; Group 1 (plus (Class true (chars ">"))); plus ws; chr ">"])
       (Tpl (js "<$1>"))
  |> replace_g noflags (seqs [plus ws; attr_name; chr "="; quote_class; quote_class]) (Tpl [])
  |> replace_g noflags
       (seqs [plus ws; lit "type="; quote_class; lit "text/";
              Group 1 (Alt (lit "javascript") (lit "css")); quote_class])
       (Tpl [])
  |> replace_g noflags (seqs [opt (Chr CR); Chr LF]) (Tpl [])
  |> trim.

(** ** The scanning JS minifier *)

(** First pass: comments are dropped, string and template regions are
    copied.  [strQuote] is [None] for the empty string. *)
Record scan1 := mkScan1 {
  s_i : nat;
  s_out : jstring;
  s_inStr : bool;
  s_strQuote : option N;
  s_inTemplate : bool;
  s_escape : bool
}.

(** [while (i < n && !(src[i] === "*" && src[i + 1] === "/")) i++]:
    the number of increments, from the input left at [i]. *)
Fixpoint skip_block (rest : jstring) : nat :=
  match rest with
  | [] => 0
  | c :: t =>
      if (c =? ch "*") && bool_decide (head t = Some (ch "/")) then 0
      else S (skip_block t)
  end.

(** [while (i < n && src[i] !== "\n") i++] *)
Fixpoint skip_line (rest : jstring) : nat :=
  match rest with
  | [] => 0
  | c :: t => if c =? LF then 0 else S (skip_line t)
  end.

(** One iteration of the first [while] loop, entered with [i < n]. *)
Definition pass1_step (src : jstring) (st : scan1) : scan1 :=
  let i := s_i st in
  let c := default 0 (src !! i) in
  let next := src !! S i in
  if s_inStr st then
    let closes := negb (s_escape st) && bool_decide (Some c = s_strQuote st) in
    mkScan1 (S i) (s_out st ++ [c])
            (if closes then false else true)
            (if closes then None else s_strQuote st)
            (s_inTemplate st)
            (negb (s_escape st) && (c =? backslash))
  else if s_inTemplate st then
    let closes := negb (s_escape st) && (c =? backtick) in
    mkScan1 (S i) (s_out st ++ [c]) false (s_strQuote st)
            (if closes then false else true)
            (negb (s_escape st) && (c =? backslash))
  else if (c =? dquote) || (c =? squote) then
    mkScan1 (S i) (s_out st ++ [c]) true (Some c) false (s_escape st)
  else if c =? backtick then
    mkScan1 (S i) (s_out st ++ [c]) false (s_strQuote st) true (s_escape st)
  else if (c =? ch "/") && bool_decide (next = Some (ch "*")) then
    mkScan1 (i + 2 + skip_block (drop (i + 2) src) + 2) (s_out st)
            false (s_strQuote st) false (s_escape st)
  else if (c =? ch "/") && bool_decide (next = Some (ch "/")) then
    mkScan1 (i + 2 + skip_line (drop (i + 2) src)) (s_out st)
            false (s_strQuote st) false (s_escape st)
  else
    mkScan1 (S i) (s_out st ++ [c]) false (s_strQuote st) false (s_escape st).

(** [while (i < n) { ... }], at most [fuel] iterations. *)
Fixpoint pass1_loop (fuel : nat) (src : jstring) (st : scan1) : scan1 :=
  match fuel with
  | O => st
  | S fuel' =>
      if (s_i st <? length src)%nat then pass1_loop fuel' src (pass1_step src st)
      else st
  end.

Definition pass1_init : scan1 := mkScan1 0 [] false None false false.

Definition pass1 (src : jstring) : scan1 := pass1_loop (length src) src pass1_init.

(** Second pass: whitespace outside string and template regions. *)
Record scan2 := mkScan2 {
  t_j : nat;
  t_finalOut : jstring;
  t_inStr : bool;
  t_strQuote : option N;
  t_inTemplate : bool;
  t_escape : bool
}.

(** [while (k < out.length && /\s/.test(out[k])) k++] *)
Fixpoint skip_ws (rest : jstring) : nat :=
  match rest with
  | [] => 0
  | c :: t => if isSpace c then S (skip_ws t) else 0
  end.

(** [re.test(x)] where [x] is a character or [undefined]: the argument
    is converted to a string first. *)
Definition test_opt (r : regex) (x : option N) : bool :=
  test noflags r (match x with Some c => [c] | None => js "undefined" end).

Definition ident_class : regex :=
  Class false ([rng "a" "z"; rng "A" "Z"; rng "0" "9"] ++ chars "_$").

Definition js_punct : regex := Class false (chars "=;:,{}()<>+-*/?|&!").

(** [x === "return"] where [x] is a character or [undefined]. *)
Definition is_return (x : option N) : bool :=
  match x with
  | Some c => bool_decide ([c] = js "return")
  | None => false
  end.

(** One iteration of the [for] loop, entered with [j < out.length];
    the increment [j++] is included. *)
Definition pass2_step (out : jstring) (st : scan2) : scan2 :=
  let j := t_j st in
  let c := default 0 (out !! j) in
  let prev := last (t_finalOut st) in
  if t_inStr st then
    let closes := negb (t_escape st) && bool_decide (Some c = t_strQuote st) in
    mkScan2 (S j) (t_finalOut st ++ [c])
            (if closes then false else true)
            (if closes then None else t_strQuote st)
            (t_inTemplate st)
            (negb (t_escape st) && (c =? backslash))
  else if t_inTemplate st then
    let closes := negb (t_escape st) && (c =? backtick) in
    mkScan2 (S j) (t_finalOut st ++ [c]) false (t_strQuote st)
            (if closes then false else true)
            (negb (t_escape st) && (c =? backslash))
  else if (c =? dquote) || (c =? squote) then
    mkScan2 (S j) (t_finalOut st ++ [c]) true (Some c) false (t_escape st)
  else if c =? backtick then
    mkScan2 (S j) (t_finalOut st ++ [c]) false (t_strQuote st) true (t_escape st)
  else if test noflags ws [c] then
    let k := (j + 1 + skip_ws (drop (j + 1) out))%nat in
    let nxt := out !! k in
    let keep :=
      (test_opt ident_class prev && test_opt ident_class nxt)
      || (is_return prev
          && test_opt (Class false ([rng "a" "z"; rng "A" "Z"; rng "0" "9"]
                                    ++ chars "_$" ++ [IChar dquote])) nxt) in
    mkScan2 (S (k - 1))
            (if keep then t_finalOut st ++ js " " else t_finalOut st)
            false (t_strQuote st) false (t_escape st)
  else
    let fo :=
      if test noflags js_punct [c] && endsWith (js " ") (t_finalOut st)
      then take (length (t_finalOut st) - 1) (t_finalOut st)
      else t_finalOut st in
    mkScan2 (S j) (fo ++ [c]) false (t_strQuote st) false (t_escape st).

Fixpoint pass2_loop (fuel : nat) (out : jstring) (st : scan2) : scan2 :=
  match fuel with
  | O => st
  | S fuel' =>
      if (t_j st <? length out)%nat then pass2_loop fuel' out (pass2_step out st)
      else st
  end.

Definition pass2_init : scan2 := mkScan2 0 [] false None false false.

Definition pass2 (out : jstring) : scan2 := pass2_loop (length out) out pass2_init.

(** The rewrites applied to [finalOut] before it is returned. *)
Definition rewrites (finalOut : jstring) : jstring :=
  finalOut
  |> replace_g noflags (seqs [opt (Chr CR); Chr LF]) (Tpl [])
  |> replace_g noflags (lit ";}") (Tpl (js "}"))
  |> replace_g noflags (lit "===true") (Tpl [])
  |> replace_g noflags (lit "!==false") (Tpl [])
  |> replace_g noflags (lit "==true") (Tpl [])
  |> replace_g noflags (lit "!=false") (Tpl [])
  |> replace_g noflags
       (seqs [chr "["; Chr dquote;
              Group 1 (Seq (Class false ([rng "a" "z"; rng "A" "Z"] ++ chars "_$"))
                           (star (Class false ([rng "a" "z"; rng "A" "Z"; rng "0" "9"]
                                               ++ chars "_$"))));
              Chr dquote; chr "]"])
       (Tpl (js ".$1"))
  |> trim.

Definition minifyJS (src : jstring) : jstring :=
  let out := s_out (pass1 src) in
  let finalOut := t_finalOut (pass2 out) in
  rewrites finalOut.

(** ** Hashing, policy synthesis, build and serving *)

Section Pipeline.
Context `{Libs}.
Variable ROOT : jstring.

Definition calculateHash (content : jstring) : jstring := sha256_base64 content.

Definition not_gt : regex := Class true (chars ">").

Definition script_block : regex :=
  seqs [lit "<script"; NegLookahead (Seq (star not_gt) (lit "src=")); star not_gt; chr ">";
        Group 1 (star_lazy any); lit "</script>"].

Definition style_block : regex :=
  seqs [lit "<style"; star not_gt; chr ">"; Group 1 (star_lazy any); lit "</style>"].

Definition sha256_token (hash : jstring) : jstring :=
  [squote] ++ js "sha256-" ++ hash ++ [squote].

Definition add_hash (strip : regex) (acc : list jstring) (m : jstring) : list jstring :=
  let content := trim (replace_g flag_i strip (Tpl []) m) in
  if bool_decide (content = []) then acc
  else set_add (sha256_token (calculateHash content)) acc.

(** Both sets are cleared first, so the result depends on [html] only. *)
Definition extractInlineContent (html : jstring) : cspHashes :=
  let scriptMatches := match_g flag_i script_block html in
  let styleMatches := match_g flag_i style_block html in
  {| scripts :=
       fold_left
         (add_hash (Alt (seqs [lit "<script"; star not_gt; chr ">"]) (lit "</script>")))
         scriptMatches [];
     styles :=
       fold_left
         (add_hash (Alt (seqs [lit "<style"; star not_gt; chr ">"]) (lit "</style>")))
         styleMatches [] |}.

Definition self : jstring := [squote] ++ js "self" ++ [squote].
Definition none : jstring := [squote] ++ js "none" ++ [squote].
Definition unsafe_inline : jstring := [squote] ++ js "unsafe-inline" ++ [squote].

Definition source_list (sources : list jstring) : jstring :=
  let src := self in
  let src := if (0 <? length sources)%nat then src ++ js " " ++ join (js " ") sources else src in
  let src := if Nat.eqb (length sources) 0 then src ++ js " " ++ unsafe_inline else src in
  src.

Definition generateCSP (h : cspHashes) : jstring :=
  let scriptSrc := source_list (scripts h) in
  let styleSrc := source_list (styles h) in
  join (js "; ")
    [ js "default-src " ++ self;
      js "script-src " ++ scriptSrc;
      js "style-src " ++ styleSrc;
      js "img-src " ++ self ++ js " data: https:";
      js "font-src " ++ self;
      js "connect-src " ++ self;
      js "media-src " ++ self;
      js "object-src " ++ none;
      js "child-src " ++ none;
      js "worker-src " ++ none;
      js "frame-ancestors " ++ none;
      js "form-action " ++ self;
      js "base-uri " ++ self;
      js "manifest-src " ++ self ].

Definition contentTypeFor (fp : jstring) : jstring :=
  let ext := toLowerCase (extname fp) in
  if bool_decide (ext = js ".html") then js "text/html; charset=utf-8"
  else if bool_decide (ext = js ".css") then js "text/css; charset=utf-8"
  else if bool_decide (ext = js ".js") then js "application/javascript; charset=utf-8"
  else if bool_decide (ext = js ".webp") then js "image/webp"
  else if bool_decide (ext = js ".xml") then js "application/xml; charset=utf-8"
  else if bool_decide (ext = js ".txt") then js "text/plain; charset=utf-8"
  else js "application/octet-stream".

Definition cacheControlFor (fp : jstring) : jstring :=
  let ext := toLowerCase (extname fp) in
  if bool_decide (ext = js ".html") then js "no-cache"
  else if bool_decide (ext = js ".css") || bool_decide (ext = js ".js")
  then js "public, max-age=31536000, immutable"
  else if bool_decide (ext = js ".webp") then js "public, max-age=31536000, immutable"
  else if bool_decide (ext = js ".xml") || bool_decide (ext = js ".txt")
  then js "public, max-age=3600"
  else js "public, max-age=3600".

(** The loop of [etag]: [h ^= buf[i]; h = Math.imul(h, 16777619)]. *)
Definition etag_step (h : Z) (b : byte) : Z :=
  imul (xor32 h (Z.of_N (Byte.to_N b))) 16777619.

Definition etag_hash (buf : buffer) : Z :=
  toUint32 (fold_left etag_step buf (toUint32 2166136261)).

Definition etag (buf : buffer) : jstring :=
  js "W/" ++ [dquote] ++ toString16 (Z.to_N (etag_hash buf)) ++ js "-"
  ++ toString10 (N.of_nat (length buf)) ++ [dquote].

Record compressed := mkCompressed {
  c_raw : buffer;
  c_br : option buffer;
  c_gz : option buffer
}.

Definition preCompress (buf : buffer) : compressed :=
  match brotliCompress 11 buf with
  | BrCallback br =>
      mkCompressed buf br (gzip (mkGzipOptions 9 (Some 15) (Some 9)) buf)
  | BrThrows =>
      mkCompressed buf None (gzip (mkGzipOptions 9 None None) buf)
  end.

(** The module-level state: [cspHashes] and [files]. *)
Record state := mkState { st_csp : cspHashes; st_files : table }.

Definition init_state : state := mkState (mkCspHashes [] []) ∅.

Definition public_path (relPath : jstring) : jstring :=
  js "/" ++ replace_g noflags (Chr backslash) (Tpl (js "/")) relPath.

(** [loadAndMinify]: [None] when the promise is rejected. *)
Definition loadAndMinify (fs : filesystem) (relPath : jstring)
    (minify : option (jstring -> jstring)) (st : state) : option state :=
  let abs := path_join ROOT relPath in
  src ← readFile fs abs;
  let originalContent := utf8_decode src in
  let csp :=
    if bool_decide (relPath = js "index.html")
    then extractInlineContent originalContent else st_csp st in
  let body :=
    match minify with
    | Some f => utf8_encode (f originalContent)
    | None => src
    end in
  let compressed := preCompress body in
  mtimeMs ← stat_mtimeMs fs abs;
  let entry :=
    {| e_path := Some relPath;
       e_mtimeMs := Some mtimeMs;
       e_type := contentTypeFor relPath;
       e_cache := cacheControlFor relPath;
       e_body := body;
       e_etag := etag body;
       e_br := c_br compressed;
       e_brEtag := etag <$> c_br compressed;
       e_gz := c_gz compressed;
       e_gzEtag := etag <$> c_gz compressed |} in
  Some (mkState csp (<[public_path relPath := Asset entry]> (st_files st))).

Definition static_assets : list jstring :=
  [js "favicon.webp"; js "profile.webp"; js "robots.txt"; js "sitemap.xml"].

Fixpoint load_static (fs : filesystem) (l : list jstring) (st : state) : option state :=
  match l with
  | [] => Some st
  | f :: l' =>
      if existsSync fs (path_join ROOT f)
      then st' ← loadAndMinify fs f None st; load_static fs l' st'
      else load_static fs l' st
  end.

(** [build]: [None] when it is rejected, which [start] turns into
    [process.exit(1)]. *)
Definition build (fs : filesystem) : option state :=
  st ← loadAndMinify fs (js "index.html") (Some minifyHTML) init_state;
  st ← loadAndMinify fs (js "style.css") (Some minifyCSS) st;
  st ← loadAndMinify fs (js "script.js") (Some minifyJS) st;
  st ← load_static fs static_assets st;
  let cspPolicy := generateCSP (st_csp st) in
  Some (mkState (st_csp st) (<[js "__csp__" := Policy cspPolicy]> (st_files st))).

Definition setSecurityHeaders (files : table) (h : gmap jstring jstring)
  : gmap jstring jstring :=
  let h := security_headers h in
  match files !! js "__csp__" with
  | Some (Policy cspPolicy) =>
      if bool_decide (cspPolicy = []) then h
      else setHeader "Content-Security-Policy" cspPolicy h
  | _ => h
  end.

Definition br_token : regex := seqs [WordBoundary; lit "br"; WordBoundary].
Definition gzip_token : regex := seqs [WordBoundary; lit "gzip"; WordBoundary].

Definition negotiateEncoding (req : request) : bool * bool :=
  let ae := default [] (r_accept_encoding req) in
  (test noflags br_token ae, test noflags gzip_token ae).

(** [serveEntry]: [None] when [setHeader] throws on an undefined tag. *)
Definition serveEntry (files : table) (req : request) (entry : entry) : option response :=
  let h := setSecurityHeaders files ∅ in
  let h := setHeader "Content-Type" (e_type entry) h in
  let h := setHeader "Cache-Control" (e_cache entry) h in
  let h := setHeader "Vary" (js "Accept-Encoding") h in
  let enc := negotiateEncoding req in
  let '(body, tag, h) :=
    match (if enc.1 then e_br entry else None) with
    | Some br => (br, e_brEtag entry, setHeader "Content-Encoding" (js "br") h)
    | None =>
        match (if enc.2 then e_gz entry else None) with
        | Some gz => (gz, e_gzEtag entry, setHeader "Content-Encoding" (js "gzip") h)
        | None => (e_body entry, Some (e_etag entry), h)
        end
    end in
  tag ← tag;
  let h := setHeader "ETag" tag h in
  if bool_decide (r_if_none_match req = Some tag)
  then Some (mkResponse 304 h [])
  else Some (mkResponse 200 h body).

Definition notFound (files : table) : response :=
  mkResponse 404
    (setHeader "Content-Type" (js "text/plain; charset=utf-8") (setSecurityHeaders files ∅))
    (utf8_encode (js "404 Not Found")).

(** [handler]: [None] when it throws. *)
Definition handler (fs : filesystem) (files : table) (req : request) : option response :=
  let pathname :=
    if bool_decide (r_pathname req = js "/") then js "/index.html" else r_pathname req in
  match files !! pathname with
  | Some (Asset entry) => serveEntry files req entry
  | Some (Policy _) => None
  | None =>
      let fallback := path_join ROOT pathname in
      if existsSync fs fallback && isFile fs fallback then
        raw ← readFile fs fallback;
        serveEntry files req
          {| e_path := None; e_mtimeMs := None;
             e_type := contentTypeFor fallback;
             e_cache := cacheControlFor fallback;
             e_body := raw; e_etag := etag raw;
             e_br := None; e_brEtag := None; e_gz := None; e_gzEtag := None |}
      else Some (notFound files)
  end.

End Pipeline.

Section Incoming.
Context `{Libs} `{Url}.
Variable ROOT : jstring.

(** [handler] from the request as Node hands it over, the construction
    of the URL included: [None] when it throws. *)
Definition handler_req (fs : filesystem) (files : table) (q : incoming)
  : option response :=
  pathname ← url_pathname (i_url q) (url_base q);
  handler ROOT fs files (mkRequest pathname (i_accept_encoding q) (i_if_none_match q)).

End Incoming.

End Server.

(* ===================================================================== *)
(** * The AssetProcessor variant: the text minifiers *)
(* ===================================================================== *)

Module AssetProcessor.

Definition hex (n : jstring) : jstring :=
  padStart 2 (ch "0") (numToString16 (parseInt n)).

Definition minifyCSS (src : jstring) : jstring :=
  src
  |> replace_g noflags (seqs [lit "/*"; star_lazy any; lit "*/"]) (Tpl [])
  |> replace_g noflags (plus ws) (Tpl (js " "))
  |> replace_g noflags
       (seqs [star ws; Group 1 (Class false Server.css_punct); star ws]) (Tpl (js "$1"))
  |> replace_g noflags (lit ";}") (Tpl (js "}"))
  |> replace_g noflags
       (seqs [WordBoundary; plus (chr "0"); Group 1 Server.unit_alts; WordBoundary])
       (Tpl (js "0"))
  |> replace_g noflags
       (seqs [chr "#"; Group 1 Server.hexdigit; Backref 1; Group 2 Server.hexdigit; Backref 2;
              Group 3 Server.hexdigit; Backref 3; WordBoundary])
       (Tpl (js "#$1$2$3"))
  |> replace_g noflags
       (seqs [lit "rgb("; star ws; Group 1 (plus Server.digit); star ws; chr ","; star ws;
              Group 2 (plus Server.digit); star ws; chr ","; star ws;
              Group 3 (plus Server.digit); star ws; chr ")"])
       (Fn (fun m g => js "#" ++ hex (g 1%nat) ++ hex (g 2%nat) ++ hex (g 3%nat)))
  |> replace_g noflags (seqs [chr ","; plus ws]) (Tpl (js ","))
  |> replace_g noflags (seqs [chr ":"; plus ws]) (Tpl (js ":"))
  |> replace_g noflags (seqs [chr ";"; plus ws]) (Tpl (js ";"))
  |> replace_g noflags (seqs [chr "{"; plus ws]) (Tpl (js "{"))
  |> replace_g noflags (seqs [plus ws; chr "}"]) (Tpl (js "}"))
  |> replace_g noflags (seqs [opt (Chr CR); Chr LF]) (Tpl [])
  |> trim.

Definition minifyHTML (src : jstring) : jstring :=
  src
  |> replace_g noflags
       (seqs [lit "<!--"; NegLookahead (lit "[if"); star_lazy any; lit "-->"]) (Tpl [])
  |> replace_g noflags (seqs [chr ">"; plus ws; chr "<"]) (Tpl (js "><"))
  |> replace_g noflags
       (seqs [chr ">"; plus ws; Group 1 (plus_lazy (Class true (chars "<"))); plus ws; chr "<"])
       (Tpl (js ">$1<"))
  |> replace_g flag_i
       (seqs [lit "<style"; star (Class true (chars ">")); chr ">";
              Group 1 (star_lazy any); lit "</style>"])
       (Fn (fun m g => let css := g 1%nat in replace_str css (minifyCSS css) m))
  |> replace_g noflags
       (seqs [plus ws; Group 1 Server.attr_name; chr "="; Server.quote_class;
              Group 2 (plus (Class true ([IChar dquote; IChar squote; ISpace] ++ chars "<>")));
              Server.quote_class])
       (Fn (fun m g =>
          let attr := g 1%nat in
          let val := g 2%nat in
          if test noflags
               (seqs [Bol;
                      plus (Class false ([rng "a" "z"; rng "A" "Z"; rng "0" "9"] ++ chars "._:/-"));
                      Eol])
               val
          then js " " ++ attr ++ js "=" ++ val else m))
  |> replace_g noflags (seqs [star ws; chr "="; star ws]) (Tpl (js "="))
  |> replace_g noflags (seqs [plus ws; chr ">"]) (Tpl (js ">"))
  |> replace_g noflags (Rep 2 None true ws) (Tpl (js " "))
  |> replace_g noflags
       (seqs [plus ws; lit "type="; Server.quote_class; lit "text/";
              Group 1 (Alt (lit "javascript") (lit "css")); Server.quote_class])
       (Tpl [])
  |> replace_g noflags (seqs [opt (Chr CR); Chr LF]) (Tpl [])
  |> trim.

(** ** The placeholder JS minifier *)

Definition string_literal : regex :=
  seqs [Group 1 (Class false [IChar dquote; IChar squote; IChar backtick]);
        Group 2 (star_lazy (Alt (Seq (Chr backslash) Dot)
                                (Seq (NegLookahead (Backref 1))
                                     (Class true [IChar backslash]))));
        Backref 1].

Definition placeholder (stringIndex : nat) : jstring :=
  js "__STRING_" ++ toString10 (N.of_nat stringIndex) ++ js "__".

(** The entries pushed on [preserveStrings], in call order. *)
Definition preserveStrings (src : jstring) : list (jstring * jstring) :=
  imap (fun i original => (placeholder i, original)) (match_g noflags string_literal src).

Definition minifyJS (src : jstring) : jstring :=
  let out := replace_g noflags string_literal (FnCount (fun i _ => placeholder i)) src in
  let out :=
    out
    |> replace_g noflags (seqs [lit "/*"; star_lazy any; lit "*/"]) (Tpl [])
    |> replace_g flag_m (seqs [lit "//"; star Dot; Eol]) (Tpl []) in
  let out :=
    out
    |> replace_g noflags (plus ws) (Tpl (js " "))
    |> replace_g noflags
         (seqs [star ws; Group 1 Server.js_punct; star ws]) (Tpl (js "$1"))
    |> replace_g noflags (lit ";}") (Tpl (js "}"))
    |> trim in
  fold_left (fun out '(ph, original) => replace_str ph original out)
            (preserveStrings src) out.

(** ** Hashing, policy synthesis, build and serving *)

Section Pipeline.
Context `{Libs}.
Variable ROOT : jstring.

Definition hash (content : jstring) : jstring := sha256_base64 content.

Definition etag_step (h : Z) (b : byte) : Z :=
  imul (xor32 h (Z.of_N (Byte.to_N b))) 16777619.

Definition etag_hash (buf : buffer) : Z :=
  toUint32 (fold_left etag_step buf (toUint32 2166136261)).

Definition etag (buf : buffer) : jstring :=
  js "W/" ++ [dquote] ++ toString16 (Z.to_N (etag_hash buf)) ++ js "-"
  ++ toString10 (N.of_nat (length buf)) ++ [dquote].

(** [compress]: a synchronous throw of [brotliCompress] rejects the
    first promise, [Promise.all] rejects, and the empty [catch] leaves
    [result] with [raw] only. *)
Definition compress (buf : buffer) : Server.compressed :=
  match brotliCompress 6 buf with
  | BrCallback br =>
      Server.mkCompressed buf br (gzip (mkGzipOptions 9 None None) buf)
  | BrThrows => Server.mkCompressed buf None None
  end.

Definition add_hash (tag : string) (acc : list jstring) (m : jstring) : list jstring :=
  let strip := seqs [chr "<"; opt (chr "/"); lit tag; star Server.not_gt; chr ">"] in
  let content := trim (replace_g flag_i strip (Tpl []) m) in
  if bool_decide (content = []) then acc else set_add (hash content) acc.

Definition extractCSPHashes (html : jstring) : cspHashes :=
  {| scripts := fold_left (add_hash "script") (match_g flag_i Server.script_block html) [];
     styles := fold_left (add_hash "style") (match_g flag_i Server.style_block html) [] |}.

Definition generateCSP (h : cspHashes) : jstring :=
  let scriptHashes := map Server.sha256_token (scripts h) in
  let styleHashes := map Server.sha256_token (styles h) in
  let scriptSrc :=
    Server.self ++ (if (0 <? length scriptHashes)%nat
                    then js " " ++ join (js " ") scriptHashes else []) in
  let styleSrc :=
    Server.self ++ (if (0 <? length styleHashes)%nat
                    then js " " ++ join (js " ") styleHashes
                    else js " " ++ Server.unsafe_inline) in
  join (js "; ")
    [ js "default-src " ++ Server.self;
      js "script-src " ++ scriptSrc;
      js "script-src-elem " ++ scriptSrc;
      js "style-src " ++ styleSrc;
      js "style-src-elem " ++ styleSrc;
      js "img-src " ++ Server.self ++ js " https: data:";
      js "font-src " ++ Server.self;
      js "connect-src " ++ Server.self;
      js "media-src " ++ Server.self ++ js " data:";
      js "object-src " ++ Server.none;
      js "child-src " ++ Server.none;
      js "worker-src " ++ Server.none;
      js "frame-ancestors " ++ Server.none;
      js "form-action " ++ Server.self;
      js "base-uri " ++ Server.self;
      js "manifest-src " ++ Server.self;
      js "upgrade-insecure-requests" ].

Definition getContentType (filePath : jstring) : jstring :=
  let ext := toLowerCase (extname filePath) in
  if bool_decide (ext = js ".html") then js "text/html; charset=utf-8"
  else if bool_decide (ext = js ".css") then js "text/css; charset=utf-8"
  else if bool_decide (ext = js ".js") then js "application/javascript; charset=utf-8"
  else if bool_decide (ext = js ".webp") then js "image/webp"
  else if bool_decide (ext = js ".xml") then js "application/xml; charset=utf-8"
  else if bool_decide (ext = js ".txt") then js "text/plain; charset=utf-8"
  else js "application/octet-stream".

Definition getCacheControl (filePath : jstring) : jstring :=
  let ext := toLowerCase (extname filePath) in
  if bool_decide (ext = js ".html") then js "no-cache"
  else if bool_decide (ext ∈ [js ".css"; js ".js"; js ".webp"])
  then js "public, max-age=31536000, immutable"
  else js "public, max-age=3600".

Definition link_style : regex :=
  seqs [lit "<link"; star Server.not_gt; lit "href="; Server.quote_class; lit "style.css";
        Server.quote_class; star Server.not_gt; chr ">"].

Definition script_src : regex :=
  seqs [lit "<script"; star Server.not_gt; lit "src="; Server.quote_class; lit "script.js";
        Server.quote_class; star Server.not_gt; lit "></script>"].

(** The inlining of the stylesheet and the script into the HTML entry;
    [None] when a read of a file that exists is rejected. *)
Definition inline_assets (fs : filesystem) (htmlContent : jstring) : option jstring :=
  let cssPath := path_join ROOT (js "style.css") in
  htmlContent ←
    (if existsSync fs cssPath then
       cssContent ← utf8_decode <$> readFile fs cssPath;
       Some (replace_g flag_i link_style
               (Tpl (js "<style>" ++ minifyCSS cssContent ++ js "</style>")) htmlContent)
     else Some htmlContent);
  let jsPath := path_join ROOT (js "script.js") in
  if existsSync fs jsPath then
    jsContent ← utf8_decode <$> readFile fs jsPath;
    Some (replace_g flag_i script_src
            (Tpl (js "<script>" ++ minifyJS jsContent ++ js "</script>")) htmlContent)
  else Some htmlContent.

(** [processFile]: the entry and the hash sets after the call; [None]
    when the promise is rejected. *)
Definition processFile (fs : filesystem) (relPath : jstring)
    (minifier : option (jstring -> jstring)) (csp : cspHashes)
  : option (entry * cspHashes) :=
  let absPath := path_join ROOT relPath in
  content ← readFile fs absPath;
  mtimeMs ← stat_mtimeMs fs absPath;
  '(processedContent, csp) ←
    (if bool_decide (relPath = js "index.html") then
       htmlContent ← inline_assets fs (utf8_decode content);
       let htmlContent :=
         match minifier with
         | Some f => f htmlContent
         | None => htmlContent
         end in
       Some (utf8_encode htmlContent, extractCSPHashes htmlContent)
     else
       match minifier with
       | Some f => Some (utf8_encode (f (utf8_decode content)), csp)
       | None => Some (content, csp)
       end);
  let compressed := compress processedContent in
  Some ({| e_path := Some (Server.public_path relPath);
           e_mtimeMs := Some mtimeMs;
           e_type := getContentType relPath;
           e_cache := getCacheControl relPath;
           e_body := processedContent;
           e_etag := etag processedContent;
           e_br := Server.c_br compressed;
           e_brEtag := etag <$> Server.c_br compressed;
           e_gz := Server.c_gz compressed;
           e_gzEtag := etag <$> Server.c_gz compressed |}, csp).

Definition tasks : list (jstring * option (jstring -> jstring)) :=
  [ (js "index.html", Some minifyHTML);
    (js "style.css", Some minifyCSS);
    (js "script.js", Some minifyJS);
    (js "favicon.webp", None);
    (js "profile.webp", None);
    (js "robots.txt", None);
    (js "sitemap.xml", None) ].

(** The object state: [this.cspHashes] and [this.files]. *)
Record state := mkState { st_csp : cspHashes; st_files : table }.

Definition init_state : state := mkState (mkCspHashes [] []) ∅.

(** One task of [build].  A rejected task changes nothing:
    [Promise.allSettled] only records the rejection. *)
Definition run_task (fs : filesystem) (st : state)
    (task : jstring * option (jstring -> jstring)) : state :=
  let '(file, minifier) := task in
  if existsSync fs (path_join ROOT file) then
    match processFile fs file minifier (st_csp st) with
    | Some (entry, csp) =>
        mkState csp (<[default [] (e_path entry) := Asset entry]> (st_files st))
    | None => st
    end
  else st.

(** [build].  The tasks run interleaved, but they write distinct keys
    of [files], only the [index.html] task writes [cspHashes], and the
    file system is only read: any order gives the state computed here. *)
Definition build (fs : filesystem) : state :=
  let st := fold_left (run_task fs) tasks init_state in
  mkState (st_csp st) (<[js "__csp__" := Policy (generateCSP (st_csp st))]> (st_files st)).

Definition setSecurityHeaders (files : table) (h : gmap jstring jstring)
  : gmap jstring jstring :=
  let h := security_headers h in
  match files !! js "__csp__" with
  | Some (Policy csp) =>
      if bool_decide (csp = []) then h else setHeader "Content-Security-Policy" csp h
  | _ => h
  end.

(** [serveFile]: [None] when [setHeader] throws on an undefined tag. *)
Definition serveFile (files : table) (req : request) (entry : entry) : option response :=
  let h := setSecurityHeaders files ∅ in
  let h := setHeader "Content-Type" (e_type entry) h in
  let h := setHeader "Cache-Control" (e_cache entry) h in
  let h := setHeader "Vary" (js "Accept-Encoding") h in
  let acceptEncoding := default [] (r_accept_encoding req) in
  let '(body, tag, h) :=
    match (if test noflags Server.br_token acceptEncoding then e_br entry else None) with
    | Some br => (br, e_brEtag entry, setHeader "Content-Encoding" (js "br") h)
    | None =>
        match (if test noflags Server.gzip_token acceptEncoding then e_gz entry else None) with
        | Some gz => (gz, e_gzEtag entry, setHeader "Content-Encoding" (js "gzip") h)
        | None => (e_body entry, Some (e_etag entry), h)
        end
    end in
  tag ← tag;
  let h := setHeader "ETag" tag h in
  if bool_decide (r_if_none_match req = Some tag)
  then Some (mkResponse 304 h [])
  else Some (mkResponse 200 h body).

(** [handleRequest]: [None] when it throws. *)
Definition handleRequest (fs : filesystem) (files : table) (req : request)
  : option response :=
  let pathname :=
    if bool_decide (r_pathname req = js "/") then js "/index.html" else r_pathname req in
  match files !! pathname with
  | Some (Asset entry) => serveFile files req entry
  | Some (Policy _) => None
  | None =>
      let fallbackPath := path_join ROOT pathname in
      if existsSync fs fallbackPath && isFile fs fallbackPath then
        content ← readFile fs fallbackPath;
        serveFile files req
          {| e_path := None; e_mtimeMs := None;
             e_type := getContentType fallbackPath;
             e_cache := getCacheControl fallbackPath;
             e_body := content; e_etag := etag content;
             e_br := None; e_brEtag := None; e_gz := None; e_gzEtag := None |}
      else
        Some (mkResponse 404
                (setHeader "Content-Type" (js "text/plain; charset=utf-8")
                   (setSecurityHeaders files ∅))
                (utf8_encode (js "404 Not Found")))
  end.

End Pipeline.

Section Incoming.
Context `{Libs} `{Url}.
Variable ROOT : jstring.

(** [handleRequest] from the request as Node hands it over, the
    construction of the URL included: [None] when it throws. *)
Definition handleRequest_req (fs : filesystem) (files : table) (q : incoming)
  : option response :=
  pathname ← url_pathname (i_url q) (url_base q);
  handleRequest ROOT fs files
    (mkRequest pathname (i_accept_encoding q) (i_if_none_match q)).

End Incoming.

End AssetProcessor.

(* ===================================================================== *)
(** * Reference definitions, in the words of the specification *)
(* ===================================================================== *)

Module Spec.

(** FNV-1a on 32 bits: seed [0x811c9dc5], each byte XOR-folded into the
    hash, which is then multiplied by [0x01000193], everything in
    unsigned 32-bit arithmetic. *)
Definition fnv_step (h : N) (b : byte) : N :=
  (N.lxor h (Byte.to_N b) * 0x01000193) mod 2 ^ 32.

Definition fnv1a32 (buf : buffer) : N := fold_left fnv_step buf 0x811c9dc5.

(** The value of a digit character, and of a numeral, in a base. *)
Definition digit_value (c : N) : N :=
  if isDigit c then c - 48 else c - 87.

Definition numeral_value (base : N) (s : jstring) : N :=
  fold_left (fun acc c => base * acc + digit_value c) s 0.

Definition is_hex_digit (c : N) : bool :=
  isDigit c || ((97 <=? c) && (c <=? 102)).

(** The weak validator with the checksum as exactly eight hexadecimal
    digits. *)
Definition etag8 (buf : buffer) : jstring :=
  js "W/" ++ [dquote] ++ padStart 8 (ch "0") (toString16 (fnv1a32 buf)) ++ js "-"
  ++ toString10 (N.of_nat (length buf)) ++ [dquote].

(** Tag/body coherence of an asset: each tag is the validator of the
    bytes of its own variant. *)
Definition coherent (tag_of : buffer -> jstring) (e : entry) : Prop :=
  e_etag e = tag_of (e_body e)
  /\ e_brEtag e = tag_of <$> e_br e
  /\ e_gzEtag e = tag_of <$> e_gz e.

Definition table_coherent (tag_of : buffer -> jstring) (t : table) : Prop :=
  map_Forall (fun _ v => match v with Asset e => coherent tag_of e | Policy _ => True end) t.

(** Encoding negotiation: Brotli before Gzip before the uncompressed
    body, and only an encoding the entry has. *)
Inductive encoding := Brotli | Gzip | Identity.

Definition negotiate (acceptsBr acceptsGzip : bool) (e : entry) : encoding :=
  if acceptsBr && bool_decide (is_Some (e_br e)) then Brotli
  else if acceptsGzip && bool_decide (is_Some (e_gz e)) then Gzip
  else Identity.

Definition variant_body (e : entry) (enc : encoding) : buffer :=
  match enc with
  | Brotli => default [] (e_br e)
  | Gzip => default [] (e_gz e)
  | Identity => e_body e
  end.

Definition variant_tag (e : entry) (enc : encoding) : option jstring :=
  match enc with
  | Brotli => e_brEtag e
  | Gzip => e_gzEtag e
  | Identity => Some (e_etag e)
  end.

Definition content_encoding (enc : encoding) : option jstring :=
  match enc with
  | Brotli => Some (js "br")
  | Gzip => Some (js "gzip")
  | Identity => None
  end.

(** The headers of a served entry before the tag is set. *)
Definition base_headers (files : table) (e : entry) : gmap jstring jstring :=
  Server.setSecurityHeaders files ∅
  |> setHeader "Content-Type" (e_type e)
  |> setHeader "Cache-Control" (e_cache e)
  |> setHeader "Vary" (js "Accept-Encoding").

Definition with_encoding (enc : encoding) (h : gmap jstring jstring)
  : gmap jstring jstring :=
  match content_encoding enc with
  | Some v => setHeader "Content-Encoding" v h
  | None => h
  end.

(** Plain text: ASCII letters only. *)
Definition letters (s : jstring) : Prop := Forall (fun c => isAlpha c = true) s.

(** A class item that no ASCII letter matches. *)
Definition item_no_letter (it : citem) : bool :=
  match it with
  | IChar c => negb (isAlpha c)
  | IRange lo hi => (hi <? 65) || (122 <? lo) || ((90 <? lo) && (hi <? 97))
  | ISpace | IDigit => true
  | INotSpace | IWord => false
  end.

(** A sufficient condition for a pattern to match nowhere in plain
    text: each of its matches has to consume a code unit that is not an
    ASCII letter. *)
Fixpoint needs_other (r : regex) : bool :=
  match r with
  | Chr c => negb (isAlpha c)
  | Class false items => forallb item_no_letter items
  | Seq a b => needs_other a || needs_other b
  | Alt a b => needs_other a && needs_other b
  | Rep mn mx _ a =>
      negb (Nat.eqb mn 0) && negb (bool_decide (mx = Some 0%nat)) && needs_other a
  | Group _ a => needs_other a
  | _ => false
  end.

(** The files [build] of [server.js] loads without a presence check,
    each with its minifier. *)
Definition core_files : list (jstring * (jstring -> jstring)) :=
  [ (js "index.html", Server.minifyHTML);
    (js "style.css", Server.minifyCSS);
    (js "script.js", Server.minifyJS) ].

(** A continuation that fails wherever only plain text is left. *)
Definition dead (k : kont) : Prop :=
  forall y cs, letters (p_rest y) -> k y cs = None.

(** The big-step reading of the two scanning loops of [minifyJS]: the
    loop started in the first state stops in the second. *)
Inductive while1 (src : jstring) : Server.scan1 -> Server.scan1 -> Prop :=
| while1_exit st :
    (length src <= Server.s_i st)%nat -> while1 src st st
| while1_iter st st' :
    (Server.s_i st < length src)%nat ->
    while1 src (Server.pass1_step src st) st' -> while1 src st st'.

Inductive while2 (out : jstring) : Server.scan2 -> Server.scan2 -> Prop :=
| while2_exit st :
    (length out <= Server.t_j st)%nat -> while2 out st st
| while2_iter st st' :
    (Server.t_j st < length out)%nat ->
    while2 out (Server.pass2_step out st) st' -> while2 out st st'.

(** ** What a request accepts *)

(** The pieces of [s] between the occurrences of [sep]. *)
Definition split_at (sep : N) (s : jstring) : list jstring :=
  fold_right (fun c acc =>
                if c =? sep then [] :: acc
                else match acc with
                     | h :: t => (c :: h) :: t
                     | [] => [[c]]
                     end) [[]] s.

Fixpoint drop_ows (s : jstring) : jstring :=
  match s with
  | c :: t => if (c =? 32) || (c =? 9) then drop_ows t else s
  | [] => []
  end.

(** Optional white space (space, tab) removed at both ends. *)
Definition strip_ows (s : jstring) : jstring := rev (drop_ows (rev (drop_ows s))).

(** A weight that is zero: [0] with at most three zeros after the
    point. *)
Definition zero_weight (v : jstring) : bool :=
  match v with
  | c :: rest =>
      (c =? 48)
      && match rest with
         | [] => true
         | d :: z => (d =? 46) && (length z <=? 3)%nat && forallb (N.eqb 48) z
         end
  | [] => false
  end.

(** One element of the list: the name of the coding in lower case, and
    whether its weight is not zero. *)
Definition offer (item : jstring) : jstring * bool :=
  match split_at 59 item with
  | name :: params =>
      (toLowerCase (strip_ows name),
       negb (existsb (fun p => let p := toLowerCase (strip_ows p) in
                               startsWith (js "q=") p && zero_weight (drop 2 p))
                     params))
  | [] => ([], false)
  end.

(** The claim's notion: the request has an [Accept-Encoding] that
    accepts the coding, read as HTTP defines the header (RFC 9110,
    12.5.3): a comma-separated list of codings, names compared without
    regard to case, each with an optional weight, where a weight of
    zero means not acceptable, and where [*] stands for every coding
    that is not listed. *)
Definition accepts (coding : jstring) (ae : option jstring) : bool :=
  match ae with
  | None => false
  | Some v =>
      let offers := map offer (split_at 44 v) in
      match List.find (fun o => bool_decide (o.1 = toLowerCase coding)) offers with
      | Some o => o.2
      | None =>
          match List.find (fun o => bool_decide (o.1 = js "*")) offers with
          | Some o => o.2
          | None => false
          end
      end
  end.

(** What the scripts go by instead: the value contains the name as it
    is written, with no word character (letter, digit, underscore)
    directly before or after it. *)
Definition names (w : jstring) (ae : option jstring) : Prop :=
  exists pre post,
    default [] ae = pre ++ w ++ post
    /\ isWordOpt (last pre) = false /\ isWordOpt (head post) = false.

End Spec.

(* ===================================================================== *)
(** * A stand-in for the libraries, to run the scripts on concrete input *)
(* ===================================================================== *)

Module Sample.

(** Text is ASCII, the digest and both compressors return their input,
    and paths are joined with a slash. *)
Definition libs : Libs :=
  {| utf8_decode := map Byte.to_N;
     utf8_encode := map (fun c => default x00 (Byte.of_N (c mod 256)));
     sha256_base64 := fun s => s;
     brotliCompress := fun _ b => BrCallback (Some b);
     gzip := fun _ b => Some b;
     path_join := fun a b => a ++ js "/" ++ b |}.

Definition ROOT : jstring := js "/srv".

Definition bytes (s : string) : buffer := utf8_encode (Libs := libs) (js s).

Definition file (name contents : string) : jstring * fsnode :=
  (path_join (Libs := libs) ROOT (js name), File (bytes contents) 0).

(** A site whose page has an inline style that is only a comment. *)
Definition site : filesystem :=
  list_to_map
    [ file "index.html" "<style>/* x */</style><p>hi</p>";
      file "style.css" "a { color: red; }";
      file "script.js" "x = 1; // done";
      file "robots.txt" "User-agent: *" ].

(** The same site without its stylesheet. *)
Definition site_without_css : filesystem :=
  delete (path_join (Libs := libs) ROOT (js "style.css")) site.

(** An entry with all three variants. *)
Definition asset : entry :=
  {| e_path := Some (js "/a.txt"); e_mtimeMs := Some 0;
     e_type := js "text/plain; charset=utf-8"; e_cache := js "public, max-age=3600";
     e_body := bytes "aaaa"; e_etag := Server.etag (bytes "aaaa");
     e_br := Some (bytes "b"); e_brEtag := Some (Server.etag (bytes "b"));
     e_gz := Some (bytes "gg"); e_gzEtag := Some (Server.etag (bytes "gg")) |}.

(** A stand-in for the URL parser: an input that starts with one slash
    is its own path, anything else is refused. *)
Definition url : Url :=
  {| url_pathname := fun input _ =>
       if startsWith (js "/") input && negb (startsWith (js "//") input)
       then Some input else None |}.

End Sample.

(* ===================================================================== *)
(** * The validation tag *)
(* ===================================================================== *)

Section Etag.

Local Open Scope Z_scope.

Lemma toInt32_mod z : toInt32 z mod 2 ^ 32 = z mod 2 ^ 32.
Proof.
  unfold toInt32.
  rewrite Zminus_mod, Zmod_mod, <- Zminus_mod.
  f_equal. lia.
Qed.

Lemma toUint32_imul a b : toUint32 (imul a b) = (toUint32 a * b) mod 2 ^ 32.
Proof.
  unfold toUint32, imul.
  rewrite toInt32_mod, Zmult_mod, !toInt32_mod, <- Zmult_mod.
  rewrite Zmult_mod_idemp_l. reflexivity.
Qed.

Lemma lxor_mod a b : Z.lxor a b mod 2 ^ 32 = Z.lxor (a mod 2 ^ 32) (b mod 2 ^ 32).
Proof.
  rewrite <- !Z.land_ones by lia.
  apply Z.bits_inj'. intros n Hn.
  rewrite !Z.lxor_spec, !Z.land_spec, !Z.lxor_spec.
  destruct (Z.testbit (Z.ones 32) n); rewrite ?andb_true_r, ?andb_false_r; reflexivity.
Qed.

Lemma toUint32_xor32 a b : toUint32 (xor32 a b) = Z.lxor (toUint32 a) (toUint32 b).
Proof.
  unfold toUint32, xor32. rewrite toInt32_mod, lxor_mod, !toInt32_mod. reflexivity.
Qed.

Lemma toUint32_byte b : toUint32 (Z.of_N (Byte.to_N b)) = Z.of_N (Byte.to_N b).
Proof.
  unfold toUint32. apply Z.mod_small.
  pose proof (Byte.to_N_bounded b). lia.
Qed.

(** One round of the loop of [etag] is one round of FNV-1a. *)
Lemma etag_step_fnv h hn b :
  toUint32 h = Z.of_N hn ->
  toUint32 (Server.etag_step h b) = Z.of_N (Spec.fnv_step hn b).
Proof.
  intros Hh. unfold Server.etag_step, Spec.fnv_step.
  rewrite toUint32_imul, toUint32_xor32, toUint32_byte, Hh.
  rewrite N2Z.inj_mod, N2Z.inj_mul, N2Z.inj_lxor. reflexivity.
Qed.

Lemma fold_left_step {A B} (f : A -> B -> A) (b : B) (l : list B) (a : A) :
  fold_left f (b :: l) a = fold_left f l (f a b).
Proof. reflexivity. Qed.

Lemma etag_fold_fnv buf : forall h hn,
  toUint32 h = Z.of_N hn ->
  toUint32 (fold_left Server.etag_step buf h) = Z.of_N (fold_left Spec.fnv_step buf hn).
Proof.
  induction buf as [|b buf IH]; intros h hn Hh; [exact Hh|].
  rewrite !fold_left_step. apply IH, etag_step_fnv, Hh.
Qed.

Lemma etag_hash_fnv buf : Server.etag_hash buf = Z.of_N (Spec.fnv1a32 buf).
Proof. apply (etag_fold_fnv buf). reflexivity. Qed.

End Etag.

Section Numerals.

Local Open Scope N_scope.

Lemma digit_value_char d : Spec.digit_value (digit_char d) = d.
Proof.
  unfold Spec.digit_value, digit_char, isDigit.
  destruct (N.ltb_spec d 10).
  - replace ((48 <=? 48 + d) && (48 + d <=? 57)) with true; [lia|].
    symmetry. apply andb_true_iff. split; apply N.leb_le; lia.
  - replace ((48 <=? 87 + d) && (87 + d <=? 57)) with false; [lia|].
    symmetry. apply andb_false_iff. right. apply N.leb_gt. lia.
Qed.

Lemma size_div_lt base n :
  2 <= base -> base <= n -> (N.to_nat (N.size (n / base)) < N.to_nat (N.size n))%nat.
Proof.
  intros Hb Hn.
  assert (Hq : 1 <= n / base) by (apply N.div_le_lower_bound; lia).
  rewrite !N.size_log2 by lia.
  assert (Hlog : N.succ (N.log2 (n / base)) <= N.log2 n); [|lia].
  apply N.log2_le_pow2; [lia|].
  rewrite N.pow_succ_r'.
  pose proof (N.log2_spec (n / base)) as Hs.
  pose proof (N.Div0.mul_div_le n base).
  nia.
Qed.

Lemma digits_rev_lt fuel base n :
  2 <= base -> Forall (fun d => d < base) (digits_rev fuel base n).
Proof.
  intros Hb. revert n. induction fuel as [|fuel IH]; intros n; simpl; [constructor|].
  destruct (N.ltb_spec n base).
  - repeat constructor. assumption.
  - constructor; [apply N.mod_lt; lia | apply IH].
Qed.

(** The fuel of [toStringRadix] is enough: the digits have the value
    of the number. *)
Lemma digits_rev_value fuel base n :
  2 <= base -> (N.to_nat (N.size n) < fuel)%nat ->
  fold_right (fun d acc => base * acc + d) 0 (digits_rev fuel base n) = n.
Proof.
  intros Hb. revert n. induction fuel as [|fuel IH]; intros n Hf; [lia|]. simpl.
  destruct (N.ltb_spec n base) as [|Hge]; simpl; [lia|].
  rewrite IH.
  - pose proof (N.div_mod n base). lia.
  - pose proof (size_div_lt base n Hb Hge). lia.
Qed.

Lemma digits_rev_length fuel base n k :
  2 <= base -> n < base ^ N.of_nat k -> (1 <= k)%nat ->
  (length (digits_rev fuel base n) <= k)%nat.
Proof.
  intros Hb. revert n k. induction fuel as [|fuel IH]; intros n k Hn Hk; simpl; [lia|].
  destruct (N.ltb_spec n base); simpl; [lia|].
  destruct k as [|[|k]]; [lia| |].
  - simpl in Hn. rewrite N.pow_1_r in Hn. lia.
  - assert (length (digits_rev fuel base (n / base)) <= S k)%nat; [|lia].
    apply IH; [|lia].
    apply N.Div0.div_lt_upper_bound.
    replace (N.of_nat (S (S k))) with (N.succ (N.of_nat (S k))) in Hn by lia.
    rewrite N.pow_succ_r' in Hn. exact Hn.
Qed.

Lemma numeral_value_rev base l :
  Spec.numeral_value base (map digit_char (rev l))
  = fold_right (fun d acc => base * acc + d) 0 l.
Proof.
  unfold Spec.numeral_value.
  induction l as [|d l IH]; [reflexivity|].
  cbn [rev fold_right]. rewrite map_app, fold_left_app, IH. cbn.
  rewrite digit_value_char. reflexivity.
Qed.

Lemma numeral_value_toString base n :
  2 <= base -> Spec.numeral_value base (toStringRadix base n) = n.
Proof.
  intros Hb. unfold toStringRadix.
  rewrite numeral_value_rev. apply digits_rev_value; [exact Hb | lia].
Qed.

Lemma digit_char_hex d : d < 16 -> Spec.is_hex_digit (digit_char d) = true.
Proof.
  intros Hd. unfold Spec.is_hex_digit, digit_char, isDigit.
  destruct (N.ltb_spec d 10).
  - apply orb_true_iff. left. apply andb_true_iff. split; apply N.leb_le; lia.
  - apply orb_true_iff. right. apply andb_true_iff. split; apply N.leb_le; lia.
Qed.

Lemma toString16_digits n : forallb Spec.is_hex_digit (toString16 n) = true.
Proof.
  unfold toString16, toStringRadix.
  apply forallb_forall. intros c Hc.
  apply in_map_iff in Hc as (d & <- & Hd).
  apply in_rev in Hd.
  pose proof (digits_rev_lt (S (N.to_nat (N.size n))) 16 n ltac:(lia)) as Hall.
  rewrite List.Forall_forall in Hall.
  apply digit_char_hex, Hall, Hd.
Qed.

Lemma toString16_length n :
  n < 2 ^ 32 -> (1 <= length (toString16 n) <= 8)%nat.
Proof.
  intros Hn. unfold toString16, toStringRadix.
  rewrite length_map, length_rev. split.
  - simpl. destruct (n <? 16); simpl; lia.
  - apply digits_rev_length; [lia | exact Hn | lia].
Qed.

Lemma fnv1a32_bound buf : Spec.fnv1a32 buf < 2 ^ 32.
Proof.
  unfold Spec.fnv1a32.
  destruct buf as [|b buf _] using rev_ind; [reflexivity|].
  rewrite fold_left_app. cbn [fold_left]. apply N.mod_lt. lia.
Qed.

End Numerals.

(** C6, as the script computes it: [etag] returns [W/"h-n"], where [h]
    is the FNV-1a 32-bit checksum of the buffer, computed in unsigned
    32-bit arithmetic, written in lower-case hexadecimal without
    padding (between one and eight digits), and [n] is the length of
    the buffer in decimal. *)
Theorem etag_fnv1a (buf : buffer) :
  let h := Spec.fnv1a32 buf in
  let n := N.of_nat (length buf) in
  Server.etag buf = js "W/" ++ [dquote] ++ toString16 h ++ js "-" ++ toString10 n ++ [dquote]
  /\ (h < 2 ^ 32)%N
  /\ Spec.numeral_value 16 (toString16 h) = h
  /\ forallb Spec.is_hex_digit (toString16 h) = true
  /\ (1 <= length (toString16 h) <= 8)%nat
  /\ Spec.numeral_value 10 (toString10 n) = n.
Proof.
  cbv zeta. repeat split.
  - unfold Server.etag. rewrite etag_hash_fnv, N2Z.id. reflexivity.
  - apply fnv1a32_bound.
  - apply numeral_value_toString. lia.
  - apply toString16_digits.
  - apply toString16_length, fnv1a32_bound.
  - apply toString16_length, fnv1a32_bound.
  - apply numeral_value_toString. lia.
Qed.

(** The checksum of the one-byte buffer [00] is [0x050c5d1f]: the tag
    has seven hexadecimal digits, not eight. *)
Lemma etag_seven_digits :
  Server.etag [x00] = js "W/" ++ [dquote] ++ js "50c5d1f-1" ++ [dquote]
  /\ Server.etag [x00] <> Spec.etag8 [x00].
Proof. split; [vm_compute; reflexivity | vm_compute; discriminate]. Qed.

(** Both scripts compute the same tag. *)
Lemma AssetProcessor_etag buf : AssetProcessor.etag buf = Server.etag buf.
Proof.
  unfold AssetProcessor.etag, AssetProcessor.etag_hash, AssetProcessor.etag_step,
    Server.etag, Server.etag_hash, Server.etag_step.
  reflexivity.
Qed.

(* ===================================================================== *)
(** * The serving table: coherence, negotiation, conditional requests *)
(* ===================================================================== *)

Ltac js_neq := let E := fresh in intros E; vm_compute in E; discriminate E.

Ltac header_lookup :=
  unfold setHeader;
  repeat first [ rewrite lookup_insert_eq
               | rewrite lookup_insert_ne by js_neq ];
  rewrite ?lookup_empty.

Section ServerTable.
Context `{Libs}.
Variable ROOT : jstring.

Lemma loadAndMinify_coherent fs relPath minify st st' :
  Server.loadAndMinify ROOT fs relPath minify st = Some st' ->
  Spec.table_coherent Server.etag (Server.st_files st) ->
  Spec.table_coherent Server.etag (Server.st_files st').
Proof.
  unfold Server.loadAndMinify. intros Hload Hst.
  destruct (readFile fs _) as [src|]; [|discriminate].
  destruct (stat_mtimeMs fs _) as [t|]; [|discriminate].
  cbn [mbind option_bind] in Hload. injection Hload as <-. cbn [Server.st_files].
  apply map_Forall_insert_2; [|exact Hst].
  repeat split.
Qed.

Lemma load_static_coherent fs l : forall st st',
  Server.load_static ROOT fs l st = Some st' ->
  Spec.table_coherent Server.etag (Server.st_files st) ->
  Spec.table_coherent Server.etag (Server.st_files st').
Proof.
  induction l as [|f l IH]; intros st st' Hl Hst; cbn [Server.load_static] in Hl.
  - injection Hl as <-. exact Hst.
  - destruct (existsSync fs _); [|eauto].
    destruct (Server.loadAndMinify ROOT fs f None st) as [st1|] eqn:H1; [|discriminate].
    cbn [mbind option_bind] in Hl. eauto using loadAndMinify_coherent.
Qed.

(** The invariant of the [files] map through [build]. *)
Lemma build_table_coherent fs st :
  Server.build ROOT fs = Some st ->
  Spec.table_coherent Server.etag (Server.st_files st).
Proof.
  unfold Server.build. intros Hb.
  destruct (Server.loadAndMinify ROOT fs (js "index.html") _ _) as [st1|] eqn:H1; [|discriminate].
  cbn [mbind option_bind] in Hb.
  destruct (Server.loadAndMinify ROOT fs (js "style.css") _ st1) as [st2|] eqn:H2; [|discriminate].
  cbn [mbind option_bind] in Hb.
  destruct (Server.loadAndMinify ROOT fs (js "script.js") _ st2) as [st3|] eqn:H3; [|discriminate].
  cbn [mbind option_bind] in Hb.
  destruct (Server.load_static ROOT fs _ st3) as [st4|] eqn:H4; [|discriminate].
  cbn [mbind option_bind] in Hb. injection Hb as <-. cbn [Server.st_files].
  apply map_Forall_insert_2; [exact I|].
  eapply load_static_coherent; [exact H4|].
  eapply loadAndMinify_coherent; [exact H3|].
  eapply loadAndMinify_coherent; [exact H2|].
  eapply loadAndMinify_coherent; [exact H1|].
  apply map_Forall_empty.
Qed.

Lemma setSecurityHeaders_content_encoding (files : table) :
  Server.setSecurityHeaders files ∅ !! js "Content-Encoding" = None.
Proof.
  unfold Server.setSecurityHeaders, security_headers.
  destruct (files !! js "__csp__") as [[?|?]|]; try case_bool_decide; header_lookup; reflexivity.
Qed.

(** [serveEntry] in one equation: the negotiated variant decides the
    body, the tag and the [Content-Encoding] header. *)
Lemma serveEntry_negotiated (files : table) req e tag :
  let enc := Spec.negotiate (Server.negotiateEncoding req).1 (Server.negotiateEncoding req).2 e in
  Spec.variant_tag e enc = Some tag ->
  Server.serveEntry files req e =
    Some (mkResponse
            (if bool_decide (r_if_none_match req = Some tag) then 304 else 200)
            (setHeader "ETag" tag (Spec.with_encoding enc (Spec.base_headers files e)))
            (if bool_decide (r_if_none_match req = Some tag) then []
             else Spec.variant_body e enc)).
Proof.
  unfold Server.serveEntry, Spec.negotiate, Spec.with_encoding, Spec.base_headers.
  destruct (Server.negotiateEncoding req) as [aBr aGz]. cbn [fst snd].
  destruct e as [p t ty ca body et br bt gz gt]. cbn.
  destruct aBr, aGz, br as [br|], gz as [gz|]; cbn;
    intros Ht; simplify_eq; cbn; case_bool_decide; reflexivity.
Qed.

Lemma response_headers (files : table) e enc tag :
  let h := setHeader "ETag" tag (Spec.with_encoding enc (Spec.base_headers files e)) in
  h !! js "Vary" = Some (js "Accept-Encoding")
  /\ h !! js "Content-Encoding" = Spec.content_encoding enc
  /\ h !! js "ETag" = Some tag.
Proof.
  cbv zeta. unfold Spec.with_encoding, Spec.base_headers.
  destruct enc; cbn [Spec.content_encoding]; repeat split; header_lookup;
    try reflexivity; apply setSecurityHeaders_content_encoding.
Qed.

(** Precedence in terms of the two tests [negotiateEncoding] makes:
    for an entry that has a Brotli and a Gzip variant, each with its
    tag, the response always carries [Vary: Accept-Encoding], and the
    variant sent is the Brotli one when the first test passes, else the
    Gzip one when the second does, else the uncompressed body. *)
Lemma serveEntry_precedence_by_test (files : table) req e br gz tbr tgz :
  e_br e = Some br -> e_brEtag e = Some tbr ->
  e_gz e = Some gz -> e_gzEtag e = Some tgz ->
  let ae := default [] (r_accept_encoding req) in
  let acceptsBr := test noflags Server.br_token ae in
  let acceptsGzip := test noflags Server.gzip_token ae in
  let body_or_304 (tag : jstring) (body : buffer) :=
    if bool_decide (r_if_none_match req = Some tag) then [] else body in
  exists resp,
    Server.serveEntry files req e = Some resp
    /\ headers resp !! js "Vary" = Some (js "Accept-Encoding")
    /\ (acceptsBr = true ->
        headers resp !! js "Content-Encoding" = Some (js "br")
        /\ headers resp !! js "ETag" = Some tbr
        /\ sent resp = body_or_304 tbr br)
    /\ (acceptsBr = false -> acceptsGzip = true ->
        headers resp !! js "Content-Encoding" = Some (js "gzip")
        /\ headers resp !! js "ETag" = Some tgz
        /\ sent resp = body_or_304 tgz gz)
    /\ (acceptsBr = false -> acceptsGzip = false ->
        headers resp !! js "Content-Encoding" = None
        /\ headers resp !! js "ETag" = Some (e_etag e)
        /\ sent resp = body_or_304 (e_etag e) (e_body e)).
Proof.
  intros Hbr Htbr Hgz Htgz. cbv zeta.
  set (aBr := test noflags Server.br_token _).
  set (aGz := test noflags Server.gzip_token _).
  pose (enc := Spec.negotiate aBr aGz e).
  assert (Henc : enc = if aBr then Spec.Brotli else if aGz then Spec.Gzip else Spec.Identity).
  { unfold enc, Spec.negotiate. rewrite Hbr, Hgz. destruct aBr, aGz; reflexivity. }
  pose (tag := if aBr then tbr else if aGz then tgz else e_etag e).
  assert (Htag : Spec.variant_tag e enc = Some tag).
  { rewrite Henc. unfold tag. destruct aBr, aGz; assumption || reflexivity. }
  pose proof (serveEntry_negotiated files req e tag Htag) as Hserve.
  pose proof (response_headers files e enc tag) as (Hv & Hce & Het).
  eexists. split; [exact Hserve|]. cbn [headers sent].
  split; [exact Hv|].
  change (Spec.negotiate (Server.negotiateEncoding req).1
                         (Server.negotiateEncoding req).2 e) with enc.
  rewrite Hce, Het.
  assert (Htg : tag = if aBr then tbr else if aGz then tgz else e_etag e) by reflexivity.
  clearbody enc tag aBr aGz. subst enc tag.
  destruct aBr, aGz; cbn; rewrite ?Hbr, ?Hgz; repeat split; intros; (discriminate || reflexivity).
Qed.

(** C9: for an asset of the table a build leaves and any request, the
    negotiated variant has a tag, the response carries it as [ETag],
    and the response is 304 with nothing sent when [If-None-Match]
    equals that tag, and 200 with the body of the negotiated variant
    otherwise. *)
Theorem serveEntry_conditional fs st path e req :
  Server.build ROOT fs = Some st ->
  Server.st_files st !! path = Some (Asset e) ->
  let enc := Spec.negotiate (Server.negotiateEncoding req).1
                            (Server.negotiateEncoding req).2 e in
  exists tag resp,
    Spec.variant_tag e enc = Some tag
    /\ Server.serveEntry (Server.st_files st) req e = Some resp
    /\ headers resp !! js "ETag" = Some tag
    /\ (r_if_none_match req = Some tag -> statusCode resp = 304 /\ sent resp = [])
    /\ (r_if_none_match req <> Some tag ->
        statusCode resp = 200 /\ sent resp = Spec.variant_body e enc).
Proof.
  intros Hb He enc.
  pose proof (build_table_coherent fs st Hb path (Asset e) He) as (Ht & Hbr & Hgz).
  cbn in Ht, Hbr, Hgz.
  assert (Htag : exists tag, Spec.variant_tag e enc = Some tag).
  { subst enc. unfold Spec.negotiate.
    destruct (_ && bool_decide (is_Some (e_br e))) eqn:E1.
    - apply andb_true_iff in E1 as [_ E1]. apply bool_decide_eq_true in E1 as [br Hb'].
      cbn. rewrite Hbr, Hb'. eauto.
    - destruct (_ && bool_decide (is_Some (e_gz e))) eqn:E2.
      + apply andb_true_iff in E2 as [_ E2]. apply bool_decide_eq_true in E2 as [gz Hg'].
        cbn. rewrite Hgz, Hg'. eauto.
      + cbn. eauto. }
  destruct Htag as [tag Htag].
  exists tag. eexists. split; [exact Htag|].
  split; [exact (serveEntry_negotiated (Server.st_files st) req e tag Htag)|].
  cbn [headers statusCode sent].
  pose proof (response_headers (Server.st_files st) e enc tag) as (_ & _ & Het).
  split; [exact Het|].
  split; intros Hinm.
  - rewrite bool_decide_eq_true_2 by exact Hinm. split; reflexivity.
  - rewrite bool_decide_eq_false_2 by exact Hinm. split; reflexivity.
Qed.

End ServerTable.

(** C7: every asset the build stores is coherent: its tag is [etag] of
    its body, and the tag of a compressed variant, present exactly when
    the variant is, is [etag] of the bytes of that variant.  So each
    tag depends on the bytes of its own variant only: two stored
    assets, of any two builds, that agree on a variant agree on its tag,
    whatever their other variants are. *)
Theorem build_entries_coherent (L : Libs) ROOT fs st path e :
  Server.build (H := L) ROOT fs = Some st ->
  Server.st_files st !! path = Some (Asset e) ->
  Spec.coherent Server.etag e
  /\ forall (L' : Libs) ROOT' fs' st' path' e',
       Server.build (H := L') ROOT' fs' = Some st' ->
       Server.st_files st' !! path' = Some (Asset e') ->
       (e_body e = e_body e' -> e_etag e = e_etag e')
       /\ (e_br e = e_br e' -> e_brEtag e = e_brEtag e')
       /\ (e_gz e = e_gz e' -> e_gzEtag e = e_gzEtag e').
Proof.
  intros Hb He.
  pose proof (build_table_coherent ROOT fs st Hb path (Asset e) He) as (Ht & Hbr & Hgz).
  split; [repeat split; assumption|].
  intros L' ROOT' fs' st' path' e' Hb' He'.
  pose proof (build_table_coherent ROOT' fs' st' Hb' path' (Asset e') He')
    as (Ht' & Hbr' & Hgz').
  cbn in *. repeat split; intros Heq; congruence.
Qed.


(** The class-based script serves entries the same way. *)
Lemma serveFile_serveEntry (files : table) req e :
  AssetProcessor.serveFile files req e = Server.serveEntry files req e.
Proof. reflexivity. Qed.

Lemma build_entries_coherent_witness :
  exists st e,
    Server.build (H := Sample.libs) Sample.ROOT Sample.site = Some st
    /\ Server.st_files st !! js "/index.html" = Some (Asset e)
    /\ Spec.coherent Server.etag e.
Proof.
  eexists _, _.
  match goal with |- ?B = Some ?st /\ ?L = Some (Asset ?e) /\ _ =>
    assert (Hb : B = Some st) by (vm_compute; reflexivity);
    assert (He : L = Some (Asset e)) by (vm_compute; reflexivity)
  end.
  split; [exact Hb|]. split; [exact He|].
  exact (proj1 (build_entries_coherent Sample.libs Sample.ROOT Sample.site _ _ _ Hb He)).
Defined.


Lemma serveEntry_conditional_witness :
  exists st e resp,
    Server.build (H := Sample.libs) Sample.ROOT Sample.site = Some st
    /\ Server.st_files st !! js "/robots.txt" = Some (Asset e)
    /\ Server.serveEntry (Server.st_files st)
         (mkRequest (js "/robots.txt") (Some (js "gzip")) None) e = Some resp
    /\ statusCode resp = 200.
Proof.
  eexists _, _.
  match goal with |- exists resp, ?B = Some ?st /\ ?L = Some (Asset ?e) /\ _ =>
    assert (Hb : B = Some st) by (vm_compute; reflexivity);
    assert (He : L = Some (Asset e)) by (vm_compute; reflexivity)
  end.
  destruct (serveEntry_conditional (H := Sample.libs) Sample.ROOT Sample.site _ _ _
              (mkRequest (js "/robots.txt") (Some (js "gzip")) None) Hb He)
    as (tag & resp & _ & Hs & _ & _ & H200).
  exists resp. split; [exact Hb|]. split; [exact He|]. split; [exact Hs|].
  apply H200. discriminate.
Defined.

(* ===================================================================== *)
(** * The scanning passes of [minifyJS] terminate *)
(* ===================================================================== *)

Section Scanner.

(** Every iteration of the first loop moves [i] forward. *)
Lemma pass1_step_advances src st :
  (Server.s_i st < Server.s_i (Server.pass1_step src st))%nat.
Proof.
  unfold Server.pass1_step.
  repeat match goal with |- context [if ?c then _ else _] => destruct c end;
    cbn [Server.s_i]; lia.
Qed.

(** Every iteration of the second loop, with its [j++], moves [j]
    forward. *)
Lemma pass2_step_advances out st :
  (Server.t_j st < Server.t_j (Server.pass2_step out st))%nat.
Proof.
  unfold Server.pass2_step.
  repeat match goal with |- context [if ?c then _ else _] => destruct c end;
    cbn [Server.t_j]; lia.
Qed.

(** The first loop stops within as many iterations as code units are
    left. *)
Lemma pass1_loop_stops src fuel : forall st,
  (length src - Server.s_i st <= fuel)%nat ->
  Spec.while1 src st (Server.pass1_loop fuel src st).
Proof.
  induction fuel as [|fuel IH]; intros st Hfuel; cbn [Server.pass1_loop].
  - apply Spec.while1_exit. lia.
  - destruct (Nat.ltb_spec (Server.s_i st) (length src)) as [Hlt|Hge].
    + apply Spec.while1_iter; [exact Hlt|].
      apply IH. pose proof (pass1_step_advances src st). lia.
    + apply Spec.while1_exit. exact Hge.
Qed.

Lemma pass2_loop_stops out fuel : forall st,
  (length out - Server.t_j st <= fuel)%nat ->
  Spec.while2 out st (Server.pass2_loop fuel out st).
Proof.
  induction fuel as [|fuel IH]; intros st Hfuel; cbn [Server.pass2_loop].
  - apply Spec.while2_exit. lia.
  - destruct (Nat.ltb_spec (Server.t_j st) (length out)) as [Hlt|Hge].
    + apply Spec.while2_iter; [exact Hlt|].
      apply IH. pose proof (pass2_step_advances out st). lia.
    + apply Spec.while2_exit. exact Hge.
Qed.

(** A loop that stops does so in one state only. *)
Lemma while1_deterministic src st a b :
  Spec.while1 src st a -> Spec.while1 src st b -> a = b.
Proof.
  intros Ha. revert b.
  induction Ha as [st Hge|st st' Hlt _ IH]; intros b Hb; inversion Hb; subst;
    try lia; auto.
Qed.

Lemma while2_deterministic out st a b :
  Spec.while2 out st a -> Spec.while2 out st b -> a = b.
Proof.
  intros Ha. revert b.
  induction Ha as [st Hge|st st' Hlt _ IH]; intros b Hb; inversion Hb; subst;
    try lia; auto.
Qed.

End Scanner.

(** C10: [minifyJS] terminates on every input.  Each iteration of
    either scanning loop strictly advances its index, whatever the
    state (inside a string, a template or a comment that never ends
    included); so the first loop, started at [i = 0], stops in a state
    [st1] with [i >= n], the second, run over the output of the first,
    stops in a state [st2] with [j >= out.length], and the value
    returned is the rewritten [finalOut] of [st2]. *)
Theorem minifyJS_terminates (src : jstring) :
  (forall st, (Server.s_i st < Server.s_i (Server.pass1_step src st))%nat)
  /\ (forall out st, (Server.t_j st < Server.t_j (Server.pass2_step out st))%nat)
  /\ exists st1 st2,
       Spec.while1 src Server.pass1_init st1
       /\ (length src <= Server.s_i st1)%nat
       /\ Spec.while2 (Server.s_out st1) Server.pass2_init st2
       /\ (length (Server.s_out st1) <= Server.t_j st2)%nat
       /\ Server.minifyJS src = Server.rewrites (Server.t_finalOut st2).
Proof.
  split; [apply pass1_step_advances|].
  split; [apply pass2_step_advances|].
  assert (H1 : Spec.while1 src Server.pass1_init (Server.pass1 src)).
  { apply pass1_loop_stops. cbn. lia. }
  assert (H2 : Spec.while2 (Server.s_out (Server.pass1 src)) Server.pass2_init
                 (Server.pass2 (Server.s_out (Server.pass1 src)))).
  { apply pass2_loop_stops. cbn. lia. }
  exists (Server.pass1 src), (Server.pass2 (Server.s_out (Server.pass1 src))).
  split; [exact H1|]. split.
  { clear H2. induction H1; [assumption|assumption]. }
  split; [exact H2|]. split.
  { clear H1. induction H2; [assumption|assumption]. }
  reflexivity.
Qed.

(** An input that ends inside a block comment: the first loop leaves
    [i] two past the end. *)
Example pass1_unterminated_comment :
  Server.s_i (Server.pass1 (js "a /* b")) = 8%nat
  /\ Server.minifyJS (js "a /* b") = js "a".
Proof. split; vm_compute; reflexivity. Qed.

(* ===================================================================== *)
(** * The synthesized policy *)
(* ===================================================================== *)

Section Policy.

Lemma join_cons_cons sep (a b : jstring) l :
  join sep (a :: b :: l) = a ++ sep ++ join sep (b :: l).
Proof. reflexivity. Qed.

Lemma sha256_token_not_unsafe_inline hashes :
  Server.unsafe_inline ∉ map Server.sha256_token hashes.
Proof.
  intros Hin. apply list_elem_of_In, in_map_iff in Hin as (h & Heq & _).
  vm_compute in Heq. discriminate Heq.
Qed.

(** What [AssetProcessor.generateCSP] puts in the script and style
    directives: [script-src] is ['self'] and the hash tokens, never
    ['unsafe-inline'], and is ['self'] alone without hashes;
    [style-src] has ['unsafe-inline'] exactly when there is no style
    hash. *)
Lemma AssetProcessor_generateCSP_sources (h : cspHashes) :
  let script_tokens := Server.self :: map Server.sha256_token (scripts h) in
  let style_tokens :=
    Server.self :: (if bool_decide (styles h = []) then [Server.unsafe_inline]
                    else map Server.sha256_token (styles h)) in
  AssetProcessor.generateCSP h =
    join (js "; ")
      [ js "default-src " ++ Server.self;
        js "script-src " ++ join (js " ") script_tokens;
        js "script-src-elem " ++ join (js " ") script_tokens;
        js "style-src " ++ join (js " ") style_tokens;
        js "style-src-elem " ++ join (js " ") style_tokens;
        js "img-src " ++ Server.self ++ js " https: data:";
        js "font-src " ++ Server.self;
        js "connect-src " ++ Server.self;
        js "media-src " ++ Server.self ++ js " data:";
        js "object-src " ++ Server.none;
        js "child-src " ++ Server.none;
        js "worker-src " ++ Server.none;
        js "frame-ancestors " ++ Server.none;
        js "form-action " ++ Server.self;
        js "base-uri " ++ Server.self;
        js "manifest-src " ++ Server.self;
        js "upgrade-insecure-requests" ]
  /\ (Server.unsafe_inline ∉ script_tokens)
  /\ (Server.unsafe_inline ∈ style_tokens <-> styles h = [])
  /\ (scripts h = [] -> script_tokens = [Server.self]).
Proof.
  cbv zeta. split; [|split; [|split]].
  - unfold AssetProcessor.generateCSP.
    destruct h as [sc sy]. cbn [scripts styles].
    assert (Hsc : Server.self ++ (if (0 <? length (map Server.sha256_token sc))%nat
                                  then js " " ++ join (js " ") (map Server.sha256_token sc)
                                  else [])
                  = join (js " ") (Server.self :: map Server.sha256_token sc)).
    { destruct sc as [|a sc]; [apply app_nil_r | reflexivity]. }
    assert (Hsy : Server.self ++ (if (0 <? length (map Server.sha256_token sy))%nat
                                  then js " " ++ join (js " ") (map Server.sha256_token sy)
                                  else js " " ++ Server.unsafe_inline)
                  = join (js " ")
                      (Server.self :: (if bool_decide (sy = []) then [Server.unsafe_inline]
                                       else map Server.sha256_token sy))).
    { destruct sy as [|a sy]; reflexivity. }
    rewrite Hsc, Hsy. reflexivity.
  - intros Hin. apply elem_of_cons in Hin as [Heq|Hin].
    + vm_compute in Heq. discriminate Heq.
    + exact (sha256_token_not_unsafe_inline _ Hin).
  - case_bool_decide as Hs; split; intros Hx; try assumption.
    + set_solver.
    + apply elem_of_cons in Hx as [Heq|Hin].
      * vm_compute in Heq. discriminate Heq.
      * destruct (sha256_token_not_unsafe_inline _ Hin).
    + contradiction.
  - intros ->. reflexivity.
Qed.

End Policy.

(** C3 on [server.js]: without inline script hashes [generateCSP] gives
    [script-src] the ['unsafe-inline'] allowance. *)
Theorem Server_generateCSP_scripts_unsafe_inline :
  Server.generateCSP (mkCspHashes [] []) =
    js ("default-src 'self'; script-src 'self' 'unsafe-inline'; "
        ++ "style-src 'self' 'unsafe-inline'; img-src 'self' data: https:; "
        ++ "font-src 'self'; connect-src 'self'; media-src 'self'; object-src 'none'; "
        ++ "child-src 'none'; worker-src 'none'; frame-ancestors 'none'; "
        ++ "form-action 'self'; base-uri 'self'; manifest-src 'self'").
Proof. vm_compute. reflexivity. Qed.

(* ===================================================================== *)
(** * The build *)
(* ===================================================================== *)

Ltac not_in_list :=
  let Hin := fresh in
  intros Hin; cbn [map Server.static_assets] in Hin;
  repeat (apply elem_of_cons in Hin as [Hin|Hin]; [vm_compute in Hin; discriminate Hin|]);
  apply elem_of_nil in Hin; exact Hin.

Lemma public_path_index : Server.public_path (js "index.html") = js "/index.html".
Proof. vm_compute. reflexivity. Qed.

Section ServerBuild.
Context `{Libs}.
Variable ROOT : jstring.

(** Loading any file but the page leaves the hash sets and the other
    keys of the table as they are. *)
Lemma loadAndMinify_other fs relPath minify st st' :
  Server.loadAndMinify ROOT fs relPath minify st = Some st' ->
  relPath <> js "index.html" ->
  Server.st_csp st' = Server.st_csp st
  /\ forall k, k <> Server.public_path relPath ->
       Server.st_files st' !! k = Server.st_files st !! k.
Proof.
  unfold Server.loadAndMinify. intros Hload Hrel.
  destruct (readFile fs _) as [src|]; [|discriminate].
  destruct (stat_mtimeMs fs _) as [t|]; [|discriminate].
  cbn [mbind option_bind] in Hload. injection Hload as <-.
  cbn [Server.st_csp Server.st_files].
  rewrite bool_decide_eq_false_2 by exact Hrel.
  split; [reflexivity|].
  intros k Hk. apply lookup_insert_ne. congruence.
Qed.

Lemma load_static_other fs l : forall st st',
  Server.load_static ROOT fs l st = Some st' ->
  js "index.html" ∉ l ->
  Server.st_csp st' = Server.st_csp st
  /\ forall k, k ∉ map Server.public_path l ->
       Server.st_files st' !! k = Server.st_files st !! k.
Proof.
  induction l as [|f l IH]; intros st st' Hl Hnotin; cbn [Server.load_static] in Hl.
  - injection Hl as <-. split; reflexivity.
  - assert (Hf : f <> js "index.html") by (intros ->; apply Hnotin; left).
    assert (Hl' : js "index.html" ∉ l) by (intros ?; apply Hnotin; right; assumption).
    destruct (existsSync fs _).
    + destruct (Server.loadAndMinify ROOT fs f None st) as [st1|] eqn:H1; [|discriminate].
      cbn [mbind option_bind] in Hl.
      destruct (loadAndMinify_other _ _ _ _ _ H1 Hf) as [Hc1 Hk1].
      destruct (IH _ _ Hl Hl') as [Hc Hk].
      split; [congruence|].
      intros k Hnk. cbn [map] in Hnk.
      rewrite Hk, Hk1; [reflexivity| |].
      * intros ->. apply Hnk. left.
      * intros ?. apply Hnk. right. assumption.
    + destruct (IH _ _ Hl Hl') as [Hc Hk].
      split; [exact Hc|].
      intros k Hnk. apply Hk. intros ?. apply Hnk. right. assumption.
Qed.

(** What [build] of [server.js] leaves: the hash sets come from the
    page as it is read, the stored body is the minified page. *)
Lemma Server_build_page fs st :
  Server.build ROOT fs = Some st ->
  exists src e,
    readFile fs (path_join ROOT (js "index.html")) = Some src
    /\ Server.st_csp st = Server.extractInlineContent (utf8_decode src)
    /\ Server.st_files st !! js "__csp__"
       = Some (Policy (Server.generateCSP (Server.st_csp st)))
    /\ Server.st_files st !! js "/index.html" = Some (Asset e)
    /\ e_body e = utf8_encode (Server.minifyHTML (utf8_decode src)).
Proof.
  unfold Server.build. intros Hb.
  destruct (Server.loadAndMinify ROOT fs (js "index.html") _ _) as [st1|] eqn:H1; [|discriminate].
  cbn [mbind option_bind] in Hb.
  destruct (Server.loadAndMinify ROOT fs (js "style.css") _ st1) as [st2|] eqn:H2; [|discriminate].
  cbn [mbind option_bind] in Hb.
  destruct (Server.loadAndMinify ROOT fs (js "script.js") _ st2) as [st3|] eqn:H3; [|discriminate].
  cbn [mbind option_bind] in Hb.
  destruct (Server.load_static ROOT fs _ st3) as [st4|] eqn:H4; [|discriminate].
  cbn [mbind option_bind] in Hb. injection Hb as <-. cbn [Server.st_files Server.st_csp].
  destruct (loadAndMinify_other _ _ _ _ _ H2 ltac:(js_neq)) as [Hc2 Hk2].
  destruct (loadAndMinify_other _ _ _ _ _ H3 ltac:(js_neq)) as [Hc3 Hk3].
  destruct (load_static_other _ _ _ _ H4) as [Hc4 Hk4].
  { not_in_list. }
  unfold Server.loadAndMinify in H1.
  destruct (readFile fs _) as [src|]; [|discriminate].
  destruct (stat_mtimeMs fs _) as [t|]; [|discriminate].
  cbn [mbind option_bind] in H1. injection H1 as <-.
  rewrite public_path_index in *.
  eexists src, _. split; [reflexivity|].
  split; [rewrite Hc4, Hc3, Hc2; reflexivity|].
  split; [apply lookup_insert_eq|].
  split.
  - rewrite lookup_insert_ne by js_neq.
    rewrite Hk4, Hk3, Hk2.
    + apply lookup_insert_eq.
    + js_neq.
    + js_neq.
    + not_in_list.
  - reflexivity.
Qed.

(** Without a readable [style.css], [build] of [server.js] is
    rejected. *)
Lemma Server_build_rejected fs name :
  name ∈ [js "index.html"; js "style.css"; js "script.js"] ->
  readFile fs (path_join ROOT name) = None ->
  Server.build ROOT fs = None.
Proof.
  intros Hin Hread. unfold Server.build.
  assert (Hload : forall m st, Server.loadAndMinify ROOT fs name m st = None).
  { intros m st. unfold Server.loadAndMinify. rewrite Hread. reflexivity. }
  repeat (apply elem_of_cons in Hin as [->|Hin]); [| | |apply elem_of_nil in Hin; contradiction].
  - rewrite Hload. reflexivity.
  - destruct (Server.loadAndMinify ROOT fs (js "index.html") _ _); [|reflexivity].
    cbn [mbind option_bind]. rewrite Hload. reflexivity.
  - destruct (Server.loadAndMinify ROOT fs (js "index.html") _ _); [|reflexivity].
    cbn [mbind option_bind].
    destruct (Server.loadAndMinify ROOT fs (js "style.css") _ _); [|reflexivity].
    cbn [mbind option_bind]. rewrite Hload. reflexivity.
Qed.

End ServerBuild.

Section AssetProcessorBuild.
Context `{Libs}.
Variable ROOT : jstring.

Lemma public_path_not_csp relPath : Server.public_path relPath <> js "__csp__".
Proof.
  intros E. apply (f_equal head) in E. vm_compute in E. discriminate E.
Qed.

(** [processFile] on any file but the page: the hash sets are not
    touched, the body is the minified or the raw content. *)
Lemma processFile_other fs relPath minifier csp e csp' :
  AssetProcessor.processFile ROOT fs relPath minifier csp = Some (e, csp') ->
  relPath <> js "index.html" ->
  exists content,
    readFile fs (path_join ROOT relPath) = Some content
    /\ csp' = csp
    /\ e_path e = Some (Server.public_path relPath)
    /\ e_body e = match minifier with
                  | Some f => utf8_encode (f (utf8_decode content))
                  | None => content
                  end.
Proof.
  unfold AssetProcessor.processFile. intros Hp Hrel.
  destruct (readFile fs _) as [content|]; [|discriminate].
  destruct (stat_mtimeMs fs _) as [t|]; [|discriminate].
  cbn [mbind option_bind] in Hp.
  rewrite bool_decide_eq_false_2 in Hp by exact Hrel.
  exists content. destruct minifier as [f|]; cbn in Hp; injection Hp as <- <-;
    repeat split; reflexivity.
Qed.

(** [processFile] on the page: the hash sets are extracted from the
    very text whose encoding becomes the body. *)
Lemma processFile_index fs minifier csp e csp' :
  AssetProcessor.processFile ROOT fs (js "index.html") minifier csp = Some (e, csp') ->
  exists html,
    e_body e = utf8_encode html
    /\ csp' = AssetProcessor.extractCSPHashes html
    /\ e_path e = Some (js "/index.html").
Proof.
  unfold AssetProcessor.processFile. intros Hp.
  destruct (readFile fs _) as [content|]; [|discriminate].
  destruct (stat_mtimeMs fs _) as [t|]; [|discriminate].
  cbn [mbind option_bind] in Hp.
  rewrite bool_decide_eq_true_2 in Hp by reflexivity.
  destruct (AssetProcessor.inline_assets ROOT fs _) as [html|]; [|discriminate].
  cbn [mbind option_bind] in Hp. injection Hp as <- <-.
  eexists. cbn [e_body e_path]. rewrite public_path_index. repeat split; reflexivity.
Qed.

(** [processFile] on the page, in full: the text that is stored is the
    page as read, with the stylesheet and the script inlined, then
    minified; the hash sets are those of that text. *)
Lemma processFile_page fs (f : jstring -> jstring) csp e csp' :
  AssetProcessor.processFile ROOT fs (js "index.html") (Some f) csp = Some (e, csp') ->
  exists content inlined,
    readFile fs (path_join ROOT (js "index.html")) = Some content
    /\ AssetProcessor.inline_assets ROOT fs (utf8_decode content) = Some inlined
    /\ e_body e = utf8_encode (f inlined)
    /\ csp' = AssetProcessor.extractCSPHashes (f inlined)
    /\ e_path e = Some (js "/index.html").
Proof.
  unfold AssetProcessor.processFile. intros Hp.
  destruct (readFile fs _) as [content|]; [|discriminate].
  destruct (stat_mtimeMs fs _) as [t|]; [|discriminate].
  cbn [mbind option_bind] in Hp.
  rewrite bool_decide_eq_true_2 in Hp by reflexivity.
  destruct (AssetProcessor.inline_assets ROOT fs _) as [html|] eqn:Hi; [|discriminate].
  cbn [mbind option_bind] in Hp. injection Hp as <- <-.
  exists content, html. cbn [e_body e_path]. rewrite public_path_index.
  split; [reflexivity|]. split; [exact Hi|]. repeat split.
Qed.

Lemma run_task_other fs st file minifier :
  file <> js "index.html" ->
  AssetProcessor.st_csp (AssetProcessor.run_task ROOT fs st (file, minifier))
  = AssetProcessor.st_csp st
  /\ forall k, k <> Server.public_path file ->
       AssetProcessor.st_files (AssetProcessor.run_task ROOT fs st (file, minifier)) !! k
       = AssetProcessor.st_files st !! k.
Proof.
  intros Hrel. unfold AssetProcessor.run_task.
  destruct (existsSync fs _); [|split; reflexivity].
  destruct (AssetProcessor.processFile ROOT fs file minifier _) as [[e csp']|] eqn:Hp;
    [|split; reflexivity].
  destruct (processFile_other _ _ _ _ _ _ Hp Hrel) as (content & _ & -> & Hpath & _).
  cbn [AssetProcessor.st_csp AssetProcessor.st_files]. split; [reflexivity|].
  intros k Hk. rewrite Hpath. cbn [from_option id]. apply lookup_insert_ne. congruence.
Qed.

Lemma fold_run_task_other fs l : forall st,
  js "index.html" ∉ map fst l ->
  AssetProcessor.st_csp (fold_left (AssetProcessor.run_task ROOT fs) l st)
  = AssetProcessor.st_csp st
  /\ forall k, k ∉ map (fun t => Server.public_path (fst t)) l ->
       AssetProcessor.st_files (fold_left (AssetProcessor.run_task ROOT fs) l st) !! k
       = AssetProcessor.st_files st !! k.
Proof.
  induction l as [|[file minifier] l IH]; intros st Hnotin.
  - split; reflexivity.
  - rewrite fold_left_step.
    assert (Hf : file <> js "index.html") by (intros ->; apply Hnotin; left).
    assert (Hl : js "index.html" ∉ map fst l) by (intros ?; apply Hnotin; right; assumption).
    destruct (run_task_other fs st file minifier Hf) as [Hc1 Hk1].
    destruct (IH (AssetProcessor.run_task ROOT fs st (file, minifier)) Hl) as [Hc Hk].
    split; [congruence|].
    intros k Hnk. cbn [map fst] in Hnk.
    rewrite Hk, Hk1; [reflexivity| |].
    + intros ->. apply Hnk. left.
    + intros ?. apply Hnk. right. assumption.
Qed.

(** C1 on the class-based script: the policy is synthesized from the
    hash sets, and the hash sets are extracted from the very text that
    is served for the page: the page as read from disk, with the
    stylesheet and the script inlined by [inline_assets], then minified
    by [minifyHTML]; the body stored is the encoding of that text.
    When no page is stored the hash sets are empty. *)
Lemma AssetProcessor_build_policy_from_served fs :
  let st := AssetProcessor.build ROOT fs in
  AssetProcessor.st_files st !! js "__csp__"
  = Some (Policy (AssetProcessor.generateCSP (AssetProcessor.st_csp st)))
  /\ match AssetProcessor.st_files st !! js "/index.html" with
     | Some (Asset e) =>
         exists content inlined,
           readFile fs (path_join ROOT (js "index.html")) = Some content
           /\ AssetProcessor.inline_assets ROOT fs (utf8_decode content) = Some inlined
           /\ e_body e = utf8_encode (AssetProcessor.minifyHTML inlined)
           /\ AssetProcessor.st_csp st
              = AssetProcessor.extractCSPHashes (AssetProcessor.minifyHTML inlined)
     | Some (Policy _) => False
     | None => AssetProcessor.st_csp st = mkCspHashes [] []
     end.
Proof.
  cbv zeta. unfold AssetProcessor.build.
  cbn [AssetProcessor.st_files AssetProcessor.st_csp].
  split; [apply lookup_insert_eq|].
  rewrite lookup_insert_ne by js_neq.
  unfold AssetProcessor.tasks. rewrite fold_left_step.
  match goal with |- context [fold_left _ ?l ?s] =>
    destruct (fold_run_task_other fs l s) as [Hc Hk]
  end.
  { not_in_list. }
  rewrite Hc, Hk by not_in_list.
  unfold AssetProcessor.run_task.
  destruct (existsSync fs _); [|reflexivity].
  destruct (AssetProcessor.processFile ROOT fs (js "index.html") _ _)
    as [[e csp']|] eqn:Hp; [|reflexivity].
  destruct (processFile_page _ _ _ _ _ Hp) as (content & inlined & Hr & Hi & Hbody & -> & Hpath).
  cbn [AssetProcessor.st_files AssetProcessor.st_csp].
  rewrite Hpath. cbn [from_option id]. rewrite lookup_insert_eq.
  exists content, inlined.
  split; [exact Hr|]. split; [exact Hi|]. split; [exact Hbody | reflexivity].
Qed.

Lemma tasks_keys_nodup :
  NoDup (map (fun t => Server.public_path (fst t)) AssetProcessor.tasks).
Proof. apply (bool_decide_unpack _). vm_compute. exact I. Qed.

(** C5 on the class-based script: [build] always completes, and a
    manifest entry other than the page whose own source can be read is
    stored, whatever happens to the other entries. *)
Lemma AssetProcessor_build_stores fs file minifier content :
  (file, minifier) ∈ AssetProcessor.tasks ->
  file <> js "index.html" ->
  readFile fs (path_join ROOT file) = Some content ->
  exists e,
    AssetProcessor.st_files (AssetProcessor.build ROOT fs) !! Server.public_path file
    = Some (Asset e)
    /\ e_body e = match minifier with
                  | Some f => utf8_encode (f (utf8_decode content))
                  | None => content
                  end.
Proof.
  intros Hin Hrel Hread.
  apply list_elem_of_split in Hin as (pre & post & Htasks).
  pose proof tasks_keys_nodup as Hnd.
  rewrite Htasks, map_app in Hnd. cbn [map fst] in Hnd.
  apply NoDup_app in Hnd as (_ & _ & Hnd). apply NoDup_cons in Hnd as [Hpost _].
  unfold AssetProcessor.build. cbn [AssetProcessor.st_files].
  rewrite lookup_insert_ne by (apply not_eq_sym, public_path_not_csp).
  rewrite Htasks, fold_left_app, fold_left_step.
  assert (Hpost' : js "index.html" ∉ map fst post).
  { intros Hi. assert (Hd : NoDup (map fst AssetProcessor.tasks))
      by (apply (bool_decide_unpack _); vm_compute; exact I).
    rewrite Htasks, map_app in Hd. cbn [map fst] in Hd.
    destruct pre as [|p pre].
    - cbn in Htasks. injection Htasks as Ht _. congruence.
    - cbn in Htasks. injection Htasks as Hp _. subst p. cbn [map fst app] in Hd.
      apply NoDup_cons in Hd as [Hd _]. apply Hd.
      apply elem_of_app. right. right. exact Hi. }
  match goal with |- context [fold_left _ post ?s] =>
    destruct (fold_run_task_other fs post s Hpost') as [_ Hk]
  end.
  rewrite Hk by exact Hpost.
  unfold AssetProcessor.run_task at 1.
  assert (Hex : existsSync fs (path_join ROOT file) = true).
  { unfold existsSync, readFile in *. apply bool_decide_eq_true_2.
    destruct (fs !! path_join ROOT file); [eauto|discriminate]. }
  rewrite Hex.
  assert (Hp : exists e csp',
             AssetProcessor.processFile ROOT fs file minifier
               (AssetProcessor.st_csp (fold_left (AssetProcessor.run_task ROOT fs) pre
                                         AssetProcessor.init_state)) = Some (e, csp')).
  { unfold AssetProcessor.processFile. rewrite Hread.
    assert (Hst : is_Some (stat_mtimeMs fs (path_join ROOT file))).
    { unfold stat_mtimeMs, readFile in *.
      destruct (fs !! path_join ROOT file) as [[]|]; eauto; discriminate. }
    destruct Hst as [t ->]. cbn [mbind option_bind].
    rewrite bool_decide_eq_false_2 by exact Hrel.
    destruct minifier; cbn; eauto. }
  destruct Hp as (e & csp' & Hp). rewrite Hp.
  destruct (processFile_other _ _ _ _ _ _ Hp Hrel) as (content' & Hread' & _ & Hpath & Hbody).
  cbn [AssetProcessor.st_files]. rewrite Hpath. cbn [from_option id]. rewrite lookup_insert_eq.
  exists e. split; [reflexivity|].
  rewrite Hbody. rewrite Hread in Hread'. injection Hread' as <-. reflexivity.
Qed.

(** ... but a stylesheet that exists and cannot be read takes the page
    down with it: no entry is stored for the page. *)
Lemma AssetProcessor_unreadable_stylesheet fs t :
  fs !! path_join ROOT (js "style.css") = Some (Unreadable t) ->
  AssetProcessor.st_files (AssetProcessor.build ROOT fs) !! js "/index.html" = None.
Proof.
  intros Hcss. unfold AssetProcessor.build. cbn [AssetProcessor.st_files].
  rewrite lookup_insert_ne by js_neq.
  unfold AssetProcessor.tasks. rewrite fold_left_step.
  match goal with |- context [fold_left _ ?l ?s] =>
    destruct (fold_run_task_other fs l s) as [_ Hk]
  end.
  { not_in_list. }
  rewrite Hk by not_in_list.
  unfold AssetProcessor.run_task.
  destruct (existsSync fs _); [|apply lookup_empty].
  replace (AssetProcessor.processFile ROOT fs (js "index.html") (Some AssetProcessor.minifyHTML)
             (AssetProcessor.st_csp AssetProcessor.init_state)) with
    (@None (entry * cspHashes)); [apply lookup_empty|].
  unfold AssetProcessor.processFile.
  destruct (readFile fs _) as [content|]; [|reflexivity].
  destruct (stat_mtimeMs fs _) as [t'|]; [|reflexivity].
  cbn [mbind option_bind]. rewrite bool_decide_eq_true_2 by reflexivity.
  assert (Hex : existsSync fs (path_join ROOT (js "style.css")) = true).
  { unfold existsSync. rewrite Hcss. apply bool_decide_eq_true_2. eexists; reflexivity. }
  assert (Hrd : readFile fs (path_join ROOT (js "style.css")) = None).
  { unfold readFile. rewrite Hcss. reflexivity. }
  unfold AssetProcessor.inline_assets. rewrite Hex, Hrd. reflexivity.
Qed.

End AssetProcessorBuild.

(** C1 on [server.js]: the hashes are taken from the page as it is
    read, before it is minified.  For a page whose inline style is only
    a comment, the policy allows the hash of the comment, while the
    stored page has an empty [style] element and so no inline body at
    all. *)
Theorem Server_build_policy_mismatch (L : Libs) ROOT fs st src :
  Server.build ROOT fs = Some st ->
  readFile fs (path_join ROOT (js "index.html")) = Some src ->
  utf8_decode src = js "<style>/* x */</style><p>hi</p>" ->
  let token := Server.sha256_token (sha256_base64 (js "/* x */")) in
  exists e,
    Server.st_files st !! js "/index.html" = Some (Asset e)
    /\ e_body e = utf8_encode (js "<style></style><p>hi</p>")
    /\ Server.extractInlineContent (js "<style></style><p>hi</p>") = mkCspHashes [] []
    /\ Server.st_csp st = mkCspHashes [] [token]
    /\ Server.st_files st !! js "__csp__"
       = Some (Policy (Server.generateCSP (mkCspHashes [] [token]))).
Proof.
  intros Hb Hread Hdec token.
  destruct (Server_build_page ROOT fs st Hb) as (src' & e & Hread' & Hcsp & Hpol & He & Hbody).
  rewrite Hread in Hread'. injection Hread' as <-.
  rewrite Hdec in Hcsp, Hbody.
  assert (Hmin : Server.minifyHTML (js "<style>/* x */</style><p>hi</p>")
                 = js "<style></style><p>hi</p>") by (vm_compute; reflexivity).
  assert (Hex : Server.extractInlineContent (js "<style>/* x */</style><p>hi</p>")
                = mkCspHashes [] [token]) by (vm_compute; reflexivity).
  exists e. split; [exact He|].
  split; [rewrite Hbody, Hmin; reflexivity|].
  split; [vm_compute; reflexivity|].
  split; [rewrite Hcsp; exact Hex|].
  rewrite Hpol, Hcsp, Hex. reflexivity.
Qed.

Lemma Server_build_policy_mismatch_witness :
  exists st e,
    Server.build (H := Sample.libs) Sample.ROOT Sample.site = Some st
    /\ Server.st_files st !! js "/index.html" = Some (Asset e)
    /\ e_body e = Sample.bytes "<style></style><p>hi</p>"
    /\ Server.st_csp st
       = mkCspHashes [] [Server.sha256_token (sha256_base64 (Libs := Sample.libs) (js "/* x */"))].
Proof.
  eexists _.
  match goal with |- exists e, ?B = Some ?st /\ _ =>
    assert (Hb : B = Some st) by (vm_compute; reflexivity)
  end.
  destruct (Server_build_policy_mismatch Sample.libs Sample.ROOT Sample.site _
              (Sample.bytes "<style>/* x */</style><p>hi</p>") Hb)
    as (e & He & Hbody & _ & Hcsp & _).
  - vm_compute. reflexivity.
  - vm_compute. reflexivity.
  - exists e. split; [exact Hb|]. split; [exact He|]. split; [exact Hbody | exact Hcsp].
Defined.

(** C5 on [server.js]: the page, the stylesheet and the script are
    loaded without a presence check, so a stylesheet that cannot be
    read rejects the whole build: nothing is served. *)
Theorem Server_build_fails_without_stylesheet (L : Libs) ROOT fs :
  readFile fs (path_join ROOT (js "style.css")) = None ->
  Server.build ROOT fs = None.
Proof.
  intros Hread. apply (Server_build_rejected ROOT fs (js "style.css")); [|exact Hread].
  right. left.
Qed.

Lemma Server_build_fails_without_stylesheet_witness :
  readFile Sample.site_without_css
    (path_join (Libs := Sample.libs) Sample.ROOT (js "style.css")) = None
  /\ Server.build (H := Sample.libs) Sample.ROOT Sample.site_without_css = None.
Proof.
  assert (Hread : readFile Sample.site_without_css
                    (path_join (Libs := Sample.libs) Sample.ROOT (js "style.css")) = None)
    by (vm_compute; reflexivity).
  split; [exact Hread|].
  exact (Server_build_fails_without_stylesheet Sample.libs Sample.ROOT
           Sample.site_without_css Hread).
Defined.

(** The class-based script builds the same site without its stylesheet. *)
Example AssetProcessor_build_without_stylesheet :
  let files :=
    AssetProcessor.st_files
      (AssetProcessor.build (H := Sample.libs) Sample.ROOT Sample.site_without_css) in
  dom files = {[ js "/index.html"; js "/script.js"; js "/robots.txt"; js "__csp__" ]}.
Proof. apply (bool_decide_unpack _). vm_compute. exact I. Qed.

(* ===================================================================== *)
(** * The minifiers on plain text, and where they break *)
(* ===================================================================== *)

(** Boolean comparisons as propositions, for [lia]. *)
Ltac to_prop :=
  repeat match goal with
         | H : _ = true |- _ =>
             first [ apply andb_true_iff in H; destruct H
                   | apply orb_true_iff in H; destruct H
                   | apply negb_true_iff in H
                   | apply N.leb_le in H | apply N.ltb_lt in H | apply N.eqb_eq in H ]
         | H : _ = false |- _ =>
             first [ apply andb_false_iff in H; destruct H
                   | apply orb_false_iff in H; destruct H
                   | apply negb_false_iff in H
                   | apply N.leb_gt in H | apply N.ltb_ge in H | apply N.eqb_neq in H ]
         end.

Ltac bool_lia :=
  lazymatch goal with
  | |- ?b = false => destruct b eqn:?; [exfalso|reflexivity]
  | |- ?b = true => destruct b eqn:?; [reflexivity|exfalso]
  end; to_prop; subst; try lia.

Lemma alpha_not_space c : isAlpha c = true -> isSpace c = false.
Proof. unfold isAlpha, isUpper, isLower, isSpace. intros H. bool_lia. Qed.

Lemma alpha_not_digit c : isAlpha c = true -> isDigit c = false.
Proof. unfold isAlpha, isUpper, isLower, isDigit. intros H. bool_lia. Qed.

Lemma alpha_swapcase c : isAlpha c = true -> isAlpha (swapcase c) = true.
Proof.
  unfold swapcase, isAlpha, isUpper, isLower. intros H.
  destruct ((97 <=? c) && (c <=? 122)) eqn:Hl; [|destruct ((65 <=? c) && (c <=? 90)) eqn:Hu].
  - bool_lia.
  - bool_lia.
  - discriminate H.
Qed.

Lemma item_no_letter_match it c :
  Spec.item_no_letter it = true -> isAlpha c = true -> citem_match c it = false.
Proof.
  intros Hit Hc. destruct it as [a|lo hi| | | |]; cbn in *; try discriminate.
  - apply negb_true_iff in Hit. destruct (N.eqb_spec a c); [congruence|reflexivity].
  - unfold isAlpha, isUpper, isLower in Hc. bool_lia.
  - apply alpha_not_space, Hc.
  - apply alpha_not_digit, Hc.
Qed.

Lemma class_no_letter fl items c :
  forallb Spec.item_no_letter items = true -> isAlpha c = true ->
  class_match fl false items c = false.
Proof.
  intros Hit Hc. unfold class_match. cbn [xorb].
  assert (Hno : forall d, isAlpha d = true -> existsb (citem_match d) items = false).
  { intros d Hd. induction items as [|it items IH]; [reflexivity|].
    cbn in *. apply andb_true_iff in Hit as [H1 H2].
    rewrite (item_no_letter_match it d H1 Hd). cbn. apply IH, H2. }
  rewrite (Hno c Hc), (Hno (swapcase c) (alpha_swapcase c Hc)).
  destruct (ignoreCase fl); reflexivity.
Qed.

Lemma char_no_letter fl a c :
  isAlpha a = false -> isAlpha c = true -> char_eq fl a c = false.
Proof.
  unfold char_eq, canon, isAlpha, isUpper, isLower. intros Ha Hc.
  destruct (ignoreCase fl).
  - destruct ((97 <=? a) && (a <=? 122)) eqn:Hla; [rewrite orb_true_r in Ha; discriminate|].
    destruct ((97 <=? c) && (c <=? 122)) eqn:Hlc; bool_lia.
  - bool_lia.
Qed.

Lemma step1_plain x ok k cs :
  Spec.letters (p_rest x) ->
  (forall c, isAlpha c = true -> ok c = false) \/ Spec.dead k ->
  step1 x ok k cs = None.
Proof.
  intros Hx Hor. unfold step1. destruct x as [prev [|c t]]; cbn in *; [reflexivity|].
  apply Forall_cons in Hx as [Hc Ht].
  destruct Hor as [Hok|Hk].
  - rewrite (Hok c Hc). reflexivity.
  - destruct (ok c); [apply Hk; exact Ht | reflexivity].
Qed.

Lemma match_text_plain fl w : forall x y,
  match_text fl w x = Some y -> Spec.letters (p_rest x) -> Spec.letters (p_rest y).
Proof.
  induction w as [|a w IH]; intros x y Hm Hx; cbn in Hm.
  - injection Hm as <-. exact Hx.
  - destruct x as [prev [|c t]]; cbn in *; [discriminate|].
    destruct (char_eq fl a c); [|discriminate].
    apply Forall_cons in Hx as [_ Ht]. exact (IH _ _ Hm Ht).
Qed.

Lemma rep_loop_plain m gs greedy k (needed : bool) :
  (forall x cs k', Spec.letters (p_rest x) -> needed = true \/ Spec.dead k' -> m x cs k' = None) ->
  forall fuel mn mx x cs,
    Spec.letters (p_rest x) ->
    (mn <> 0%nat /\ mx <> Some 0%nat /\ needed = true) \/ Spec.dead k ->
    rep_loop m gs greedy k fuel mn mx x cs = None.
Proof.
  intros Hm. induction fuel as [|fuel IH]; intros mn mx x cs Hx Hor; [reflexivity|].
  cbn [rep_loop].
  assert (Hk : Spec.dead k -> k x cs = None) by (intros Hd; apply Hd, Hx).
  assert (Hd : Spec.dead k ->
               Spec.dead (fun y cs' =>
                       if Nat.eqb mn 0 && Nat.eqb (length (p_rest y)) (length (p_rest x))
                       then None
                       else rep_loop m gs greedy k fuel (Nat.pred mn) (Nat.pred <$> mx) y cs')).
  { intros Hdk y cs' Hy. destruct (_ && _); [reflexivity|]. apply IH; [exact Hy | right; exact Hdk]. }
  destruct mx as [[|n]|].
  - destruct Hor as [(_ & Hmx & _)|Hdk]; [congruence | exact (Hk Hdk)].
  - destruct Hor as [(Hmn & _ & Hn)|Hdk].
    + destruct (Nat.eqb_spec mn 0); [contradiction|]. cbn [negb].
      apply Hm; [exact Hx | left; exact Hn].
    + destruct (negb (Nat.eqb mn 0)); [apply Hm; [exact Hx | right; exact (Hd Hdk)]|].
      destruct greedy; rewrite (Hm x _ _ Hx (or_intror (Hd Hdk))), (Hk Hdk); reflexivity.
  - destruct Hor as [(Hmn & _ & Hn)|Hdk].
    + destruct (Nat.eqb_spec mn 0); [contradiction|]. cbn [negb].
      apply Hm; [exact Hx | left; exact Hn].
    + destruct (negb (Nat.eqb mn 0)); [apply Hm; [exact Hx | right; exact (Hd Hdk)]|].
      destruct greedy; rewrite (Hm x _ _ Hx (or_intror (Hd Hdk))), (Hk Hdk); reflexivity.
Qed.

(** A pattern that needs a code unit other than a letter fails in
    plain text, and so does any pattern whose continuation fails. *)
Lemma rmatch_plain fl r : forall x cs k,
  Spec.letters (p_rest x) ->
  Spec.needs_other r = true \/ Spec.dead k ->
  rmatch fl r x cs k = None.
Proof.
  induction r as [|a| |neg items|r1 IH1 r2 IH2|r1 IH1 r2 IH2|mn mx greedy r IH
                 |n r IH|n|r IH| | |];
    intros x cs k Hx Hor; cbn [rmatch Spec.needs_other] in *.
  - destruct Hor as [?|Hk]; [discriminate | apply Hk, Hx].
  - apply step1_plain; [exact Hx|].
    destruct Hor as [Ha|Hk]; [left | right; exact Hk].
    intros c Hc. apply char_no_letter; [apply negb_true_iff, Ha | exact Hc].
  - apply step1_plain; [exact Hx|].
    destruct Hor as [?|Hk]; [discriminate | right; exact Hk].
  - apply step1_plain; [exact Hx|].
    destruct Hor as [Hit|Hk]; [left | right; exact Hk].
    destruct neg; [discriminate|].
    intros c Hc. apply class_no_letter; assumption.
  - apply IH1; [exact Hx|].
    destruct Hor as [Hn|Hk].
    + apply orb_true_iff in Hn as [Hn|Hn]; [left; exact Hn|].
      right. intros y cs' Hy. apply IH2; [exact Hy | left; exact Hn].
    + right. intros y cs' Hy. apply IH2; [exact Hy | right; exact Hk].
  - destruct Hor as [Hn|Hk].
    + apply andb_true_iff in Hn as [Hn1 Hn2].
      rewrite (IH1 x cs k Hx (or_introl Hn1)). apply IH2; [exact Hx | left; exact Hn2].
    + rewrite (IH1 x cs k Hx (or_intror Hk)). apply IH2; [exact Hx | right; exact Hk].
  - apply (rep_loop_plain (rmatch fl r) (groups r) greedy k (Spec.needs_other r)).
    + intros x' cs' k' Hx' Hor'. apply IH; assumption.
    + exact Hx.
    + destruct Hor as [Hn|Hk]; [left | right; exact Hk].
      apply andb_true_iff in Hn as [Hn Hr]. apply andb_true_iff in Hn as [Hmn Hmx].
      split; [|split; [|exact Hr]].
      * intros ->. discriminate Hmn.
      * intros ->. discriminate Hmx.
  - apply IH; [exact Hx|].
    destruct Hor as [Hn|Hk]; [left; exact Hn|].
    right. intros y cs' Hy. apply Hk, Hy.
  - destruct Hor as [?|Hk]; [discriminate|].
    destruct (cap_get cs n) as [w|]; [|apply Hk, Hx].
    destruct (match_text fl w x) as [y|] eqn:Hm; [|reflexivity].
    apply Hk. exact (match_text_plain fl w x y Hm Hx).
  - destruct Hor as [?|Hk]; [discriminate|].
    destruct (rmatch fl r x cs _); [reflexivity | apply Hk, Hx].
  - destruct Hor as [?|Hk]; [discriminate|].
    destruct (xorb _ _); [apply Hk, Hx | reflexivity].
  - destruct Hor as [?|Hk]; [discriminate|].
    destruct (p_prev x) as [c|]; [|apply Hk, Hx].
    destruct (_ && _); [apply Hk, Hx | reflexivity].
  - destruct Hor as [?|Hk]; [discriminate|].
    destruct (p_rest x) as [|c t] eqn:E; [apply Hk; rewrite E; constructor|].
    destruct (_ && _); [apply Hk; rewrite E; exact Hx | reflexivity].
Qed.

Lemma match_at_plain fl r prev rest :
  Spec.needs_other r = true -> Spec.letters rest -> match_at fl r prev rest = None.
Proof.
  intros Hn Hr. unfold match_at.
  rewrite (rmatch_plain fl r (mkPos prev rest) [] _ Hr (or_introl Hn)). reflexivity.
Qed.

Lemma find_all_plain fl r fuel : forall idx prev rest,
  Spec.needs_other r = true -> Spec.letters rest ->
  find_all fuel fl r idx prev rest = [].
Proof.
  induction fuel as [|fuel IH]; intros idx prev rest Hn Hr; [reflexivity|].
  cbn [find_all]. rewrite (match_at_plain fl r prev rest Hn Hr).
  destruct rest as [|c t]; [reflexivity|].
  apply Forall_cons in Hr as [_ Ht]. apply IH; assumption.
Qed.

(** In plain text such a pattern matches nowhere: [replace] returns
    the text and [match] finds nothing. *)
Lemma replace_g_plain fl r rp s :
  Spec.needs_other r = true -> Spec.letters s -> replace_g fl r rp s = s.
Proof.
  intros Hn Hs. unfold replace_g, exec_all.
  rewrite (find_all_plain fl r _ _ _ _ Hn Hs). reflexivity.
Qed.

Lemma match_g_plain fl r s :
  Spec.needs_other r = true -> Spec.letters s -> match_g fl r s = [].
Proof.
  intros Hn Hs. unfold match_g, exec_all.
  rewrite (find_all_plain fl r _ _ _ _ Hn Hs). reflexivity.
Qed.

Lemma trimStart_plain s : Spec.letters s -> trimStart s = s.
Proof.
  intros Hs. destruct s as [|c t]; [reflexivity|].
  apply Forall_cons in Hs as [Hc _]. cbn. rewrite (alpha_not_space c Hc). reflexivity.
Qed.

Lemma trim_plain s : Spec.letters s -> trim s = s.
Proof.
  intros Hs. unfold trim. rewrite (trimStart_plain s Hs).
  rewrite trimStart_plain by (apply Forall_rev, Hs).
  apply rev_involutive.
Qed.

Ltac plain_chain s :=
  repeat first [ rewrite (replace_g_plain _ _ _ s) by (first [reflexivity | assumption])
               | rewrite (trim_plain s) by assumption ].

Lemma minifyCSS_plain s : Spec.letters s -> Server.minifyCSS s = s.
Proof.
  intros Hs. unfold Server.minifyCSS, Server.gradient.
  plain_chain s. reflexivity.
Qed.

Lemma minifyHTML_plain s : Spec.letters s -> Server.minifyHTML s = s.
Proof.
  intros Hs. unfold Server.minifyHTML.
  plain_chain s. reflexivity.
Qed.

Lemma alpha_neq c a : isAlpha c = true -> isAlpha a = false -> (c =? a) = false.
Proof.
  intros Hc Ha. destruct (N.eqb_spec c a); [congruence | reflexivity].
Qed.

Lemma letters_lookup (src : jstring) i c :
  Spec.letters src -> src !! i = Some c -> isAlpha c = true.
Proof. intros Hs Hi. exact (Forall_lookup_1 _ _ _ _ Hs Hi). Qed.

Lemma pass1_step_plain src i c :
  src !! i = Some c -> isAlpha c = true ->
  Server.pass1_step src (Server.mkScan1 i (take i src) false None false false)
  = Server.mkScan1 (S i) (take (S i) src) false None false false.
Proof.
  intros Hi Hc. unfold Server.pass1_step. cbn -[take].
  rewrite Hi. cbn -[take].
  rewrite !(alpha_neq c) by (assumption || reflexivity). cbn -[take].
  rewrite (take_S_r _ _ _ Hi). reflexivity.
Qed.

Lemma pass1_loop_plain src : Spec.letters src -> forall fuel i,
  (i <= length src)%nat -> (length src - i <= fuel)%nat ->
  Server.pass1_loop fuel src (Server.mkScan1 i (take i src) false None false false)
  = Server.mkScan1 (length src) src false None false false.
Proof.
  intros Hs. induction fuel as [|fuel IH]; intros i Hi Hfuel;
    cbn [Server.pass1_loop Server.s_i].
  - replace i with (length src) by lia. rewrite firstn_all. reflexivity.
  - destruct (Nat.ltb_spec i (length src)) as [Hlt|Hge].
    + destruct (lookup_lt_is_Some_2 src i Hlt) as [c Hc].
      rewrite (pass1_step_plain src i c Hc).
      * apply IH; lia.
      * exact (letters_lookup _ _ _ Hs Hc).
    + replace i with (length src) by lia. rewrite firstn_all. reflexivity.
Qed.

Lemma pass1_plain src :
  Spec.letters src -> Server.s_out (Server.pass1 src) = src.
Proof.
  intros Hs. unfold Server.pass1, Server.pass1_init.
  pose proof (pass1_loop_plain src Hs (length src) 0%nat) as Hl.
  change (take 0 _) with (@nil N) in Hl. rewrite Hl by lia. reflexivity.
Qed.

Lemma test_class_one neg items c :
  test noflags (Class neg items) [c] = class_match noflags neg items c.
Proof.
  unfold test, find_first, match_at. cbn [rmatch step1 p_rest].
  destruct (class_match noflags neg items c); reflexivity.
Qed.

Lemma pass2_step_plain out j c :
  out !! j = Some c -> isAlpha c = true ->
  Server.pass2_step out (Server.mkScan2 j (take j out) false None false false)
  = Server.mkScan2 (S j) (take (S j) out) false None false false.
Proof.
  intros Hj Hc. unfold Server.pass2_step. cbn -[take test].
  rewrite Hj. cbn -[take test].
  rewrite !(alpha_neq c) by (assumption || reflexivity). cbn -[take test].
  unfold ws, Server.js_punct. rewrite !test_class_one.
  rewrite !class_no_letter by (assumption || reflexivity). cbn -[take].
  rewrite (take_S_r _ _ _ Hj). reflexivity.
Qed.

Lemma pass2_loop_plain out : Spec.letters out -> forall fuel j,
  (j <= length out)%nat -> (length out - j <= fuel)%nat ->
  Server.pass2_loop fuel out (Server.mkScan2 j (take j out) false None false false)
  = Server.mkScan2 (length out) out false None false false.
Proof.
  intros Hs. induction fuel as [|fuel IH]; intros j Hj Hfuel;
    cbn [Server.pass2_loop Server.t_j].
  - replace j with (length out) by lia. rewrite firstn_all. reflexivity.
  - destruct (Nat.ltb_spec j (length out)) as [Hlt|Hge].
    + destruct (lookup_lt_is_Some_2 out j Hlt) as [c Hc].
      rewrite (pass2_step_plain out j c Hc).
      * apply IH; lia.
      * exact (letters_lookup _ _ _ Hs Hc).
    + replace j with (length out) by lia. rewrite firstn_all. reflexivity.
Qed.

Lemma pass2_plain out :
  Spec.letters out -> Server.t_finalOut (Server.pass2 out) = out.
Proof.
  intros Hs. unfold Server.pass2, Server.pass2_init.
  pose proof (pass2_loop_plain out Hs (length out) 0%nat) as Hl.
  change (take 0 _) with (@nil N) in Hl. rewrite Hl by lia. reflexivity.
Qed.

Lemma minifyJS_plain s : Spec.letters s -> Server.minifyJS s = s.
Proof.
  intros Hs. unfold Server.minifyJS.
  rewrite (pass1_plain s Hs), (pass2_plain s Hs).
  unfold Server.rewrites. plain_chain s. reflexivity.
Qed.





(** The example of the specification: the scanner leaves the literal
    alone. *)
Example minifyJS_keeps_literal :
  Server.minifyJS (js "const s = " ++ quoted (js "a  +  b") ++ js ";")
  = js "const s=" ++ quoted (js "a  +  b") ++ js ";".
Proof. vm_compute. reflexivity. Qed.

(** C2 on [server.js]: the rewrites applied after the two scanning
    passes do not know about literals.  The comparison with [true] is
    dropped from inside a string, and the line break from inside a
    template. *)
Theorem Server_minifyJS_rewrites_inside_literals :
  Server.minifyJS (js "x = " ++ quoted (js "a===true") ++ js ";")
  = js "x=" ++ quoted (js "a") ++ js ";"
  /\ Server.minifyJS (js "y = " ++ [backtick; ch "a"; LF; ch "b"; backtick] ++ js ";")
     = js "y=" ++ [backtick; ch "a"; ch "b"; backtick] ++ js ";".
Proof. split; vm_compute; reflexivity. Qed.

(** C2 on the class-based script: a literal is put back with
    [String.prototype.replace], which expands the dollar patterns of
    the literal itself. *)
Lemma AssetProcessor_minifyJS_dollar_in_literal :
  AssetProcessor.minifyJS (js "x = " ++ quoted (js "a$$b") ++ js ";")
  = js "x=" ++ quoted (js "a$b") ++ js ";".
Proof. vm_compute. reflexivity. Qed.

(* ===================================================================== *)
(** * [build] of [server.js]: when it succeeds and what it stores *)
(* ===================================================================== *)

Section ServerManifest.
Context `{Libs}.
Variable ROOT : jstring.

(** A file that can be read can be stat-ed. *)
Lemma readFile_stat fs p src :
  readFile fs p = Some src -> is_Some (stat_mtimeMs fs p).
Proof.
  unfold readFile, stat_mtimeMs. destruct (fs !! p) as [[c t|t|]|]; intros Hr;
    try discriminate; eauto.
Qed.

(** [loadAndMinify] is rejected exactly when the file cannot be read;
    otherwise it stores one entry under the public path. *)
Lemma loadAndMinify_stores fs relPath minify st :
  match Server.loadAndMinify ROOT fs relPath minify st with
  | Some st' =>
      exists src e,
        readFile fs (path_join ROOT relPath) = Some src
        /\ Server.st_files st' = <[Server.public_path relPath := Asset e]> (Server.st_files st)
        /\ e_body e = match minify with
                      | Some f => utf8_encode (f (utf8_decode src))
                      | None => src
                      end
        /\ e_type e = Server.contentTypeFor relPath
        /\ e_cache e = Server.cacheControlFor relPath
  | None => readFile fs (path_join ROOT relPath) = None
  end.
Proof.
  unfold Server.loadAndMinify.
  destruct (readFile fs _) as [src|] eqn:Hr; [|reflexivity].
  destruct (readFile_stat _ _ _ Hr) as [t ->].
  cbn [mbind option_bind]. eexists src, _. repeat split.
Qed.

End ServerManifest.

Section ServerManifest2.
Context `{Libs}.
Variable ROOT : jstring.

Lemma loadAndMinify_rejected fs relPath minify st :
  Server.loadAndMinify ROOT fs relPath minify st = None
  <-> readFile fs (path_join ROOT relPath) = None.
Proof.
  pose proof (loadAndMinify_stores ROOT fs relPath minify st) as Hl.
  destruct (Server.loadAndMinify ROOT fs relPath minify st).
  - destruct Hl as (src & e & Hr & _). rewrite Hr. split; discriminate.
  - split; [intros _; exact Hl | reflexivity].
Qed.

(** What the loop over the static assets does to the table. *)
Lemma load_static_stores fs l : forall st st',
  NoDup (map Server.public_path l) ->
  Server.load_static ROOT fs l st = Some st' ->
  (forall k, k ∉ map Server.public_path l ->
     Server.st_files st' !! k = Server.st_files st !! k)
  /\ (forall f, f ∈ l ->
        if existsSync fs (path_join ROOT f) then
          exists src e,
            readFile fs (path_join ROOT f) = Some src
            /\ Server.st_files st' !! Server.public_path f = Some (Asset e)
            /\ e_body e = src
            /\ e_type e = Server.contentTypeFor f
            /\ e_cache e = Server.cacheControlFor f
        else Server.st_files st' !! Server.public_path f
             = Server.st_files st !! Server.public_path f).
Proof.
  induction l as [|f l IH]; intros st st' Hnd Hl; cbn [Server.load_static] in Hl.
  - injection Hl as <-. split; [reflexivity|]. intros f Hf. inversion Hf.
  - cbn [map] in Hnd. apply NoDup_cons in Hnd as [Hf Hnd].
    destruct (existsSync fs (path_join ROOT f)) eqn:Hex.
    + pose proof (loadAndMinify_stores ROOT fs f None st) as Hload.
      destruct (Server.loadAndMinify ROOT fs f None st) as [st1|]; [|discriminate].
      destruct Hload as (src & e & Hr & Hfiles & Hbody & Hty & Hca).
      cbn [mbind option_bind] in Hl.
      destruct (IH st1 st' Hnd Hl) as (Hk & Hin).
      split.
      * intros k Hnk. cbn [map] in Hnk. apply not_elem_of_cons in Hnk as [Hkf Hkl].
        rewrite (Hk k Hkl), Hfiles. apply lookup_insert_ne. congruence.
      * intros g Hg. apply elem_of_cons in Hg as [->|Hg].
        -- rewrite Hex. exists src, e. split; [exact Hr|].
           split; [|repeat split; assumption].
           rewrite (Hk _ Hf), Hfiles. apply lookup_insert_eq.
        -- specialize (Hin g Hg).
           destruct (existsSync fs (path_join ROOT g)); [exact Hin|].
           rewrite Hin, Hfiles. apply lookup_insert_ne.
           intros Heq. apply Hf. rewrite Heq.
           apply list_elem_of_In, in_map, list_elem_of_In, Hg.
    + destruct (IH st st' Hnd Hl) as (Hk & Hin).
      split.
      * intros k Hnk. cbn [map] in Hnk. apply not_elem_of_cons in Hnk as [_ Hkl].
        exact (Hk k Hkl).
      * intros g Hg. apply elem_of_cons in Hg as [->|Hg].
        -- rewrite Hex. exact (Hk _ Hf).
        -- exact (Hin g Hg).
Qed.

Lemma load_static_rejected fs l : forall st,
  Server.load_static ROOT fs l st = None
  <-> exists f, f ∈ l /\ existsSync fs (path_join ROOT f) = true
                /\ readFile fs (path_join ROOT f) = None.
Proof.
  induction l as [|f l IH]; intros st; cbn [Server.load_static].
  - split; [discriminate|]. intros (f & Hf & _). inversion Hf.
  - destruct (existsSync fs (path_join ROOT f)) eqn:Hex.
    + destruct (Server.loadAndMinify ROOT fs f None st) as [st1|] eqn:H1;
        cbn [mbind option_bind].
      * rewrite IH. split; intros (g & Hg & Hge & Hgr).
        -- exists g. split; [right; exact Hg|]. split; assumption.
        -- apply elem_of_cons in Hg as [->|Hg].
           ++ apply (loadAndMinify_rejected fs f None st) in Hgr.
              rewrite Hgr in H1. discriminate.
           ++ exists g. repeat split; assumption.
      * split; [intros _|reflexivity].
        exists f. split; [left|]. split; [exact Hex|].
        apply (loadAndMinify_rejected fs f None st), H1.
    + rewrite IH. split; intros (g & Hg & Hge & Hgr).
      * exists g. split; [right; exact Hg|]. split; assumption.
      * apply elem_of_cons in Hg as [->|Hg]; [congruence|].
        exists g. repeat split; assumption.
Qed.

End ServerManifest2.

Lemma static_assets_nodup : NoDup (map Server.public_path Server.static_assets).
Proof. apply (bool_decide_unpack _). vm_compute. exact I. Qed.

(** [build] of [server.js] succeeds exactly when the page, the
    stylesheet and the script can be read and every static asset that
    exists can be read. *)
Theorem Server_build_succeeds_iff (L : Libs) ROOT fs :
  is_Some (Server.build ROOT fs)
  <-> (forall f, f ∈ map fst Spec.core_files ->
         is_Some (readFile fs (path_join ROOT f)))
      /\ (forall f, f ∈ Server.static_assets ->
            existsSync fs (path_join ROOT f) = true ->
            is_Some (readFile fs (path_join ROOT f))).
Proof.
  assert (Hopt : forall o : option buffer, is_Some o <-> o <> None).
  { intros [b|]; split; intros Ho; try (eexists; reflexivity); try congruence.
    destruct Ho; discriminate. }
  unfold Server.build. split.
  - intros [st Hb].
    destruct (Server.loadAndMinify ROOT fs (js "index.html") _ _) as [st1|] eqn:H1; [|discriminate].
    cbn [mbind option_bind] in Hb.
    destruct (Server.loadAndMinify ROOT fs (js "style.css") _ st1) as [st2|] eqn:H2; [|discriminate].
    cbn [mbind option_bind] in Hb.
    destruct (Server.loadAndMinify ROOT fs (js "script.js") _ st2) as [st3|] eqn:H3; [|discriminate].
    cbn [mbind option_bind] in Hb.
    destruct (Server.load_static ROOT fs _ st3) as [st4|] eqn:H4; [|discriminate].
    split.
    + intros f Hf. cbn in Hf. apply Hopt. intros Hn.
      repeat (apply elem_of_cons in Hf as [->|Hf]); [| | |inversion Hf].
      * rewrite (proj2 (loadAndMinify_rejected ROOT fs _ _ _) Hn) in H1. discriminate.
      * rewrite (proj2 (loadAndMinify_rejected ROOT fs _ _ _) Hn) in H2. discriminate.
      * rewrite (proj2 (loadAndMinify_rejected ROOT fs _ _ _) Hn) in H3. discriminate.
    + intros f Hf Hex. apply Hopt. intros Hn.
      assert (Hrej : Server.load_static ROOT fs Server.static_assets st3 = None).
      { apply load_static_rejected. exists f. repeat split; assumption. }
      rewrite Hrej in H4. discriminate.
  - intros [Hcore Hstatic].
    assert (Hload : forall f m st, f ∈ map fst Spec.core_files ->
                      is_Some (Server.loadAndMinify ROOT fs f m st)).
    { intros f m st Hf. specialize (Hcore f Hf). apply Hopt in Hcore.
      destruct (Server.loadAndMinify ROOT fs f m st) eqn:E; [eexists; reflexivity|].
      apply (proj1 (loadAndMinify_rejected ROOT fs _ _ _)) in E. contradiction. }
    destruct (Hload (js "index.html") (Some Server.minifyHTML) Server.init_state) as [st1 ->];
      [unfold Spec.core_files; cbn [map fst]; repeat constructor|]. cbn [mbind option_bind].
    destruct (Hload (js "style.css") (Some Server.minifyCSS) st1) as [st2 ->];
      [unfold Spec.core_files; cbn [map fst]; repeat constructor|]. cbn [mbind option_bind].
    destruct (Hload (js "script.js") (Some Server.minifyJS) st2) as [st3 ->];
      [unfold Spec.core_files; cbn [map fst]; repeat constructor|]. cbn [mbind option_bind].
    destruct (Server.load_static ROOT fs Server.static_assets st3) as [st4|] eqn:H4;
      [cbn [mbind option_bind]; eexists; reflexivity|].
    apply load_static_rejected in H4 as (f & Hf & Hex & Hr).
    specialize (Hstatic f Hf Hex). rewrite Hr in Hstatic. destruct Hstatic; discriminate.
Qed.

Section ServerSteps.
Context `{Libs}.
Variable ROOT : jstring.

(** The steps of a successful [build]: three entries, then the static
    assets, then the policy. *)
Lemma build_steps fs st :
  Server.build ROOT fs = Some st ->
  exists s1 e1 s2 e2 s3 e3 st3 st4,
    (readFile fs (path_join ROOT (js "index.html")) = Some s1
     /\ e_body e1 = utf8_encode (Server.minifyHTML (utf8_decode s1))
     /\ e_type e1 = Server.contentTypeFor (js "index.html")
     /\ e_cache e1 = Server.cacheControlFor (js "index.html"))
    /\ (readFile fs (path_join ROOT (js "style.css")) = Some s2
        /\ e_body e2 = utf8_encode (Server.minifyCSS (utf8_decode s2))
        /\ e_type e2 = Server.contentTypeFor (js "style.css")
        /\ e_cache e2 = Server.cacheControlFor (js "style.css"))
    /\ (readFile fs (path_join ROOT (js "script.js")) = Some s3
        /\ e_body e3 = utf8_encode (Server.minifyJS (utf8_decode s3))
        /\ e_type e3 = Server.contentTypeFor (js "script.js")
        /\ e_cache e3 = Server.cacheControlFor (js "script.js"))
    /\ Server.st_files st3
       = <[Server.public_path (js "script.js") := Asset e3]>
           (<[Server.public_path (js "style.css") := Asset e2]>
              (<[Server.public_path (js "index.html") := Asset e1]> ∅))
    /\ Server.load_static ROOT fs Server.static_assets st3 = Some st4
    /\ st = Server.mkState (Server.st_csp st4)
              (<[js "__csp__" := Policy (Server.generateCSP (Server.st_csp st4))]>
                 (Server.st_files st4)).
Proof.
  unfold Server.build. intros Hb.
  pose proof (loadAndMinify_stores ROOT fs (js "index.html") (Some Server.minifyHTML)
                Server.init_state) as L1.
  destruct (Server.loadAndMinify ROOT fs (js "index.html") _ _) as [st1|]; [|discriminate].
  cbn [mbind option_bind] in Hb.
  pose proof (loadAndMinify_stores ROOT fs (js "style.css") (Some Server.minifyCSS) st1) as L2.
  destruct (Server.loadAndMinify ROOT fs (js "style.css") _ st1) as [st2|]; [|discriminate].
  cbn [mbind option_bind] in Hb.
  pose proof (loadAndMinify_stores ROOT fs (js "script.js") (Some Server.minifyJS) st2) as L3.
  destruct (Server.loadAndMinify ROOT fs (js "script.js") _ st2) as [st3|]; [|discriminate].
  cbn [mbind option_bind] in Hb.
  destruct (Server.load_static ROOT fs _ st3) as [st4|] eqn:H4; [|discriminate].
  cbn [mbind option_bind] in Hb. injection Hb as <-.
  destruct L1 as (s1 & e1 & R1 & F1 & B1 & T1 & C1).
  destruct L2 as (s2 & e2 & R2 & F2 & B2 & T2 & C2).
  destruct L3 as (s3 & e3 & R3 & F3 & B3 & T3 & C3).
  exists s1, e1, s2, e2, s3, e3, st3, st4.
  split; [repeat split; assumption|].
  split; [repeat split; assumption|].
  split; [repeat split; assumption|].
  split; [rewrite F3, F2, F1; reflexivity|].
  split; [exact H4 | reflexivity].
Qed.

(** The entry a successful [build] stores for a core file. *)
Lemma build_core_entry fs st f g :
  Server.build ROOT fs = Some st ->
  (f, g) ∈ Spec.core_files ->
  exists src e,
    readFile fs (path_join ROOT f) = Some src
    /\ Server.st_files st !! Server.public_path f = Some (Asset e)
    /\ e_body e = utf8_encode (g (utf8_decode src))
    /\ e_type e = Server.contentTypeFor f
    /\ e_cache e = Server.cacheControlFor f.
Proof.
  intros Hb Hf.
  destruct (build_steps fs st Hb)
    as (s1 & e1 & s2 & e2 & s3 & e3 & st3 & st4 & (R1 & B1 & T1 & C1) & (R2 & B2 & T2 & C2)
        & (R3 & B3 & T3 & C3) & F3 & H4 & ->).
  destruct (load_static_stores ROOT fs _ _ _ static_assets_nodup H4) as (Hk & _).
  cbn [Server.st_files]. unfold Spec.core_files in Hf.
  repeat (apply elem_of_cons in Hf as [Hf|Hf]); [| | |inversion Hf];
    injection Hf as -> ->; eexists _, _; (split; [eassumption|]);
    (split; [|repeat split; eassumption]);
    rewrite lookup_insert_ne by js_neq; rewrite Hk by not_in_list; rewrite F3.
  - rewrite !lookup_insert_ne by js_neq. apply lookup_insert_eq.
  - rewrite lookup_insert_ne by js_neq. apply lookup_insert_eq.
  - apply lookup_insert_eq.
Qed.

Lemma build_policy_stored fs st :
  Server.build ROOT fs = Some st ->
  Server.st_files st !! js "__csp__"
  = Some (Policy (Server.generateCSP (Server.st_csp st))).
Proof.
  intros Hb.
  destruct (build_steps fs st Hb) as (? & ? & ? & ? & ? & ? & ? & st4 & _ & _ & _ & _ & _ & ->).
  cbn [Server.st_files Server.st_csp]. apply lookup_insert_eq.
Qed.

End ServerSteps.

(** What a successful [build] of [server.js] leaves in the table: the
    three core files minified, each static asset that exists as it is
    read, the policy under [__csp__], and nothing else. *)
Theorem Server_build_table (L : Libs) ROOT fs st :
  Server.build ROOT fs = Some st ->
  (forall f g, (f, g) ∈ Spec.core_files ->
     exists src e,
       readFile fs (path_join ROOT f) = Some src
       /\ Server.st_files st !! Server.public_path f = Some (Asset e)
       /\ e_body e = utf8_encode (g (utf8_decode src))
       /\ e_type e = Server.contentTypeFor f
       /\ e_cache e = Server.cacheControlFor f)
  /\ (forall f, f ∈ Server.static_assets ->
        if existsSync fs (path_join ROOT f) then
          exists src e,
            readFile fs (path_join ROOT f) = Some src
            /\ Server.st_files st !! Server.public_path f = Some (Asset e)
            /\ e_body e = src
            /\ e_type e = Server.contentTypeFor f
            /\ e_cache e = Server.cacheControlFor f
        else Server.st_files st !! Server.public_path f = None)
  /\ Server.st_files st !! js "__csp__"
     = Some (Policy (Server.generateCSP (Server.st_csp st)))
  /\ (forall k, is_Some (Server.st_files st !! k) ->
        k = js "__csp__"
        \/ k ∈ map Server.public_path (map fst Spec.core_files ++ Server.static_assets)).
Proof.
  intros Hb.
  split; [intros f g Hf; exact (build_core_entry ROOT fs st f g Hb Hf)|].
  split; [|split; [exact (build_policy_stored ROOT fs st Hb)|]].
  - destruct (build_steps ROOT fs st Hb)
      as (s1 & e1 & s2 & e2 & s3 & e3 & st3 & st4 & _ & _ & _ & F3 & H4 & ->).
    destruct (load_static_stores ROOT fs _ _ _ static_assets_nodup H4) as (Hk & Hin).
    cbn [Server.st_files].
    intros f Hf. specialize (Hin f Hf).
    assert (Hne : Server.public_path f <> js "__csp__").
    { intros E. apply (f_equal head) in E. vm_compute in E. discriminate E. }
    destruct (existsSync fs (path_join ROOT f)).
    + destruct Hin as (src & e & Hr & Hl & Hrest).
      exists src, e. split; [exact Hr|]. split; [|exact Hrest].
      rewrite lookup_insert_ne by congruence. exact Hl.
    + rewrite lookup_insert_ne by congruence. rewrite Hin, F3.
      unfold Server.static_assets in Hf.
      repeat (apply elem_of_cons in Hf as [->|Hf]); [| | | |inversion Hf];
        rewrite !lookup_insert_ne by js_neq; apply lookup_empty.
  - destruct (build_steps ROOT fs st Hb)
      as (s1 & e1 & s2 & e2 & s3 & e3 & st3 & st4 & _ & _ & _ & F3 & H4 & ->).
    destruct (load_static_stores ROOT fs _ _ _ static_assets_nodup H4) as (Hk & Hin).
    cbn [Server.st_files].
    intros k [v Hv].
    destruct (decide (k = js "__csp__")) as [->|Hk1]; [left; reflexivity|right].
    rewrite lookup_insert_ne in Hv by congruence.
    destruct (decide (k ∈ map Server.public_path Server.static_assets)) as [Hs|Hs].
    + rewrite map_app. apply elem_of_app. right. exact Hs.
    + rewrite Hk in Hv by exact Hs. rewrite F3 in Hv.
      rewrite map_app. apply elem_of_app. left.
      unfold Spec.core_files. cbn [map fst].
      repeat match type of Hv with
             | <[?a := _]> _ !! k = _ =>
                 destruct (decide (a = k)) as [<-|?];
                 [repeat constructor | rewrite lookup_insert_ne in Hv by assumption]
             end.
      rewrite lookup_empty in Hv. discriminate.
Qed.

Lemma Server_build_table_witness :
  exists st e,
    Server.build (H := Sample.libs) Sample.ROOT Sample.site = Some st
    /\ Server.st_files st !! Server.public_path (js "style.css") = Some (Asset e)
    /\ e_body e = Sample.bytes "a{color:red}".
Proof.
  eexists _.
  match goal with |- exists e, ?B = Some ?st /\ _ =>
    assert (Hb : B = Some st) by (vm_compute; reflexivity)
  end.
  destruct (proj1 (Server_build_table Sample.libs Sample.ROOT Sample.site _ Hb)
              (js "style.css") Server.minifyCSS)
    as (src & e & Hr & Hl & Hbody & _).
  - unfold Spec.core_files. right. left.
  - exists e. split; [exact Hb|]. split; [exact Hl|].
    rewrite Hbody. vm_compute in Hr. injection Hr as <-. vm_compute. reflexivity.
Defined.

(* ===================================================================== *)
(** * The key an asset is filed under *)
(* ===================================================================== *)

Section PublicPath.

Lemma drop_cons_lookup {A} (s : list A) idx c rest :
  drop idx s = c :: rest ->
  s !! idx = Some c /\ drop (S idx) s = rest /\ (idx < length s)%nat.
Proof.
  intros Hd. split; [|split].
  - rewrite <- (Nat.add_0_r idx), <- lookup_drop, Hd. reflexivity.
  - replace (S idx) with (idx + 1)%nat by lia. rewrite <- drop_drop, Hd. reflexivity.
  - apply (f_equal length) in Hd. rewrite length_drop in Hd. cbn [length] in Hd. lia.
Qed.

(** Replacing every occurrence of one character by a template without
    dollar patterns, as the matcher and [replace] do it step by step,
    is a map over the characters. *)
Lemma assemble_chr (a : N) (t s : jstring) :
  (forall mt str pos, getSubstitution mt str pos [] t = t) ->
  forall fuel idx next count prev,
    (idx <= length s)%nat -> (next <= idx)%nat -> (length s - idx < fuel)%nat ->
    assemble (Tpl t) 0 s (find_all fuel noflags (Chr a) idx prev (drop idx s)) count next
    = substring s next (idx - next)
      ++ flat_map (fun c => if c =? a then t else [c]) (drop idx s).
Proof.
  intros Ht. induction fuel as [|fuel IH]; intros idx next count prev Hi Hn Hf; [lia|].
  cbn [find_all]. unfold match_at. cbn [rmatch]. unfold step1. cbn [p_rest].
  destruct (drop idx s) as [|c rest] eqn:Hd.
  - cbn [assemble flat_map]. rewrite app_nil_r. unfold substring.
    apply (f_equal length) in Hd. rewrite length_drop in Hd. cbn [length] in Hd.
    symmetry. apply take_ge. rewrite length_drop. lia.
  - destruct (drop_cons_lookup s idx c rest Hd) as (Hc & Hrest & Hlt).
    unfold char_eq. cbn [ignoreCase noflags].
    destruct (a =? c) eqn:Hac.
    + apply N.eqb_eq in Hac. subst c. cbn [p_rest].
      replace (length (a :: rest) - length rest)%nat with 1%nat by (cbn [length]; lia).
      cbn [drop assemble m_index m_len]. rewrite <- Hrest.
      replace (idx + 1)%nat with (S idx) by lia.
      rewrite (proj2 (Nat.leb_le next idx) Hn).
      rewrite (IH (S idx) (S idx)) by lia.
      replace (S idx - S idx)%nat with 0%nat by lia.
      unfold replacement, cap_list, substring at 2. cbn [seq map take app].
      rewrite Ht. cbn [flat_map]. rewrite N.eqb_refl, Hrest. reflexivity.
    + rewrite <- Hrest. rewrite (IH (S idx) next) by lia.
      cbn [flat_map]. rewrite N.eqb_sym, Hac, Hrest.
      unfold substring.
      replace (S idx - next)%nat with (S (idx - next)) by lia.
      rewrite (take_S_r _ _ c).
      * rewrite <- app_assoc. reflexivity.
      * rewrite lookup_drop. replace (next + (idx - next))%nat with idx by lia. exact Hc.
Qed.

End PublicPath.

(** The key [loadAndMinify] and [processFile] file an asset under is
    the relative path with a slash in front and every backslash turned
    into a slash; so no key contains a backslash, every key starts
    with a slash, and none is the key [__csp__] of the policy. *)
Theorem public_path_slashes (relPath : jstring) :
  Server.public_path relPath
  = ch "/" :: map (fun c => if c =? backslash then ch "/" else c) relPath
  /\ (backslash ∉ Server.public_path relPath)
  /\ Server.public_path relPath <> js "__csp__".
Proof.
  assert (E : Server.public_path relPath
              = ch "/" :: map (fun c => if c =? backslash then ch "/" else c) relPath).
  { unfold Server.public_path, replace_g, exec_all.
    change (ngroups (Chr backslash)) with 0%nat.
    pose proof (assemble_chr backslash (js "/") relPath (fun _ _ _ => eq_refl)
                  (S (length relPath)) 0%nat 0%nat 0%nat None
                  ltac:(lia) ltac:(lia) ltac:(lia)) as Ha.
    unfold substring in Ha. change (drop 0 relPath) with relPath in Ha.
    change (take (0 - 0) relPath) with (@nil N) in Ha. cbn [app] in Ha. rewrite Ha.
    change (js "/") with [ch "/"]. cbn [app]. f_equal. clear Ha.
    induction relPath as [|c l IH]; [reflexivity|].
    cbn [flat_map map]. rewrite IH. destruct (c =? backslash); reflexivity. }
  split; [exact E|]. split.
  - rewrite E. intros Hin. apply elem_of_cons in Hin as [Hb|Hin]; [vm_compute in Hb; discriminate Hb|].
    apply list_elem_of_In, in_map_iff in Hin as (c & Hc & _).
    destruct (c =? backslash) eqn:Hcb.
    + vm_compute in Hc. discriminate Hc.
    + apply N.eqb_neq in Hcb. congruence.
  - rewrite E. intros Hk. vm_compute in Hk. discriminate Hk.
Qed.

(* ===================================================================== *)
(** * server.js: what [handler] sends *)
(* ===================================================================== *)

Section Handler.
Context `{Libs}.
Variable ROOT : jstring.

Lemma generateCSP_nonempty h : Server.generateCSP h <> [].
Proof.
  intros E. apply (f_equal head) in E. vm_compute in E. discriminate E.
Qed.

(** A header that is not one of the fixed ones can be set without
    losing them. *)
Lemma security_headers_kept (name : string) (v : jstring) (h : gmap jstring jstring) :
  security_headers ∅ !! js name = None ->
  security_headers ∅ ⊆ h -> security_headers ∅ ⊆ setHeader name v h.
Proof. intros Hn Hs. unfold setHeader. apply insert_subseteq_r; assumption. Qed.

Lemma setSecurityHeaders_fixed (files : table) :
  security_headers ∅ ⊆ Server.setSecurityHeaders files ∅.
Proof.
  unfold Server.setSecurityHeaders.
  destruct (files !! js "__csp__") as [[e|p]|]; try reflexivity.
  case_bool_decide; [reflexivity|].
  apply security_headers_kept; [|reflexivity].
  unfold security_headers. header_lookup. reflexivity.
Qed.

Lemma setSecurityHeaders_policy (files : table) p :
  files !! js "__csp__" = Some (Policy p) -> p <> [] ->
  Server.setSecurityHeaders files ∅ !! js "Content-Security-Policy" = Some p.
Proof.
  intros Hp Hne. unfold Server.setSecurityHeaders. rewrite Hp.
  rewrite bool_decide_eq_false_2 by exact Hne.
  unfold setHeader. apply lookup_insert_eq.
Qed.

Ltac fixed_name := unfold security_headers; header_lookup; reflexivity.

(** A response of [serveEntry] is the response of the negotiated
    variant. *)
Lemma serveEntry_shape (files : table) req e resp :
  Server.serveEntry files req e = Some resp ->
  let enc := Spec.negotiate (Server.negotiateEncoding req).1
                            (Server.negotiateEncoding req).2 e in
  exists tag,
    Spec.variant_tag e enc = Some tag
    /\ resp = mkResponse
                (if bool_decide (r_if_none_match req = Some tag) then 304 else 200)
                (setHeader "ETag" tag (Spec.with_encoding enc (Spec.base_headers files e)))
                (if bool_decide (r_if_none_match req = Some tag) then []
                 else Spec.variant_body e enc).
Proof.
  intros Hs enc.
  destruct (Spec.variant_tag e enc) as [tag|] eqn:Ht.
  - exists tag. split; [reflexivity|].
    rewrite (serveEntry_negotiated files req e tag Ht) in Hs. injection Hs as <-. reflexivity.
  - exfalso. subst enc. revert Hs Ht.
    unfold Server.serveEntry, Spec.negotiate.
    destruct (Server.negotiateEncoding req) as [aBr aGz]. cbn [fst snd].
    destruct e as [p t ty ca body et br bt gz gt]. cbn.
    destruct aBr, aGz, br as [br|], gz as [gz|]; cbn; intros Hs Ht; subst; discriminate.
Qed.

Lemma negotiated_headers (files : table) e enc tag :
  let h := setHeader "ETag" tag (Spec.with_encoding enc (Spec.base_headers files e)) in
  security_headers ∅ ⊆ h
  /\ h !! js "Content-Security-Policy"
     = Server.setSecurityHeaders files ∅ !! js "Content-Security-Policy"
  /\ h !! js "Content-Type" = Some (e_type e)
  /\ h !! js "Cache-Control" = Some (e_cache e).
Proof.
  cbv zeta. unfold Spec.with_encoding, Spec.base_headers.
  pose proof (setSecurityHeaders_fixed files) as Hfix.
  split.
  - apply security_headers_kept; [fixed_name|].
    assert (Hbase : security_headers ∅
                    ⊆ setHeader "Vary" (js "Accept-Encoding")
                        (setHeader "Cache-Control" (e_cache e)
                           (setHeader "Content-Type" (e_type e)
                              (Server.setSecurityHeaders files ∅)))).
    { repeat (apply security_headers_kept; [fixed_name|]). exact Hfix. }
    destruct enc; cbn [Spec.content_encoding]; try exact Hbase;
      (apply security_headers_kept; [fixed_name | exact Hbase]).
  - destruct enc; cbn [Spec.content_encoding]; repeat split; header_lookup; reflexivity.
Qed.

Lemma notFound_headers (files : table) :
  security_headers ∅ ⊆ headers (Server.notFound files)
  /\ headers (Server.notFound files) !! js "Content-Security-Policy"
     = Server.setSecurityHeaders files ∅ !! js "Content-Security-Policy"
  /\ headers (Server.notFound files) !! js "Content-Type"
     = Some (js "text/plain; charset=utf-8").
Proof.
  unfold Server.notFound. cbn [headers]. split; [|split].
  - apply security_headers_kept; [fixed_name | apply setSecurityHeaders_fixed].
  - header_lookup. reflexivity.
  - header_lookup. reflexivity.
Qed.

(** Whatever [handler] answers carries the fixed security headers and
    the policy of the table. *)
Lemma handler_headers (fs : filesystem) (files : table) req resp :
  Server.handler ROOT fs files req = Some resp ->
  security_headers ∅ ⊆ headers resp
  /\ headers resp !! js "Content-Security-Policy"
     = Server.setSecurityHeaders files ∅ !! js "Content-Security-Policy".
Proof.
  unfold Server.handler.
  set (pathname := if bool_decide (r_pathname req = js "/") then js "/index.html"
                   else r_pathname req).
  assert (Hserve : forall e, Server.serveEntry files req e = Some resp ->
            security_headers ∅ ⊆ headers resp
            /\ headers resp !! js "Content-Security-Policy"
               = Server.setSecurityHeaders files ∅ !! js "Content-Security-Policy").
  { intros e Hs. destruct (serveEntry_shape files req e resp Hs) as (tag & _ & ->).
    cbn [headers].
    destruct (negotiated_headers files e
                (Spec.negotiate (Server.negotiateEncoding req).1
                                (Server.negotiateEncoding req).2 e) tag) as (H1 & H2 & _).
    split; assumption. }
  destruct (files !! pathname) as [[e|p]|]; [apply Hserve|discriminate|].
  destruct (existsSync fs _ && isFile fs _).
  - destruct (readFile fs _) as [raw|]; [|discriminate]. cbn [mbind option_bind]. apply Hserve.
  - intros [= <-]. destruct (notFound_headers files) as (H1 & H2 & _). split; assumption.
Qed.

End Handler.

(** Every response after a successful build, be it 200, 304 or 404,
    from the table or from the disk, carries the six fixed security
    headers and, as [Content-Security-Policy], the policy the build
    synthesized. *)
Theorem Server_responses_carry_policy (L : Libs) (ROOT : jstring) (fs fs' : filesystem) st req resp :
  Server.build ROOT fs = Some st ->
  Server.handler ROOT fs' (Server.st_files st) req = Some resp ->
  security_headers ∅ ⊆ headers resp
  /\ headers resp !! js "Content-Security-Policy"
     = Some (Server.generateCSP (Server.st_csp st)).
Proof.
  intros Hb Hh.
  destruct (handler_headers ROOT fs' (Server.st_files st) req resp Hh) as (Hfix & Hcsp).
  split; [exact Hfix|].
  rewrite Hcsp.
  apply setSecurityHeaders_policy;
    [exact (build_policy_stored ROOT fs st Hb) | apply generateCSP_nonempty].
Qed.

(** Outside the table [handler] reads the disk: a regular file is
    served as it is, never compressed, with the tag of its bytes (or a
    304 when the request already has that tag); a file that cannot be
    read makes the handler throw; anything else is a 404. *)
Theorem Server_handler_outside_table (L : Libs) (ROOT : jstring) (fs : filesystem) (files : table) req :
  let pathname := if bool_decide (r_pathname req = js "/") then js "/index.html"
                  else r_pathname req in
  files !! pathname = None ->
  match fs !! path_join ROOT pathname with
  | Some (File raw _) =>
      exists resp,
        Server.handler ROOT fs files req = Some resp
        /\ headers resp !! js "Content-Encoding" = None
        /\ headers resp !! js "ETag" = Some (Server.etag raw)
        /\ headers resp !! js "Content-Type"
           = Some (Server.contentTypeFor (path_join ROOT pathname))
        /\ (r_if_none_match req = Some (Server.etag raw) ->
            statusCode resp = 304 /\ sent resp = [])
        /\ (r_if_none_match req <> Some (Server.etag raw) ->
            statusCode resp = 200 /\ sent resp = raw)
  | Some (Unreadable _) => Server.handler ROOT fs files req = None
  | Some Directory | None =>
      exists resp,
        Server.handler ROOT fs files req = Some resp
        /\ statusCode resp = 404
        /\ sent resp = utf8_encode (js "404 Not Found")
        /\ headers resp !! js "Content-Type" = Some (js "text/plain; charset=utf-8")
  end.
Proof.
  intros pathname Hnone. unfold Server.handler. fold pathname. rewrite Hnone.
  unfold existsSync, isFile, readFile.
  destruct (fs !! path_join ROOT pathname) as [[raw t|t|]|] eqn:Hfs.
  - rewrite bool_decide_eq_true_2 by (eexists; reflexivity).
    cbn [andb mbind option_bind].
    set (e := {| e_path := None; e_mtimeMs := None;
                 e_type := Server.contentTypeFor (path_join ROOT pathname);
                 e_cache := Server.cacheControlFor (path_join ROOT pathname);
                 e_body := raw; e_etag := Server.etag raw;
                 e_br := None; e_brEtag := None; e_gz := None; e_gzEtag := None |}).
    assert (Henc : Spec.negotiate (Server.negotiateEncoding req).1
                                  (Server.negotiateEncoding req).2 e = Spec.Identity).
    { unfold Spec.negotiate. cbn [e_br e_gz e].
      rewrite !bool_decide_eq_false_2 by (intros [? ?]; discriminate).
      rewrite !andb_false_r. reflexivity. }
    pose proof (serveEntry_negotiated files req e (Server.etag raw)) as Hs.
    cbv zeta in Hs. rewrite Henc in Hs. specialize (Hs eq_refl).
    eexists. split; [exact Hs|]. cbn [headers statusCode sent].
    destruct (response_headers files e Spec.Identity (Server.etag raw)) as (_ & Hce & Het).
    destruct (negotiated_headers files e Spec.Identity (Server.etag raw)) as (_ & _ & Hty & _).
    split; [exact Hce|]. split; [exact Het|]. split; [exact Hty|].
    split; intros Hinm.
    + rewrite !bool_decide_eq_true_2 by exact Hinm. split; reflexivity.
    + rewrite !bool_decide_eq_false_2 by exact Hinm. split; reflexivity.
  - rewrite bool_decide_eq_true_2 by (eexists; reflexivity). reflexivity.
  - rewrite bool_decide_eq_true_2 by (eexists; reflexivity). cbn [andb].
    destruct (notFound_headers files) as (_ & _ & Hty).
    eexists. split; [reflexivity|]. repeat split. exact Hty.
  - rewrite bool_decide_eq_false_2 by (intros [? ?]; discriminate). cbn [andb].
    destruct (notFound_headers files) as (_ & _ & Hty).
    eexists. split; [reflexivity|]. repeat split. exact Hty.
Qed.

(** After a successful build a plain request (no [Accept-Encoding], no
    [If-None-Match]) for a core file gets a 200 with the minified text,
    uncompressed; and the root path [/] is the page. *)
Theorem Server_serves_minified (L : Libs) (ROOT : jstring) (fs fs' : filesystem) st f g req :
  Server.build ROOT fs = Some st ->
  (f, g) ∈ Spec.core_files ->
  r_pathname req = Server.public_path f
  \/ (f = js "index.html" /\ r_pathname req = js "/") ->
  r_accept_encoding req = None ->
  r_if_none_match req = None ->
  exists src resp,
    readFile fs (path_join ROOT f) = Some src
    /\ Server.handler ROOT fs' (Server.st_files st) req = Some resp
    /\ statusCode resp = 200
    /\ sent resp = utf8_encode (g (utf8_decode src))
    /\ headers resp !! js "Content-Type" = Some (Server.contentTypeFor f)
    /\ headers resp !! js "Content-Encoding" = None
    /\ headers resp !! js "ETag" = Some (Server.etag (utf8_encode (g (utf8_decode src)))).
Proof.
  intros Hb Hf Hpath Hae Hinm.
  destruct (build_core_entry ROOT fs st f g Hb Hf) as (src & e & Hr & Hl & Hbody & Hty & _).
  pose proof (build_table_coherent ROOT fs st Hb _ _ Hl) as (Het & _). cbn in Het.
  assert (Hp : (if bool_decide (r_pathname req = js "/") then js "/index.html"
                else r_pathname req) = Server.public_path f).
  { destruct Hpath as [Hp|[-> Hp]]; rewrite Hp.
    - rewrite bool_decide_eq_false_2; [reflexivity|].
      intros E. unfold Spec.core_files in Hf.
      repeat (apply elem_of_cons in Hf as [Hf|Hf]); [| | |inversion Hf];
        injection Hf as -> _; apply (f_equal length) in E; vm_compute in E;
        discriminate E.
    - rewrite bool_decide_eq_true_2 by reflexivity. symmetry. apply public_path_index. }
  unfold Server.handler. rewrite Hp, Hl.
  assert (Henc : Spec.negotiate (Server.negotiateEncoding req).1
                                (Server.negotiateEncoding req).2 e = Spec.Identity).
  { unfold Server.negotiateEncoding. rewrite Hae. reflexivity. }
  pose proof (serveEntry_negotiated (Server.st_files st) req e (e_etag e)) as Hs.
  cbv zeta in Hs. rewrite Henc in Hs. specialize (Hs eq_refl).
  rewrite Hinm in Hs. rewrite !bool_decide_eq_false_2 in Hs by discriminate.
  exists src. eexists. split; [exact Hr|]. split; [exact Hs|]. cbn [headers statusCode sent].
  destruct (response_headers (Server.st_files st) e Spec.Identity (e_etag e))
    as (_ & Hce & Htag).
  destruct (negotiated_headers (Server.st_files st) e Spec.Identity (e_etag e))
    as (_ & _ & Hct & _).
  split; [reflexivity|]. split; [exact Hbody|].
  split; [rewrite Hct, Hty; reflexivity|].
  split; [exact Hce|].
  rewrite Htag, Het, Hbody. reflexivity.
Qed.

Lemma Server_responses_carry_policy_witness :
  exists st resp,
    Server.build (H := Sample.libs) Sample.ROOT Sample.site = Some st
    /\ Server.handler (H := Sample.libs) Sample.ROOT Sample.site (Server.st_files st)
         (mkRequest (js "/missing") None None) = Some resp
    /\ statusCode resp = 404
    /\ headers resp !! js "Content-Security-Policy"
       = Some (Server.generateCSP (Server.st_csp st)).
Proof.
  eexists _, _.
  match goal with |- ?B = Some ?st /\ ?Hd = Some ?r /\ _ =>
    assert (Hb : B = Some st) by (vm_compute; reflexivity);
    assert (Hh : Hd = Some r) by (vm_compute; reflexivity)
  end.
  split; [exact Hb|]. split; [exact Hh|]. split; [reflexivity|].
  exact (proj2 (Server_responses_carry_policy Sample.libs Sample.ROOT Sample.site
                  Sample.site _ _ _ Hb Hh)).
Defined.

Lemma Server_handler_outside_table_witness :
  let fs : filesystem :=
    {[ path_join (Libs := Sample.libs) Sample.ROOT (js "/notes.txt")
       := File (Sample.bytes "hello") 0 ]} in
  exists resp,
    Server.handler (H := Sample.libs) Sample.ROOT fs ∅
      (mkRequest (js "/notes.txt") (Some (js "br, gzip")) None) = Some resp
    /\ headers resp !! js "Content-Encoding" = None
    /\ statusCode resp = 200
    /\ sent resp = Sample.bytes "hello".
Proof.
  intros fs.
  pose proof (Server_handler_outside_table Sample.libs Sample.ROOT fs ∅
                (mkRequest (js "/notes.txt") (Some (js "br, gzip")) None) eq_refl) as W.
  cbv zeta in W.
  change (fs !! _) with (Some (File (Sample.bytes "hello") 0)) in W.
  cbv iota beta in W.
  destruct W as (resp & Hh & Hce & _ & _ & _ & H200).
  exists resp. split; [exact Hh|]. split; [exact Hce|].
  apply H200. discriminate.
Defined.

Lemma Server_serves_minified_witness :
  exists st resp,
    Server.build (H := Sample.libs) Sample.ROOT Sample.site = Some st
    /\ Server.handler (H := Sample.libs) Sample.ROOT ∅ (Server.st_files st)
         (mkRequest (js "/") None None) = Some resp
    /\ sent resp = Sample.bytes "<style></style><p>hi</p>".
Proof.
  eexists _.
  match goal with |- exists r, ?B = Some ?st /\ _ =>
    assert (Hb : B = Some st) by (vm_compute; reflexivity)
  end.
  destruct (Server_serves_minified Sample.libs Sample.ROOT Sample.site ∅ _
              (js "index.html") Server.minifyHTML (mkRequest (js "/") None None) Hb)
    as (src & resp & Hr & Hh & _ & Hs & _).
  - unfold Spec.core_files. left.
  - right. split; reflexivity.
  - reflexivity.
  - reflexivity.
  - exists resp. split; [exact Hb|]. split; [exact Hh|].
    rewrite Hs. vm_compute in Hr. injection Hr as <-. vm_compute. reflexivity.
Defined.

(** The hashes of the policy of [server.js] are those of the page as it
    is on disk, while the page that is served is the minified one: the
    policy header of every response is synthesized from the inline
    blocks of the unminified page. *)
Theorem Server_policy_hashes_raw_page (L : Libs) (ROOT : jstring) (fs : filesystem) st :
  Server.build ROOT fs = Some st ->
  exists src e,
    readFile fs (path_join ROOT (js "index.html")) = Some src
    /\ Server.st_csp st = Server.extractInlineContent (utf8_decode src)
    /\ Server.st_files st !! js "/index.html" = Some (Asset e)
    /\ e_body e = utf8_encode (Server.minifyHTML (utf8_decode src))
    /\ forall (fs' : filesystem) req resp,
         Server.handler ROOT fs' (Server.st_files st) req = Some resp ->
         headers resp !! js "Content-Security-Policy"
         = Some (Server.generateCSP (Server.extractInlineContent (utf8_decode src))).
Proof.
  intros Hb.
  destruct (Server_build_page ROOT fs st Hb) as (src & e & Hr & Hcsp & Hpol & He & Hbody).
  exists src, e. split; [exact Hr|]. split; [exact Hcsp|]. split; [exact He|].
  split; [exact Hbody|].
  intros fs' req resp Hh.
  destruct (handler_headers ROOT fs' (Server.st_files st) req resp Hh) as (_ & Hhd).
  rewrite Hhd, <- Hcsp.
  apply setSecurityHeaders_policy; [exact Hpol | apply generateCSP_nonempty].
Qed.

Lemma Server_policy_hashes_raw_page_witness :
  exists st,
    Server.build (H := Sample.libs) Sample.ROOT Sample.site = Some st
    /\ Server.st_csp st
       = Server.extractInlineContent (H := Sample.libs)
           (js "<style>/* x */</style><p>hi</p>").
Proof.
  eexists.
  match goal with |- ?B = Some ?st /\ _ =>
    assert (Hb : B = Some st) by (vm_compute; reflexivity)
  end.
  split; [exact Hb|].
  destruct (Server_policy_hashes_raw_page Sample.libs Sample.ROOT Sample.site _ Hb)
    as (src & e & Hr & Hcsp & _).
  rewrite Hcsp. vm_compute in Hr. injection Hr as <-. vm_compute. reflexivity.
Defined.

(** Revalidation round trip: a client that sends back, with the same
    [Accept-Encoding], the tag it was given is answered 304 with an
    empty body and the very same headers, whether the resource comes
    from the table or from the disk. *)
Theorem handler_revalidation (L : Libs) (ROOT : jstring) (fs : filesystem)
    (files : table) req resp tag :
  Server.handler ROOT fs files req = Some resp ->
  headers resp !! js "ETag" = Some tag ->
  Server.handler ROOT fs files
    (mkRequest (r_pathname req) (r_accept_encoding req) (Some tag))
  = Some (mkResponse 304 (headers resp) []).
Proof.
  intros Hh Htag.
  assert (Hserve : forall e, Server.serveEntry files req e = Some resp ->
            Server.serveEntry files
              (mkRequest (r_pathname req) (r_accept_encoding req) (Some tag)) e
            = Some (mkResponse 304 (headers resp) [])).
  { intros e Hs. destruct (serveEntry_shape files req e resp Hs) as (tag0 & Hv & ->).
    cbn [headers] in Htag |- *.
    destruct (response_headers files e
                (Spec.negotiate (Server.negotiateEncoding req).1
                                (Server.negotiateEncoding req).2 e) tag0) as (_ & _ & Het).
    rewrite Het in Htag. injection Htag as ->.
    rewrite (serveEntry_negotiated files
               (mkRequest (r_pathname req) (r_accept_encoding req) (Some tag)) e tag Hv).
    cbn [r_if_none_match]. rewrite !bool_decide_eq_true_2 by reflexivity. reflexivity. }
  unfold Server.handler in Hh |- *. cbn [r_pathname].
  destruct (files !! _) as [[e|p]|]; [apply Hserve, Hh | discriminate Hh |].
  destruct (existsSync fs _ && isFile fs _).
  - destruct (readFile fs _) as [raw|]; [|discriminate Hh].
    cbn [mbind option_bind] in Hh |- *. apply Hserve, Hh.
  - injection Hh as <-. exfalso.
    unfold Server.notFound in Htag. cbn [headers] in Htag.
    revert Htag. header_lookup.
    unfold Server.setSecurityHeaders, security_headers.
    destruct (files !! js "__csp__") as [[?|?]|]; try case_bool_decide; header_lookup;
      discriminate.
Qed.

Lemma handler_revalidation_witness :
  exists st resp,
    Server.build (H := Sample.libs) Sample.ROOT Sample.site = Some st
    /\ Server.handler (H := Sample.libs) Sample.ROOT ∅ (Server.st_files st)
         (mkRequest (js "/style.css") (Some (js "gzip")) None) = Some resp
    /\ statusCode resp = 200
    /\ Server.handler (H := Sample.libs) Sample.ROOT ∅ (Server.st_files st)
         (mkRequest (js "/style.css") (Some (js "gzip"))
            (Some (Server.etag (Sample.bytes "a{color:red}"))))
       = Some (mkResponse 304 (headers resp) []).
Proof.
  eexists _, _.
  match goal with |- ?B = Some ?st /\ ?Hd = Some ?r /\ _ =>
    assert (Hb : B = Some st) by (vm_compute; reflexivity);
    assert (Hh : Hd = Some r) by (vm_compute; reflexivity)
  end.
  split; [exact Hb|]. split; [exact Hh|]. split; [reflexivity|].
  apply (handler_revalidation Sample.libs Sample.ROOT ∅ _
           (mkRequest (js "/style.css") (Some (js "gzip")) None) _ _ Hh).
  vm_compute. reflexivity.
Defined.
(* ===================================================================== *)
(** * The validator identifies checksum and length *)
(* ===================================================================== *)

Lemma split_at_unique {A} (x : A) (l1 l2 r1 r2 : list A) :
  x ∉ l1 -> x ∉ l2 -> l1 ++ x :: r1 = l2 ++ x :: r2 -> l1 = l2 /\ r1 = r2.
Proof.
  revert l2. induction l1 as [|a l1 IH]; intros [|b l2] H1 H2 E; cbn in E.
  - injection E as E. split; [reflexivity | exact E].
  - injection E as -> _. exfalso. apply H2. left.
  - injection E as -> _. exfalso. apply H1. left.
  - injection E as -> E.
    destruct (IH l2) as [-> ->]; [| |exact E|split; reflexivity].
    + intros ?. apply H1. right. assumption.
    + intros ?. apply H2. right. assumption.
Qed.

Lemma toStringRadix_inj base n m :
  2 <= base -> toStringRadix base n = toStringRadix base m -> n = m.
Proof.
  intros Hb E. apply (f_equal (Spec.numeral_value base)) in E.
  rewrite !numeral_value_toString in E by exact Hb. exact E.
Qed.

Lemma hyphen_not_hex n : 45 ∉ toString16 n.
Proof.
  intros Hin. pose proof (toString16_digits n) as Hd.
  rewrite forallb_forall in Hd. apply list_elem_of_In, Hd in Hin. discriminate Hin.
Qed.

(** Two buffers get the same tag exactly when they have the same
    checksum and the same length: writing the checksum without leading
    zeros costs no information, since the hyphen cannot occur in it. *)
Theorem etag_identifies (a b : buffer) :
  Server.etag a = Server.etag b
  <-> Spec.fnv1a32 a = Spec.fnv1a32 b /\ length a = length b.
Proof.
  unfold Server.etag. rewrite !etag_hash_fnv, !N2Z.id. split.
  - intros E. apply app_inv_head, app_inv_head in E.
    rewrite !app_assoc in E. apply app_inv_tail in E.
    rewrite <- !app_assoc in E. change (js "-") with [45] in E. cbn [app] in E.
    apply split_at_unique in E as [E16 E10]; [|apply hyphen_not_hex..].
    split.
    + apply (toStringRadix_inj 16); [lia | exact E16].
    + apply Nat2N.inj, (toStringRadix_inj 10); [lia | exact E10].
  - intros [-> ->]. reflexivity.
Qed.

(* ===================================================================== *)
(** * Which [Accept-Encoding] values select an encoding *)
(* ===================================================================== *)

Section Tokens.

(** The character before the position reached by skipping [a] is the
    last of [a], or the one before [a]. *)
Lemma prev_after_cons (prev : option N) c a :
  from_option Some prev (last (c :: a)) = from_option Some (Some c) (last a).
Proof.
  destruct a as [|d a]; [reflexivity|].
  rewrite last_cons. destruct (last (d :: a)) eqn:E; [reflexivity|].
  apply last_None in E. discriminate E.
Qed.

(** A literal matches exactly where the text starts with it. *)
Lemma rmatch_literal (w : jstring) : w <> [] -> forall x cs k z,
  rmatch noflags (seqs (map Chr w)) x cs k = Some z
  <-> exists post, p_rest x = w ++ post /\ k (mkPos (last w) post) cs = Some z.
Proof.
  induction w as [|a [|b w'] IH]; intros Hne x cs k z; [contradiction| |].
  - cbn [map seqs rmatch]. unfold step1, char_eq. cbn [ignoreCase noflags].
    destruct (p_rest x) as [|c t].
    + split; [discriminate|]. intros (post & E & _). discriminate E.
    + destruct (a =? c) eqn:Hac.
      * apply N.eqb_eq in Hac as <-. split.
        -- intros Hk. exists t. split; [reflexivity | exact Hk].
        -- intros (post & E & Hk). injection E as <-. exact Hk.
      * split; [discriminate|]. intros (post & E & _). injection E as <- _.
        rewrite N.eqb_refl in Hac. discriminate Hac.
  - change (seqs (map Chr (a :: b :: w'))) with (Seq (Chr a) (seqs (map Chr (b :: w')))).
    cbn [rmatch]. unfold step1, char_eq. cbn [ignoreCase noflags].
    destruct (p_rest x) as [|c t].
    + split; [discriminate|]. intros (post & E & _). discriminate E.
    + destruct (a =? c) eqn:Hac.
      * apply N.eqb_eq in Hac as <-.
        rewrite (IH ltac:(discriminate)). cbn [p_rest]. split.
        -- intros (post & -> & Hk). exists post. split; [reflexivity | exact Hk].
        -- intros (post & E & Hk). injection E as ->. exists post.
           split; [reflexivity | exact Hk].
      * split; [discriminate|]. intros (post & E & _). injection E as <- _.
        rewrite N.eqb_refl in Hac. discriminate Hac.
Qed.

(** One attempt of [\bw\b] at a position. *)
Lemma match_at_token (w : jstring) prev rest : w <> [] ->
  is_Some (match_at noflags (seqs [WordBoundary; seqs (map Chr w); WordBoundary]) prev rest)
  <-> exists post,
        rest = w ++ post
        /\ xorb (isWordOpt prev) (isWordOpt (head w)) = true
        /\ xorb (isWordOpt (last w)) (isWordOpt (head post)) = true.
Proof.
  intros Hne. unfold match_at.
  change (seqs [WordBoundary; seqs (map Chr w); WordBoundary])
    with (Seq WordBoundary (Seq (seqs (map Chr w)) WordBoundary)).
  cbn [rmatch p_prev p_rest].
  split.
  - intros [z Hz].
    destruct (xorb (isWordOpt prev) (isWordOpt (head rest))) eqn:Hx.
    + destruct (rmatch noflags (seqs (map Chr w)) _ _ _) as [[y cs]|] eqn:Hm; [|discriminate Hz].
      apply (rmatch_literal w Hne) in Hm as (post & E & Hk). cbn [p_rest p_prev] in E, Hk.
      exists post. subst rest. split; [reflexivity|].
      split.
      * destruct w; [contradiction | exact Hx].
      * destruct (xorb (isWordOpt (last w)) (isWordOpt (head post))); [reflexivity|discriminate Hk].
    + discriminate Hz.
  - intros (post & -> & Hx & Hy).
    replace (head (w ++ post)) with (head w) by (destruct w; [contradiction | reflexivity]).
    rewrite Hx.
    assert (Hm : rmatch noflags (seqs (map Chr w)) (mkPos prev (w ++ post)) []
                   (fun y cs' =>
                      if xorb (isWordOpt (p_prev y)) (isWordOpt (head (p_rest y)))
                      then Some (y, cs') else None)
                 = Some (mkPos (last w) post, [])).
    { apply (rmatch_literal w Hne). exists post. split; [reflexivity|].
      cbn [p_prev p_rest]. rewrite Hy. reflexivity. }
    rewrite Hm. eexists. reflexivity.
Qed.

(** [find_first] finds a match exactly when some position has one. *)
Lemma find_first_some fl r rest : forall idx prev,
  is_Some (find_first fl r idx prev rest)
  <-> exists a b, rest = a ++ b /\ is_Some (match_at fl r (from_option Some prev (last a)) b).
Proof.
  induction rest as [|c t IH]; intros idx prev; cbn [find_first].
  - destruct (match_at fl r prev []) as [[len cs]|] eqn:Hm.
    + split; [|eauto]. intros _. exists [], []. split; [reflexivity|].
      cbn. rewrite Hm. eauto.
    + split; [intros [? ?]; discriminate|].
      intros (a & b & E & Hs). symmetry in E. apply app_eq_nil in E as [-> ->].
      cbn in Hs. rewrite Hm in Hs. destruct Hs; discriminate.
  - destruct (match_at fl r prev (c :: t)) as [[len cs]|] eqn:Hm.
    + split; [|eauto]. intros _. exists [], (c :: t). split; [reflexivity|].
      cbn. rewrite Hm. eauto.
    + rewrite IH. split.
      * intros (a & b & -> & Hs). exists (c :: a), b. split; [reflexivity|].
        rewrite prev_after_cons. exact Hs.
      * intros (a & b & E & Hs). destruct a as [|c' a].
        -- cbn in E, Hs. subst b. rewrite Hm in Hs. destruct Hs; discriminate.
        -- cbn in E. injection E as <- ->. exists a, b. split; [reflexivity|].
           rewrite (prev_after_cons prev) in Hs. exact Hs.
Qed.

(** [/\bw\b/.test(s)] for a word [w]: [s] contains [w] with no word
    character next to it on either side. *)
Lemma test_token (w s : jstring) :
  w <> [] -> isWordOpt (head w) = true -> isWordOpt (last w) = true ->
  test noflags (seqs [WordBoundary; seqs (map Chr w); WordBoundary]) s = true
  <-> exists pre post,
        s = pre ++ w ++ post
        /\ isWordOpt (last pre) = false /\ isWordOpt (head post) = false.
Proof.
  intros Hne Hh Hl. unfold test. rewrite bool_decide_eq_true, find_first_some. split.
  - intros (a & b & -> & Hs). apply (match_at_token w _ _ Hne) in Hs as (post & -> & Hx & Hy).
    exists a, post. split; [reflexivity|].
    rewrite Hh in Hx. rewrite Hl in Hy. cbn in Hy.
    destruct (last a) as [n|]; cbn [from_option isWordOpt] in Hx |- *.
    + destruct (isWord n); [discriminate Hx|]. split; [reflexivity|].
      destruct (isWordOpt (head post)); [discriminate Hy | reflexivity].
    + split; [reflexivity|].
      destruct (isWordOpt (head post)); [discriminate Hy | reflexivity].
  - intros (pre & post & -> & Hp & Hq). exists pre, (w ++ post). split; [reflexivity|].
    apply (match_at_token w _ _ Hne). exists post. split; [reflexivity|].
    rewrite Hh, Hl, Hq. split; [|reflexivity].
    destruct (last pre); cbn in Hp |- *; rewrite ?Hp; reflexivity.
Qed.

End Tokens.

(** [negotiateEncoding] accepts an encoding exactly when the
    [Accept-Encoding] value contains its name as a whole word: only the
    characters next to the name count, so whatever else the value says
    (a quality value of zero after the name, say) is not looked at.  A
    request without the header accepts nothing. *)
Theorem negotiateEncoding_tokens (req : request) :
  let ae := default [] (r_accept_encoding req) in
  let names (w : jstring) :=
    exists pre post,
      ae = pre ++ w ++ post
      /\ isWordOpt (last pre) = false /\ isWordOpt (head post) = false in
  ((Server.negotiateEncoding req).1 = true <-> names (js "br"))
  /\ ((Server.negotiateEncoding req).2 = true <-> names (js "gzip"))
  /\ (r_accept_encoding req = None -> Server.negotiateEncoding req = (false, false)).
Proof.
  cbv zeta. unfold Server.negotiateEncoding. cbn [fst snd].
  split; [|split].
  - apply (test_token (js "br")); [discriminate | reflexivity | reflexivity].
  - apply (test_token (js "gzip")); [discriminate | reflexivity | reflexivity].
  - intros ->. reflexivity.
Qed.

(* ===================================================================== *)
(** * Precedence of the encodings *)
(* ===================================================================== *)

Section Precedence.

Lemma names_test (w : jstring) (ae : option jstring) :
  w <> [] -> isWordOpt (head w) = true -> isWordOpt (last w) = true ->
  test noflags (seqs [WordBoundary; seqs (map Chr w); WordBoundary]) (default [] ae) = true
  <-> Spec.names w ae.
Proof. intros Hne Hh Hl. apply (test_token w _ Hne Hh Hl). Qed.

Lemma not_names_test (w : jstring) (ae : option jstring) :
  w <> [] -> isWordOpt (head w) = true -> isWordOpt (last w) = true ->
  ~ Spec.names w ae ->
  test noflags (seqs [WordBoundary; seqs (map Chr w); WordBoundary]) (default [] ae) = false.
Proof.
  intros Hne Hh Hl Hn.
  destruct (test noflags _ _) eqn:Ht; [|reflexivity].
  destruct Hn. apply (names_test w ae Hne Hh Hl), Ht.
Qed.

End Precedence.

(** C8, as the code has it: for an entry that has a Brotli and a Gzip
    variant, each with its tag, both scripts give the same response,
    which always carries [Vary: Accept-Encoding].  A request whose
    [Accept-Encoding] names [br] (the value contains [br] with no word
    character next to it) gets the Brotli variant with
    [Content-Encoding: br], whatever else the value says; one that does
    not name [br] but names [gzip] gets the Gzip variant with
    [Content-Encoding: gzip]; one that names neither, or has no
    [Accept-Encoding], gets the uncompressed body without
    [Content-Encoding].  The body sent is the body of that variant,
    unless [If-None-Match] equals its tag, when nothing is sent. *)
Theorem serveEntry_encoding_precedence (L : Libs) (files : table) req e br gz tbr tgz :
  e_br e = Some br -> e_brEtag e = Some tbr ->
  e_gz e = Some gz -> e_gzEtag e = Some tgz ->
  let ae := r_accept_encoding req in
  let body_or_304 (tag : jstring) (body : buffer) :=
    if bool_decide (r_if_none_match req = Some tag) then [] else body in
  exists resp,
    Server.serveEntry files req e = Some resp
    /\ AssetProcessor.serveFile files req e = Some resp
    /\ headers resp !! js "Vary" = Some (js "Accept-Encoding")
    /\ (Spec.names (js "br") ae ->
        headers resp !! js "Content-Encoding" = Some (js "br")
        /\ headers resp !! js "ETag" = Some tbr
        /\ sent resp = body_or_304 tbr br)
    /\ (~ Spec.names (js "br") ae -> Spec.names (js "gzip") ae ->
        headers resp !! js "Content-Encoding" = Some (js "gzip")
        /\ headers resp !! js "ETag" = Some tgz
        /\ sent resp = body_or_304 tgz gz)
    /\ (~ Spec.names (js "br") ae -> ~ Spec.names (js "gzip") ae ->
        headers resp !! js "Content-Encoding" = None
        /\ headers resp !! js "ETag" = Some (e_etag e)
        /\ sent resp = body_or_304 (e_etag e) (e_body e)).
Proof.
  intros Hbr Htbr Hgz Htgz ae body_or_304.
  destruct (serveEntry_precedence_by_test files req e br gz tbr tgz Hbr Htbr Hgz Htgz)
    as (resp & Hs & Hv & Hb & Hg & Hi).
  exists resp. split; [exact Hs|].
  split; [rewrite serveFile_serveEntry; exact Hs|].
  split; [exact Hv|].
  assert (Wbr : js "br" <> [] /\ isWordOpt (head (js "br")) = true
                /\ isWordOpt (last (js "br")) = true)
    by (split; [discriminate | split; reflexivity]).
  assert (Wgz : js "gzip" <> [] /\ isWordOpt (head (js "gzip")) = true
                /\ isWordOpt (last (js "gzip")) = true)
    by (split; [discriminate | split; reflexivity]).
  destruct Wbr as (B1 & B2 & B3). destruct Wgz as (G1 & G2 & G3).
  split; [|split].
  - intros Nb. apply Hb. apply (names_test (js "br") ae B1 B2 B3), Nb.
  - intros Nb Ng. apply Hg.
    + apply (not_names_test (js "br") ae B1 B2 B3 Nb).
    + apply (names_test (js "gzip") ae G1 G2 G3), Ng.
  - intros Nb Ng. apply Hi.
    + apply (not_names_test (js "br") ae B1 B2 B3 Nb).
    + apply (not_names_test (js "gzip") ae G1 G2 G3 Ng).
Qed.

Lemma serveEntry_encoding_precedence_witness :
  exists resp,
    Server.serveEntry ∅
      (mkRequest (js "/a.txt") (Some (js "gzip, deflate, br")) None)
      Sample.asset = Some resp
    /\ headers resp !! js "Vary" = Some (js "Accept-Encoding")
    /\ headers resp !! js "Content-Encoding" = Some (js "br")
    /\ sent resp = Sample.bytes "b".
Proof.
  destruct (serveEntry_encoding_precedence Sample.libs ∅
              (mkRequest (js "/a.txt") (Some (js "gzip, deflate, br")) None)
              Sample.asset (Sample.bytes "b") (Sample.bytes "gg")
              (Server.etag (Sample.bytes "b")) (Server.etag (Sample.bytes "gg"))
              eq_refl eq_refl eq_refl eq_refl)
    as (resp & Hs & _ & Hv & Hbr & _).
  exists resp. split; [exact Hs|]. split; [exact Hv|].
  destruct Hbr as (Hce & _ & Hsent).
  - exists (js "gzip, deflate, "), []. split; [reflexivity|]. split; reflexivity.
  - split; [exact Hce | exact Hsent].
Defined.

(** C8 as it is stated fails.  A request that refuses Brotli with a
    weight of zero and accepts Gzip is sent the Brotli variant; a
    request that accepts both under their upper-case names, or through
    the wildcard, is sent the uncompressed body. *)
Lemma serveEntry_ignores_weight_and_case :
  let serve ae :=
    Server.serveEntry ∅ (mkRequest (js "/a.txt") (Some (js ae)) None)
      Sample.asset in
  let encoding_of (r : option response) :=
    r ≫= fun resp => headers resp !! js "Content-Encoding" in
  (Spec.accepts (js "br") (Some (js "gzip, br;q=0")) = false
   /\ Spec.accepts (js "gzip") (Some (js "gzip, br;q=0")) = true
   /\ encoding_of (serve "gzip, br;q=0"%string) = Some (js "br")
   /\ (sent <$> serve "gzip, br;q=0"%string) = Some (Sample.bytes "b"))
  /\ (Spec.accepts (js "br") (Some (js "BR, GZIP")) = true
      /\ Spec.accepts (js "gzip") (Some (js "BR, GZIP")) = true
      /\ encoding_of (serve "BR, GZIP"%string) = None
      /\ (sent <$> serve "BR, GZIP"%string) = Some (Sample.bytes "aaaa"))
  /\ (Spec.accepts (js "br") (Some (js "*")) = true
      /\ encoding_of (serve "*"%string) = None)
  /\ ~ (forall req resp,
          Server.serveEntry ∅ req Sample.asset = Some resp ->
          (Spec.accepts (js "br") (r_accept_encoding req) = true ->
           Spec.accepts (js "gzip") (r_accept_encoding req) = true ->
           headers resp !! js "Content-Encoding" = Some (js "br"))
          /\ (Spec.accepts (js "br") (r_accept_encoding req) = false ->
              Spec.accepts (js "gzip") (r_accept_encoding req) = true ->
              headers resp !! js "Content-Encoding" = Some (js "gzip"))).
Proof.
  cbv zeta.
  split; [repeat split; vm_compute; reflexivity|].
  split; [repeat split; vm_compute; reflexivity|].
  split; [repeat split; vm_compute; reflexivity|].
  intros Hall.
  destruct (Server.serveEntry ∅
              (mkRequest (js "/a.txt") (Some (js "gzip, br;q=0")) None) Sample.asset)
    as [resp|] eqn:Hs; [|vm_compute in Hs; discriminate Hs].
  destruct (Hall _ _ Hs) as [_ Hgz].
  assert (Hce : headers resp !! js "Content-Encoding" = Some (js "gzip")).
  { apply Hgz; vm_compute; reflexivity. }
  vm_compute in Hs. injection Hs as <-. vm_compute in Hce. discriminate Hce.
Qed.

(* ===================================================================== *)
(** * The scanning passes of [minifyJS] only remove *)
(* ===================================================================== *)

Section Shrink.

Lemma take_sublist_le {A} (l : list A) i j :
  (i <= j)%nat -> take i l `sublist_of` take j l.
Proof.
  intros Hij. replace (take i l) with (take i (take j l)).
  - apply sublist_take.
  - rewrite take_take. f_equal. lia.
Qed.

Lemma take_snoc_default (src : jstring) i :
  (i < length src)%nat -> take (S i) src = take i src ++ [default 0 (src !! i)].
Proof.
  intros Hi. destruct (lookup_lt_is_Some_2 src i Hi) as [c Hc].
  rewrite Hc. apply take_S_r. exact Hc.
Qed.

(** What the first pass has written is a subsequence of what it has
    read. *)
Lemma pass1_step_sublist src st :
  (Server.s_i st < length src)%nat ->
  Server.s_out st `sublist_of` take (Server.s_i st) src ->
  Server.s_out (Server.pass1_step src st)
    `sublist_of` take (Server.s_i (Server.pass1_step src st)) src.
Proof.
  intros Hi Hs. unfold Server.pass1_step.
  repeat match goal with |- context [if ?c then _ else _] => destruct c end;
    cbn [Server.s_i Server.s_out];
    first [ rewrite (take_snoc_default src _ Hi); apply sublist_app; [exact Hs | reflexivity]
          | etrans; [exact Hs | apply take_sublist_le; lia] ].
Qed.

Lemma pass1_loop_sublist src fuel : forall st,
  Server.s_out st `sublist_of` take (Server.s_i st) src ->
  Server.s_out (Server.pass1_loop fuel src st) `sublist_of` src.
Proof.
  induction fuel as [|fuel IH]; intros st Hs; cbn [Server.pass1_loop].
  - etrans; [exact Hs | apply sublist_take].
  - destruct (Nat.ltb_spec (Server.s_i st) (length src)) as [Hlt|Hge].
    + apply IH, pass1_step_sublist; assumption.
    + etrans; [exact Hs | apply sublist_take].
Qed.

Lemma skip_ws_le rest : (Server.skip_ws rest <= length rest)%nat.
Proof.
  induction rest as [|c t IH]; cbn [Server.skip_ws length]; [lia|].
  destruct (isSpace c); lia.
Qed.

(** The second pass has written no more than it has read, and never
    reads past the end. *)
Lemma pass2_step_length out st :
  (Server.t_j st < length out)%nat ->
  (length (Server.t_finalOut st) <= Server.t_j st)%nat ->
  (length (Server.t_finalOut (Server.pass2_step out st))
   <= Server.t_j (Server.pass2_step out st) <= length out)%nat.
Proof.
  intros Hj Hl. unfold Server.pass2_step.
  pose proof (skip_ws_le (drop (Server.t_j st + 1) out)) as Hsk.
  rewrite length_drop in Hsk.
  repeat match goal with |- context [if ?c then _ else _] => destruct c end;
    cbn [Server.t_j Server.t_finalOut];
    rewrite ?length_app, ?length_take; change (length (js " ")) with 1%nat;
    cbn [length]; lia.
Qed.

Lemma pass2_loop_length out fuel : forall st,
  (length (Server.t_finalOut st) <= Server.t_j st <= length out)%nat ->
  (length (Server.t_finalOut (Server.pass2_loop fuel out st)) <= length out)%nat.
Proof.
  induction fuel as [|fuel IH]; intros st Hs; cbn [Server.pass2_loop]; [lia|].
  destruct (Nat.ltb_spec (Server.t_j st) (length out)) as [Hlt|Hge]; [|lia].
  apply IH, pass2_step_length; [exact Hlt | lia].
Qed.

End Shrink.

(** The two scanning passes of [minifyJS] only remove: the first pass
    returns a subsequence of the source (it copies or skips code units,
    in order), and the second pass, which may turn a run of white space
    into one space, returns no more code units than it is given.  So
    the text handed to the final rewrites is never longer than the
    source. *)
Theorem minifyJS_scanners_shrink (src : jstring) :
  let out := Server.s_out (Server.pass1 src) in
  let finalOut := Server.t_finalOut (Server.pass2 out) in
  out `sublist_of` src
  /\ (length finalOut <= length out <= length src)%nat
  /\ Server.minifyJS src = Server.rewrites finalOut.
Proof.
  cbv zeta.
  assert (H1 : Server.s_out (Server.pass1 src) `sublist_of` src).
  { apply pass1_loop_sublist. cbn. apply sublist_nil_l. }
  split; [exact H1|]. split; [|reflexivity]. split.
  - apply pass2_loop_length. cbn. lia.
  - apply sublist_length, H1.
Qed.

(* ===================================================================== *)
(** * server.js: the hash sets of a page and the policy made of them *)
(* ===================================================================== *)

Section PageHashes.

(** A loop that adds to a set, kept as a list without repetition, the
    image of each item that has a non-empty content: the initial set is
    kept, each such item adds its image once, nothing else gets in. *)
Lemma set_add_fold {A} (g : list jstring -> A -> list jstring)
    (content : A -> jstring) (image : jstring -> jstring) :
  (forall acc m, g acc m = if bool_decide (content m = []) then acc
                           else set_add (image (content m)) acc) ->
  forall ms acc,
    let r := fold_left g ms acc in
    (NoDup acc -> NoDup r)
    /\ (forall t, t ∈ r <->
          t ∈ acc \/ exists m, m ∈ ms /\ content m <> [] /\ t = image (content m)).
Proof.
  intros Hg. cbv zeta. induction ms as [|m ms IH]; intros acc.
  - cbn [fold_left]. split; [tauto|]. intros t. split; [tauto|].
    intros [Ht|(m & Hm & _)]; [exact Ht|]. apply elem_of_nil in Hm. contradiction.
  - rewrite fold_left_step. destruct (IH (g acc m)) as [Hnd Hin].
    assert (Hstep_nd : NoDup acc -> NoDup (g acc m)).
    { intros Ha. rewrite Hg. unfold set_add.
      repeat case_bool_decide; try assumption.
      apply NoDup_app. split; [exact Ha|]. split; [|apply NoDup_singleton].
      intros x Hx Hx'. apply list_elem_of_singleton in Hx' as ->. contradiction. }
    assert (Hstep_in : forall t, t ∈ g acc m <->
              t ∈ acc \/ (content m <> [] /\ t = image (content m))).
    { intros t. rewrite Hg. unfold set_add.
      case_bool_decide as Hc.
      - split; [tauto|]. intros [Ht|[Hc' _]]; [exact Ht|contradiction].
      - case_bool_decide as Hx.
        + split; [tauto|]. intros [Ht|[_ ->]]; assumption.
        + rewrite elem_of_app, list_elem_of_singleton. split.
          * intros [Ht| ->]; [left; exact Ht|right; split; [assumption|reflexivity]].
          * intros [Ht|[_ ->]]; [left; exact Ht|right; reflexivity]. }
    split; [intros Ha; apply Hnd, Hstep_nd, Ha|].
    intros t. rewrite Hin, Hstep_in. split.
    + intros [[Ht|[Hc ->]]|(m' & Hm' & Hc & ->)].
      * left. exact Ht.
      * right. exists m. split; [left|]. split; [exact Hc | reflexivity].
      * right. exists m'. split; [right; exact Hm'|]. split; [exact Hc | reflexivity].
    + intros [Ht|(m' & Hm' & Hc & ->)]; [left; left; exact Ht|].
      apply elem_of_cons in Hm' as [->|Hm'].
      * left. right. split; [exact Hc | reflexivity].
      * right. exists m'. split; [exact Hm'|]. split; [exact Hc | reflexivity].
Qed.

Lemma or_nil_l (t : jstring) (P : Prop) : (t ∈ [] \/ P) <-> P.
Proof.
  split; [|tauto]. intros [Ht|Hp]; [|exact Hp]. apply elem_of_nil in Ht. contradiction.
Qed.

End PageHashes.

(** What [extractInlineContent] collects from a page: in each set, the
    tokens ['sha256-...'] of the trimmed, non-empty contents of the
    inline blocks the pattern finds, each once; so never
    ['unsafe-inline']. *)
Theorem extractInlineContent_tokens (L : Libs) (html : jstring) :
  let h := Server.extractInlineContent html in
  let script_tags :=
    Alt (seqs [lit "<script"; star Server.not_gt; chr ">"]) (lit "</script>") in
  let style_tags :=
    Alt (seqs [lit "<style"; star Server.not_gt; chr ">"]) (lit "</style>") in
  let content tags m := trim (replace_g flag_i tags (Tpl []) m) in
  let token_of tags block t :=
    (exists m, m ∈ match_g flag_i block html /\ content tags m <> []
               /\ t = Server.sha256_token (Server.calculateHash (content tags m))) in
  (forall t, t ∈ scripts h <-> token_of script_tags Server.script_block t)
  /\ (forall t, t ∈ styles h <-> token_of style_tags Server.style_block t)
  /\ NoDup (scripts h) /\ NoDup (styles h)
  /\ (Server.unsafe_inline ∉ scripts h) /\ (Server.unsafe_inline ∉ styles h).
Proof.
  cbv zeta. unfold Server.extractInlineContent. cbn [scripts styles].
  match goal with |- context [fold_left (Server.add_hash ?s) ?ms []] =>
    destruct (set_add_fold (Server.add_hash s)
                (fun m => trim (replace_g flag_i s (Tpl []) m))
                (fun c => Server.sha256_token (Server.calculateHash c))
                (fun acc m => eq_refl) ms []) as [Hnd1 Hin1]
  end.
  match goal with |- context [fold_left (Server.add_hash ?s) (match_g _ Server.style_block _) []] =>
    destruct (set_add_fold (Server.add_hash s)
                (fun m => trim (replace_g flag_i s (Tpl []) m))
                (fun c => Server.sha256_token (Server.calculateHash c))
                (fun acc m => eq_refl) (match_g flag_i Server.style_block html) [])
      as [Hnd2 Hin2]
  end.
  cbv zeta in Hin1, Hin2. cbv beta in Hin1, Hin2.
  pose proof or_nil_l as Hnil.
  split; [intros t; rewrite Hin1; apply Hnil|].
  split; [intros t; rewrite Hin2; apply Hnil|].
  split; [apply Hnd1, NoDup_nil_2|].
  split; [apply Hnd2, NoDup_nil_2|].
  split.
  - intros Hu. apply Hin1 in Hu as [Hu|(m & _ & _ & E)];
      [apply elem_of_nil in Hu; contradiction|].
    set (x := Server.calculateHash _) in E. clearbody x.
    vm_compute in E. discriminate E.
  - intros Hu. apply Hin2 in Hu as [Hu|(m & _ & _ & E)];
      [apply elem_of_nil in Hu; contradiction|].
    set (x := Server.calculateHash _) in E. clearbody x.
    vm_compute in E. discriminate E.
Qed.

(** The policy [generateCSP] of [server.js] writes: fourteen directives
    in a fixed order, where [script-src] and [style-src] are ['self']
    followed by the collected tokens, or by ['unsafe-inline'] when
    there is none.  So a page without inline script gets
    ['unsafe-inline'] for scripts. *)
Theorem Server_generateCSP_sources (h : cspHashes) :
  let sources (l : list jstring) :=
    Server.self :: (if bool_decide (l = []) then [Server.unsafe_inline] else l) in
  Server.generateCSP h =
    join (js "; ")
      [ js "default-src " ++ Server.self;
        js "script-src " ++ join (js " ") (sources (scripts h));
        js "style-src " ++ join (js " ") (sources (styles h));
        js "img-src " ++ Server.self ++ js " data: https:";
        js "font-src " ++ Server.self;
        js "connect-src " ++ Server.self;
        js "media-src " ++ Server.self;
        js "object-src " ++ Server.none;
        js "child-src " ++ Server.none;
        js "worker-src " ++ Server.none;
        js "frame-ancestors " ++ Server.none;
        js "form-action " ++ Server.self;
        js "base-uri " ++ Server.self;
        js "manifest-src " ++ Server.self ]
  /\ (Server.unsafe_inline ∈ sources (scripts h)
      <-> scripts h = [] \/ Server.unsafe_inline ∈ scripts h)
  /\ (Server.unsafe_inline ∈ sources (styles h)
      <-> styles h = [] \/ Server.unsafe_inline ∈ styles h).
Proof.
  cbv zeta.
  assert (Hsrc : forall l, Server.source_list l
            = join (js " ") (Server.self ::
                             (if bool_decide (l = []) then [Server.unsafe_inline] else l))).
  { intros [|a l]; reflexivity. }
  assert (Hin : forall l : list jstring,
            Server.unsafe_inline
              ∈ Server.self :: (if bool_decide (l = []) then [Server.unsafe_inline] else l)
            <-> l = [] \/ Server.unsafe_inline ∈ l).
  { intros l. rewrite elem_of_cons. case_bool_decide as Hl.
    - subst l. rewrite list_elem_of_singleton. split; [tauto|]. intros _. right. reflexivity.
    - split.
      + intros [E|Hu]; [vm_compute in E; discriminate E | right; exact Hu].
      + intros [E|Hu]; [contradiction | right; exact Hu]. }
  split; [|split; apply Hin].
  unfold Server.generateCSP. rewrite !Hsrc. reflexivity.
Qed.

(** The class-based script collects the bare digests ([generateCSP]
    adds the ['sha256-...'] wrapping): in each set, the digests of the
    trimmed, non-empty contents of the inline blocks the pattern finds,
    each once. *)
Theorem extractCSPHashes_digests (L : Libs) (html : jstring) :
  let h := AssetProcessor.extractCSPHashes html in
  let tags (tag : string) :=
    seqs [chr "<"; opt (chr "/"); lit tag; star Server.not_gt; chr ">"] in
  let content tag m := trim (replace_g flag_i (tags tag) (Tpl []) m) in
  let digest_of tag block t :=
    (exists m, m ∈ match_g flag_i block html /\ content tag m <> []
               /\ t = AssetProcessor.hash (content tag m)) in
  (forall t, t ∈ scripts h <-> digest_of "script"%string Server.script_block t)
  /\ (forall t, t ∈ styles h <-> digest_of "style"%string Server.style_block t)
  /\ NoDup (scripts h) /\ NoDup (styles h).
Proof.
  cbv zeta. unfold AssetProcessor.extractCSPHashes. cbn [scripts styles].
  destruct (set_add_fold (AssetProcessor.add_hash "script")
              (fun m => trim (replace_g flag_i
                                (seqs [chr "<"; opt (chr "/"); lit "script";
                                       star Server.not_gt; chr ">"]) (Tpl []) m))
              AssetProcessor.hash (fun acc m => eq_refl)
              (match_g flag_i Server.script_block html) []) as [Hnd1 Hin1].
  destruct (set_add_fold (AssetProcessor.add_hash "style")
              (fun m => trim (replace_g flag_i
                                (seqs [chr "<"; opt (chr "/"); lit "style";
                                       star Server.not_gt; chr ">"]) (Tpl []) m))
              AssetProcessor.hash (fun acc m => eq_refl)
              (match_g flag_i Server.style_block html) []) as [Hnd2 Hin2].
  cbv zeta in Hin1, Hin2. cbv beta in Hin1, Hin2.
  split; [intros t; rewrite Hin1; apply or_nil_l|].
  split; [intros t; rewrite Hin2; apply or_nil_l|].
  split; [apply Hnd1, NoDup_nil_2 | apply Hnd2, NoDup_nil_2].
Qed.

(* ===================================================================== *)
(** * The class-based script: its table, and the two request handlers *)
(* ===================================================================== *)

Section ClassTable.
Context `{Libs}.
Variable ROOT : jstring.

(** What [processFile] returns, whatever the file. *)
Lemma processFile_entry fs relPath minifier csp e csp' :
  AssetProcessor.processFile ROOT fs relPath minifier csp = Some (e, csp') ->
  Spec.coherent AssetProcessor.etag e
  /\ e_path e = Some (Server.public_path relPath)
  /\ e_type e = AssetProcessor.getContentType relPath
  /\ e_cache e = AssetProcessor.getCacheControl relPath
  /\ is_Some (readFile fs (path_join ROOT relPath)).
Proof.
  unfold AssetProcessor.processFile. intros Hp.
  destruct (readFile fs _) as [content|]; [|discriminate].
  destruct (stat_mtimeMs fs _) as [t|]; [|discriminate].
  cbn [mbind option_bind] in Hp.
  case_bool_decide.
  - destruct (AssetProcessor.inline_assets ROOT fs _) as [html|]; [|discriminate].
    cbn [mbind option_bind] in Hp. injection Hp as <- <-. repeat split. eauto.
  - destruct minifier; cbn [mbind option_bind] in Hp; injection Hp as <- <-;
      repeat split; eauto.
Qed.

(** The invariant of [this.files] through the tasks of [build]: assets
    only, each filed under its own path, which is the public path of a
    task whose file can be read, and each with the tags of its own
    variants. *)
Lemma tasks_table_inv fs l : forall st,
  (forall k v, AssetProcessor.st_files st !! k = Some v ->
     exists e file, v = Asset e /\ file ∈ map fst AssetProcessor.tasks
       /\ k = Server.public_path file /\ e_path e = Some k
       /\ Spec.coherent AssetProcessor.etag e
       /\ e_type e = AssetProcessor.getContentType file
       /\ e_cache e = AssetProcessor.getCacheControl file
       /\ is_Some (readFile fs (path_join ROOT file))) ->
  (forall t, t ∈ l -> t ∈ AssetProcessor.tasks) ->
  forall k v,
    AssetProcessor.st_files (fold_left (AssetProcessor.run_task ROOT fs) l st) !! k = Some v ->
    exists e file, v = Asset e /\ file ∈ map fst AssetProcessor.tasks
      /\ k = Server.public_path file /\ e_path e = Some k
      /\ Spec.coherent AssetProcessor.etag e
      /\ e_type e = AssetProcessor.getContentType file
      /\ e_cache e = AssetProcessor.getCacheControl file
      /\ is_Some (readFile fs (path_join ROOT file)).
Proof.
  induction l as [|[file minifier] l IH]; intros st Hst Hl; [exact Hst|].
  rewrite fold_left_step. apply IH; [|intros t Ht; apply Hl; right; exact Ht].
  unfold AssetProcessor.run_task.
  destruct (existsSync fs _); [|exact Hst].
  destruct (AssetProcessor.processFile ROOT fs file minifier _) as [[e csp']|] eqn:Hp;
    [|exact Hst].
  destruct (processFile_entry _ _ _ _ _ _ Hp) as (Hc & Hpath & Hty & Hca & Hrd).
  cbn [AssetProcessor.st_files]. rewrite Hpath. cbn [from_option id].
  intros k v Hk. destruct (decide (k = Server.public_path file)) as [->|Hne].
  - rewrite lookup_insert_eq in Hk. injection Hk as <-.
    exists e, file. split; [reflexivity|].
    split; [apply list_elem_of_In, (in_map fst _ (file, minifier)), list_elem_of_In, Hl; left|].
    repeat split; try assumption; apply Hc.
  - rewrite lookup_insert_ne in Hk by congruence. apply Hst, Hk.
Qed.

End ClassTable.

(** What [build] of the class-based script leaves in the table,
    whatever the file system: under [__csp__] the policy made of the
    hash sets, and otherwise only assets, each filed under its own
    path, which is the public path of a manifest file that could be
    read, with the content type and cache policy of that file and with
    each tag the validator of its own variant. *)
Theorem AssetProcessor_build_table (L : Libs) (ROOT : jstring) (fs : filesystem) k v :
  AssetProcessor.st_files (AssetProcessor.build ROOT fs) !! k = Some v ->
  match v with
  | Policy p =>
      k = js "__csp__"
      /\ p = AssetProcessor.generateCSP (AssetProcessor.st_csp (AssetProcessor.build ROOT fs))
  | Asset e =>
      exists file,
        file ∈ map fst AssetProcessor.tasks
        /\ k = Server.public_path file /\ e_path e = Some k
        /\ Spec.coherent AssetProcessor.etag e
        /\ e_type e = AssetProcessor.getContentType file
        /\ e_cache e = AssetProcessor.getCacheControl file
        /\ is_Some (readFile fs (path_join ROOT file))
  end.
Proof.
  intros Hk. unfold AssetProcessor.build in Hk. cbn [AssetProcessor.st_files] in Hk.
  destruct (decide (k = js "__csp__")) as [->|Hne].
  - rewrite lookup_insert_eq in Hk. apply (inj Some) in Hk. subst v.
    split; reflexivity.
  - rewrite lookup_insert_ne in Hk by congruence.
    apply (tasks_table_inv ROOT fs) in Hk as (e & file & -> & Hrest).
    + exists file. exact Hrest.
    + intros k' v' Hk'. cbn in Hk'. rewrite lookup_empty in Hk'. discriminate Hk'.
    + tauto.
Qed.

Lemma AssetProcessor_build_table_witness :
  exists e,
    AssetProcessor.st_files (AssetProcessor.build (H := Sample.libs) Sample.ROOT Sample.site)
      !! js "/style.css" = Some (Asset e)
    /\ e_path e = Some (js "/style.css")
    /\ e_etag e = AssetProcessor.etag (e_body e).
Proof.
  eexists.
  match goal with |- ?T !! ?k = Some (Asset ?e) /\ _ =>
    assert (Hk : T !! k = Some (Asset e)) by (vm_compute; reflexivity)
  end.
  destruct (AssetProcessor_build_table Sample.libs Sample.ROOT Sample.site _ _ Hk)
    as (file & _ & _ & Hpath & Hc & _).
  split; [exact Hk|]. split; [exact Hpath | apply Hc].
Defined.

Lemma AssetProcessor_build_stores_witness :
  exists e,
    AssetProcessor.st_files
      (AssetProcessor.build (H := Sample.libs) Sample.ROOT Sample.site_without_css)
      !! Server.public_path (js "script.js") = Some (Asset e)
    /\ e_body e = Sample.bytes "x=1;".
Proof.
  destruct (AssetProcessor_build_stores (H := Sample.libs) Sample.ROOT
              Sample.site_without_css (js "script.js") (Some AssetProcessor.minifyJS)
              (Sample.bytes "x = 1; // done"))
    as (e & Hl & Hb).
  - right. right. left.
  - js_neq.
  - vm_compute. reflexivity.
  - exists e. split; [exact Hl|]. rewrite Hb. vm_compute. reflexivity.
Defined.

Lemma AssetProcessor_unreadable_stylesheet_witness :
  let fs : filesystem :=
    <[path_join (Libs := Sample.libs) Sample.ROOT (js "style.css") := Unreadable 0]>
      Sample.site in
  AssetProcessor.st_files (AssetProcessor.build (H := Sample.libs) Sample.ROOT fs)
    !! js "/index.html" = None.
Proof.
  intros fs.
  apply (AssetProcessor_unreadable_stylesheet (H := Sample.libs) Sample.ROOT fs 0).
  apply lookup_insert_eq.
Defined.

(* ===================================================================== *)
(** * The request handlers of the two scripts *)
(* ===================================================================== *)

Section Handlers.
Context `{Libs}.
Variable ROOT : jstring.

Lemma getContentType_contentTypeFor p :
  AssetProcessor.getContentType p = Server.contentTypeFor p.
Proof. reflexivity. Qed.

Lemma getCacheControl_cacheControlFor p :
  AssetProcessor.getCacheControl p = Server.cacheControlFor p.
Proof.
  unfold AssetProcessor.getCacheControl, Server.cacheControlFor.
  generalize (toLowerCase (extname p)). intros ext.
  destruct (decide (ext = js ".html")) as [->|Hh]; [reflexivity|].
  rewrite !(bool_decide_eq_false_2 (ext = js ".html")) by exact Hh.
  destruct (decide (ext = js ".css")) as [->|Hc]; [reflexivity|].
  destruct (decide (ext = js ".js")) as [->|Hj]; [reflexivity|].
  destruct (decide (ext = js ".webp")) as [->|Hw]; [reflexivity|].
  rewrite (bool_decide_eq_false_2 (ext ∈ _)).
  - rewrite !(bool_decide_eq_false_2 (ext = js ".css")) by exact Hc.
    rewrite !(bool_decide_eq_false_2 (ext = js ".js")) by exact Hj.
    rewrite !(bool_decide_eq_false_2 (ext = js ".webp")) by exact Hw.
    cbn [orb]. destruct (_ || _); reflexivity.
  - intros Hin. repeat (apply elem_of_cons in Hin as [?|Hin]; [contradiction|]).
    apply elem_of_nil in Hin. exact Hin.
Qed.

Lemma handleRequest_handler (fs : filesystem) (files : table) req :
  AssetProcessor.handleRequest ROOT fs files req = Server.handler ROOT fs files req.
Proof.
  unfold AssetProcessor.handleRequest, Server.handler.
  destruct (files !! _) as [[e|p]|]; [apply serveFile_serveEntry | reflexivity |].
  destruct (existsSync fs _ && isFile fs _); [|reflexivity].
  destruct (readFile fs _) as [raw|]; cbn [mbind option_bind]; [|reflexivity].
  rewrite serveFile_serveEntry, getCacheControl_cacheControlFor, AssetProcessor_etag,
    getContentType_contentTypeFor.
  reflexivity.
Qed.

(** An entry with the tags of its variants has a tag for whatever the
    negotiation picks. *)
Lemma coherent_variant_tag (tag_of : buffer -> jstring) e (a b : bool) :
  Spec.coherent tag_of e -> is_Some (Spec.variant_tag e (Spec.negotiate a b e)).
Proof.
  intros (_ & Hbr & Hgz). unfold Spec.negotiate.
  destruct a, b, (e_br e) as [br|] eqn:Ebr, (e_gz e) as [gz|] eqn:Egz;
    cbn; rewrite ?Hbr, ?Hgz; cbn; eauto.
Qed.

(** When [handler] throws: only for a path outside the table whose file
    exists and cannot be read. *)
Lemma handler_none_iff (tag_of : buffer -> jstring) (fs : filesystem) (files : table) req :
  let pathname := if bool_decide (r_pathname req = js "/") then js "/index.html"
                  else r_pathname req in
  (forall k e, files !! k = Some (Asset e) -> Spec.coherent tag_of e) ->
  (forall p, files !! pathname <> Some (Policy p)) ->
  Server.handler ROOT fs files req = None
  <-> files !! pathname = None
      /\ exists t, fs !! path_join ROOT pathname = Some (Unreadable t).
Proof.
  intros pathname Hco Hpol. unfold Server.handler. fold pathname.
  assert (Hserve : forall e,
            (forall a b, is_Some (Spec.variant_tag e (Spec.negotiate a b e))) ->
            Server.serveEntry files req e <> None).
  { intros e He.
    destruct (He (Server.negotiateEncoding req).1 (Server.negotiateEncoding req).2)
      as [tag Htag].
    rewrite (serveEntry_negotiated files req e tag Htag). discriminate. }
  destruct (files !! pathname) as [[e|p]|] eqn:Hl.
  - split; [|intros [? _]; discriminate].
    intros Hn. exfalso. apply (Hserve e); [|exact Hn].
    intros a b. apply (coherent_variant_tag tag_of), (Hco _ _ Hl).
  - destruct (Hpol p eq_refl).
  - unfold existsSync, isFile, readFile.
    destruct (fs !! path_join ROOT pathname) as [[raw t|t|]|].
    + rewrite bool_decide_eq_true_2 by eauto. cbn [andb mbind option_bind].
      split; [|intros (_ & t' & ?); discriminate].
      intros Hn. exfalso. revert Hn. apply (Hserve _).
      intros [|] [|]; cbn; eauto.
    + rewrite bool_decide_eq_true_2 by eauto. cbn [andb mbind option_bind].
      split; [intros _; split; [reflexivity | eauto] | intros _; reflexivity].
    + rewrite bool_decide_eq_true_2 by eauto. cbn [andb].
      split; [discriminate|]. intros (_ & t' & ?); discriminate.
    + rewrite bool_decide_eq_false_2 by (intros [? ?]; discriminate). cbn [andb].
      split; [discriminate|]. intros (_ & t' & ?); discriminate.
Qed.

Lemma pathname_not_csp req :
  head (r_pathname req) = Some (ch "/") ->
  (if bool_decide (r_pathname req = js "/") then js "/index.html" else r_pathname req)
  <> js "__csp__".
Proof.
  intros Hh. case_bool_decide; [js_neq|].
  intros E. rewrite E in Hh. vm_compute in Hh. discriminate Hh.
Qed.

Lemma loadAndMinify_assets fs relPath minify st st' :
  Server.loadAndMinify ROOT fs relPath minify st = Some st' ->
  (forall k p, Server.st_files st !! k <> Some (Policy p)) ->
  forall k p, Server.st_files st' !! k <> Some (Policy p).
Proof.
  unfold Server.loadAndMinify. intros Hload Hst.
  destruct (readFile fs _) as [src|]; [|discriminate].
  destruct (stat_mtimeMs fs _) as [t|]; [|discriminate].
  cbn [mbind option_bind] in Hload. injection Hload as <-. cbn [Server.st_files].
  intros k p. destruct (decide (k = Server.public_path relPath)) as [->|Hne].
  - rewrite lookup_insert_eq. discriminate.
  - rewrite lookup_insert_ne by congruence. apply Hst.
Qed.

Lemma load_static_assets fs l : forall st st',
  Server.load_static ROOT fs l st = Some st' ->
  (forall k p, Server.st_files st !! k <> Some (Policy p)) ->
  forall k p, Server.st_files st' !! k <> Some (Policy p).
Proof.
  induction l as [|f l IH]; intros st st' Hl Hst; cbn [Server.load_static] in Hl.
  - injection Hl as <-. exact Hst.
  - destruct (existsSync fs _); [|eauto].
    destruct (Server.loadAndMinify ROOT fs f None st) as [st1|] eqn:H1; [|discriminate].
    cbn [mbind option_bind] in Hl. eauto using loadAndMinify_assets.
Qed.

(** The only policy in the table of [server.js] is under [__csp__]. *)
Lemma build_policy_key fs st k p :
  Server.build ROOT fs = Some st ->
  Server.st_files st !! k = Some (Policy p) -> k = js "__csp__".
Proof.
  unfold Server.build. intros Hb Hk.
  destruct (Server.loadAndMinify ROOT fs (js "index.html") _ _) as [st1|] eqn:H1; [|discriminate].
  cbn [mbind option_bind] in Hb.
  destruct (Server.loadAndMinify ROOT fs (js "style.css") _ st1) as [st2|] eqn:H2; [|discriminate].
  cbn [mbind option_bind] in Hb.
  destruct (Server.loadAndMinify ROOT fs (js "script.js") _ st2) as [st3|] eqn:H3; [|discriminate].
  cbn [mbind option_bind] in Hb.
  destruct (Server.load_static ROOT fs _ st3) as [st4|] eqn:H4; [|discriminate].
  cbn [mbind option_bind] in Hb. injection Hb as <-. cbn [Server.st_files] in Hk.
  destruct (decide (k = js "__csp__")) as [->|Hne]; [reflexivity|].
  rewrite lookup_insert_ne in Hk by congruence. exfalso. revert Hk.
  eapply load_static_assets; [exact H4|].
  eapply loadAndMinify_assets; [exact H3|].
  eapply loadAndMinify_assets; [exact H2|].
  eapply loadAndMinify_assets; [exact H1|].
  intros k' p'. cbn. rewrite lookup_empty. discriminate.
Qed.

End Handlers.

(** Given the same table, the two scripts answer every request the same
    way: same content types, cache policies, validators and security
    headers, same negotiation, same fallback to the disk, same 404. *)
Theorem AssetProcessor_serves_like_server (L : Libs) (ROOT : jstring) :
  (forall p, AssetProcessor.getContentType p = Server.contentTypeFor p)
  /\ (forall p, AssetProcessor.getCacheControl p = Server.cacheControlFor p)
  /\ (forall buf, AssetProcessor.etag buf = Server.etag buf)
  /\ (forall files h,
        AssetProcessor.setSecurityHeaders files h = Server.setSecurityHeaders files h)
  /\ (forall (files : table) req e,
        AssetProcessor.serveFile files req e = Server.serveEntry files req e)
  /\ (forall (fs : filesystem) (files : table) req,
        AssetProcessor.handleRequest ROOT fs files req = Server.handler ROOT fs files req).
Proof.
  split; [apply getContentType_contentTypeFor|].
  split; [apply getCacheControl_cacheControlFor|].
  split; [apply AssetProcessor_etag|].
  split; [reflexivity|].
  split; [apply serveFile_serveEntry|].
  apply handleRequest_handler.
Qed.

(** After a successful build of [server.js] the handler, taken from
    the request as Node hands it over, throws in two cases only: the
    URL of the request does not parse ([new URL] throws), or the path
    is not in the table and names a file that exists and cannot be
    read.  A path in the table is always answered: every stored variant
    has its tag.  What is assumed of the parser is that the path of an
    [http] URL starts with a slash. *)
Theorem Server_handler_throws_iff (L : Libs) (U : Url) (ROOT : jstring)
    (fs fs' : filesystem) st (q : incoming) :
  Server.build ROOT fs = Some st ->
  (forall input base p, url_pathname input base = Some p -> head p = Some (ch "/")) ->
  Server.handler_req ROOT fs' (Server.st_files st) q = None
  <-> url_pathname (i_url q) (url_base q) = None
      \/ exists p,
           url_pathname (i_url q) (url_base q) = Some p
           /\ let pathname := if bool_decide (p = js "/") then js "/index.html" else p in
              Server.st_files st !! pathname = None
              /\ exists t, fs' !! path_join ROOT pathname = Some (Unreadable t).
Proof.
  intros Hb Hslash. unfold Server.handler_req.
  destruct (url_pathname (i_url q) (url_base q)) as [p|] eqn:Hp; cbn [mbind option_bind].
  - pose proof (handler_none_iff ROOT Server.etag fs' (Server.st_files st)
                  (mkRequest p (i_accept_encoding q) (i_if_none_match q))) as Hiff.
    cbv zeta in Hiff. cbn [r_pathname] in Hiff. rewrite Hiff.
    + split.
      * intros Hn. right. exists p. split; [reflexivity | exact Hn].
      * intros [Hn|(p' & Hp' & Hn)]; [discriminate Hn|].
        injection Hp' as <-. exact Hn.
    + intros k e Hk. exact (build_table_coherent ROOT fs st Hb k _ Hk).
    + intros pol Hpol. apply (build_policy_key ROOT fs st _ pol Hb) in Hpol.
      exact (pathname_not_csp (mkRequest p (i_accept_encoding q) (i_if_none_match q))
               (Hslash _ _ _ Hp) Hpol).
  - split; [intros _; left; reflexivity | reflexivity].
Qed.

(** The same for the class-based script, whose build never fails. *)
Theorem AssetProcessor_handleRequest_throws_iff (L : Libs) (U : Url) (ROOT : jstring)
    (fs fs' : filesystem) (q : incoming) :
  (forall input base p, url_pathname input base = Some p -> head p = Some (ch "/")) ->
  let files := AssetProcessor.st_files (AssetProcessor.build ROOT fs) in
  AssetProcessor.handleRequest_req ROOT fs' files q = None
  <-> url_pathname (i_url q) (url_base q) = None
      \/ exists p,
           url_pathname (i_url q) (url_base q) = Some p
           /\ let pathname := if bool_decide (p = js "/") then js "/index.html" else p in
              files !! pathname = None
              /\ exists t, fs' !! path_join ROOT pathname = Some (Unreadable t).
Proof.
  intros Hslash files. unfold AssetProcessor.handleRequest_req.
  assert (Hinv : forall k v, files !! k = Some v ->
            match v with
            | Policy _ => k = js "__csp__"
            | Asset e => Spec.coherent AssetProcessor.etag e
            end).
  { intros k v. unfold files, AssetProcessor.build. cbn [AssetProcessor.st_files].
    intros Hk. destruct (decide (k = js "__csp__")) as [->|Hne].
    - rewrite lookup_insert_eq in Hk. apply (inj Some) in Hk. subst v. reflexivity.
    - rewrite lookup_insert_ne in Hk by congruence.
      apply (tasks_table_inv ROOT fs) in Hk as (e & file & -> & _ & _ & _ & Hc & _).
      + exact Hc.
      + intros k' v' Hk'. cbn in Hk'. rewrite lookup_empty in Hk'. discriminate Hk'.
      + tauto. }
  destruct (url_pathname (i_url q) (url_base q)) as [p|] eqn:Hp; cbn [mbind option_bind].
  - rewrite handleRequest_handler.
    pose proof (handler_none_iff ROOT AssetProcessor.etag fs' files
                  (mkRequest p (i_accept_encoding q) (i_if_none_match q))) as Hiff.
    cbv zeta in Hiff. cbn [r_pathname] in Hiff. rewrite Hiff.
    + split.
      * intros Hn. right. exists p. split; [reflexivity | exact Hn].
      * intros [Hn|(p' & Hp' & Hn)]; [discriminate Hn|].
        injection Hp' as <-. exact Hn.
    + intros k e Hk. exact (Hinv k _ Hk).
    + intros pol Hpol. apply Hinv in Hpol.
      exact (pathname_not_csp (mkRequest p (i_accept_encoding q) (i_if_none_match q))
               (Hslash _ _ _ Hp) Hpol).
  - split; [intros _; left; reflexivity | reflexivity].
Qed.

Lemma sample_url_slash input base p :
  url_pathname (Url := Sample.url) input base = Some p -> head p = Some (ch "/").
Proof.
  cbn [url_pathname Sample.url]. destruct (startsWith (js "/") input && _) eqn:E; [|discriminate].
  intros [= <-]. apply andb_true_iff in E as [E _].
  destruct input as [|c t]; [discriminate E|].
  change (js "/") with [ch "/"] in E. cbn [startsWith] in E.
  apply andb_true_iff in E as [E _]. apply N.eqb_eq in E. rewrite <- E. reflexivity.
Qed.

Lemma Server_handler_throws_iff_witness :
  let fs' : filesystem :=
    {[ path_join (Libs := Sample.libs) Sample.ROOT (js "/secret") := Unreadable 0 ]} in
  exists st,
    Server.build (H := Sample.libs) Sample.ROOT Sample.site = Some st
    /\ Server.handler_req (H := Sample.libs) (H0 := Sample.url) Sample.ROOT fs'
         (Server.st_files st) (mkIncoming (js "/secret") None None None) = None
    /\ Server.handler_req (H := Sample.libs) (H0 := Sample.url) Sample.ROOT fs'
         (Server.st_files st) (mkIncoming (js "//") None None None) = None.
Proof.
  intros fs'. eexists.
  match goal with |- ?B = Some ?st /\ _ =>
    assert (Hb : B = Some st) by (vm_compute; reflexivity)
  end.
  split; [exact Hb|]. split.
  - apply (Server_handler_throws_iff Sample.libs Sample.url Sample.ROOT Sample.site fs' _
             (mkIncoming (js "/secret") None None None) Hb sample_url_slash).
    right. exists (js "/secret"). split; [reflexivity|].
    split; [vm_compute; reflexivity|].
    exists 0. vm_compute. reflexivity.
  - apply (Server_handler_throws_iff Sample.libs Sample.url Sample.ROOT Sample.site fs' _
             (mkIncoming (js "//") None None None) Hb sample_url_slash).
    left. reflexivity.
Defined.

Lemma AssetProcessor_handleRequest_throws_iff_witness :
  let fs' : filesystem :=
    {[ path_join (Libs := Sample.libs) Sample.ROOT (js "/secret") := Unreadable 0 ]} in
  AssetProcessor.handleRequest_req (H := Sample.libs) (H0 := Sample.url) Sample.ROOT fs'
    (AssetProcessor.st_files (AssetProcessor.build (H := Sample.libs) Sample.ROOT Sample.site))
    (mkIncoming (js "/secret") None None None) = None.
Proof.
  intros fs'.
  apply (AssetProcessor_handleRequest_throws_iff Sample.libs Sample.url Sample.ROOT
           Sample.site fs' (mkIncoming (js "/secret") None None None) sample_url_slash).
  right. exists (js "/secret"). split; [reflexivity|].
  split; [vm_compute; reflexivity|].
  exists 0. vm_compute. reflexivity.
Defined.

(* ===================================================================== *)
(** * Plain text goes through all six minifiers unchanged *)
(* ===================================================================== *)

Section PlainText.

Lemma AssetProcessor_minifyCSS_plain s : Spec.letters s -> AssetProcessor.minifyCSS s = s.
Proof.
  intros Hs. unfold AssetProcessor.minifyCSS.
  plain_chain s. reflexivity.
Qed.

Lemma AssetProcessor_minifyHTML_plain s : Spec.letters s -> AssetProcessor.minifyHTML s = s.
Proof.
  intros Hs. unfold AssetProcessor.minifyHTML.
  plain_chain s. reflexivity.
Qed.

Lemma AssetProcessor_minifyJS_plain s : Spec.letters s -> AssetProcessor.minifyJS s = s.
Proof.
  intros Hs. unfold AssetProcessor.minifyJS, AssetProcessor.preserveStrings.
  rewrite (match_g_plain noflags AssetProcessor.string_literal s) by (first [reflexivity | assumption]).
  plain_chain s. reflexivity.
Qed.

End PlainText.

(** A text made of ASCII letters only is returned as it is by each of
    the six minifiers: no pattern of theirs can match without consuming
    some other character, the scanners copy letters, and nothing is
    trimmed. *)
Theorem minifiers_keep_plain_text (x : jstring) :
  Spec.letters x ->
  Server.minifyCSS x = x /\ Server.minifyHTML x = x /\ Server.minifyJS x = x
  /\ AssetProcessor.minifyCSS x = x /\ AssetProcessor.minifyHTML x = x
  /\ AssetProcessor.minifyJS x = x.
Proof.
  intros Hx.
  split; [apply minifyCSS_plain, Hx|].
  split; [apply minifyHTML_plain, Hx|].
  split; [apply minifyJS_plain, Hx|].
  split; [apply AssetProcessor_minifyCSS_plain, Hx|].
  split; [apply AssetProcessor_minifyHTML_plain, Hx|].
  apply AssetProcessor_minifyJS_plain, Hx.
Qed.

Lemma minifiers_keep_plain_text_witness :
  Spec.letters (js "inherit")
  /\ Server.minifyJS (js "inherit") = js "inherit"
  /\ AssetProcessor.minifyCSS (js "inherit") = js "inherit".
Proof.
  assert (Hl : Spec.letters (js "inherit")) by (repeat constructor).
  destruct (minifiers_keep_plain_text (js "inherit") Hl) as (_ & _ & Hjs & Hcss & _).
  split; [exact Hl|]. split; [exact Hjs | exact Hcss].
Defined.
